(** * A shallow embedding of the assistant front end

    The main script of the chat page (the response arbitrator, the audio
    assembler, the playback queue, the speech fallback, the capture
    encoder and the HTTP helpers) and the capture and playback functions of
    [frontend/live-chat.js], modelled as pure functions over an explicit
    state.  Browser objects (the socket, timers, audio elements, the speech
    synthesiser, the DOM) are part of that state or appear as entries of an
    effect log.

    Conventions.
    - A JS number that the code only uses as an integer is a [Z]; what a
      [DataView] stores is reduced modulo the width of the field.
    - A [Uint8Array] is a [list Z]; the values the code stores in one are
      reduced modulo 256.
    - A text is a [string] holding its UTF-8 bytes; [None] stands for
      [null] / [undefined].  A value is "truthy" when it is [Some s] with
      [s] not empty. *)

From Stdlib Require Import ZArith List String Ascii Bool Lia QArith Qround Sorted.
Import ListNotations.
Open Scope string_scope.
Open Scope list_scope.
Open Scope Z_scope.

Set Implicit Arguments.

(** ** JS values *)

Definition truthy (v : option string) : bool :=
  match v with
  | Some (String _ _) => true
  | _ => false
  end.

(** [a || b] on optional strings. *)
Definition js_or (a b : option string) : option string :=
  if truthy a then a else b.

Definition code (c : ascii) : Z := Z.of_N (N_of_ascii c).
Definition chr (z : Z) : ascii := ascii_of_N (Z.to_N (z mod 256)).

Fixpoint codes (s : string) : list Z :=
  match s with
  | EmptyString => []
  | String c r => code c :: codes r
  end.

Fixpoint of_codes (l : list Z) : string :=
  match l with
  | [] => EmptyString
  | z :: r => String (chr z) (of_codes r)
  end.

Definition Uint8Array := list Z.

Definition byteLength (a : Uint8Array) : Z := Z.of_nat (List.length a).

(** ** Typed arrays and data views *)

(** [new Uint8Array(n)]: [n] zero bytes. *)
Definition newUint8Array (n : Z) : Uint8Array := repeat 0 (Z.to_nat n).

(** [dst.set(src, offset)]: the bytes of [src] overwrite [dst] from
    [offset] on.  The code only calls it with [offset + src.length <=
    dst.length] (JS raises a RangeError otherwise); out of that range the
    model keeps the length of [dst]. *)
Definition typed_set (dst src : Uint8Array) (offset : Z) : Uint8Array :=
  let o := Z.to_nat offset in
  firstn (List.length dst)
    (firstn o dst ++ src ++ skipn (o + List.length src) dst).

Definition setUint8 (view : Uint8Array) (offset v : Z) : Uint8Array :=
  typed_set view [v mod 256] offset.

(** [view.setUint16(offset, v, true)] and [view.setUint32(offset, v, true)]:
    little endian, the value reduced modulo 2^16 and 2^32. *)
Definition setUint16 (view : Uint8Array) (offset v : Z) : Uint8Array :=
  let w := v mod 65536 in
  setUint8 (setUint8 view offset w) (offset + 1) (w / 256).

Definition setUint32 (view : Uint8Array) (offset v : Z) : Uint8Array :=
  let w := v mod 4294967296 in
  setUint8 (setUint8 (setUint8 (setUint8 view offset w)
    (offset + 1) (w / 256)) (offset + 2) (w / 65536)) (offset + 3) (w / 16777216).

Definition getUint8 (view : Uint8Array) (offset : Z) : Z :=
  nth (Z.to_nat offset) view 0.

Definition getUint16 (view : Uint8Array) (offset : Z) : Z :=
  getUint8 view offset + 256 * getUint8 view (offset + 1).

Definition getUint32 (view : Uint8Array) (offset : Z) : Z :=
  getUint8 view offset + 256 * getUint8 view (offset + 1)
  + 65536 * getUint8 view (offset + 2) + 16777216 * getUint8 view (offset + 3).

(** [writeString(view, offset, string)] *)
Fixpoint writeString (view : Uint8Array) (offset : Z) (s : string) : Uint8Array :=
  match s with
  | EmptyString => view
  | String c r => writeString (setUint8 view offset (code c)) (offset + 1) r
  end.

(** ** The audio assembler: [concatUint8Arrays], [getSampleRateFromMime],
    [createWavBlob] *)

(** The [for ... of] loop of [concatUint8Arrays]: [(result, offset)] is
    threaded through the chunks. *)
Fixpoint concat_loop (chunks : list Uint8Array) (result : Uint8Array) (offset : Z)
  : Uint8Array :=
  match chunks with
  | [] => result
  | chunk :: rest =>
      concat_loop rest (typed_set result chunk offset) (offset + byteLength chunk)
  end.

Definition concatUint8Arrays (chunks : list Uint8Array) : Uint8Array :=
  let totalLength := fold_left (fun sum chunk => sum + byteLength chunk) chunks 0 in
  concat_loop chunks (newUint8Array totalLength) 0.

Definition is_digit (c : ascii) : bool := (48 <=? code c) && (code c <=? 57).

Fixpoint take_digits (s : string) : string :=
  match s with
  | String c r => if is_digit c then String c (take_digits r) else EmptyString
  | EmptyString => EmptyString
  end.

Fixpoint strip_prefix (p s : string) : option string :=
  match p, s with
  | EmptyString, _ => Some s
  | String a p', String b s' => if Ascii.eqb a b then strip_prefix p' s' else None
  | String _ _, EmptyString => None
  end.

(** [/rate=(\d+)/.exec(s)]: the capture of the leftmost match. *)
Fixpoint rate_match (s : string) : option string :=
  match strip_prefix "rate=" s with
  | Some (String d _ as after) =>
      if is_digit d then Some (take_digits after)
      else match s with String _ r => rate_match r | EmptyString => None end
  | _ => match s with String _ r => rate_match r | EmptyString => None end
  end.

(** [parseInt(digits, 10)] on a run of decimal digits.  JS rounds the
    result to a double above 2^53; the model keeps the integer. *)
Definition parseInt (digits : string) : Z :=
  fold_left (fun acc d => 10 * acc + (d - 48)) (codes digits) 0.

Definition getSampleRateFromMime (mimeType : option string) : option Z :=
  match mimeType with
  | Some (String _ _ as m) =>
      match rate_match m with
      | Some d => Some (parseInt d)
      | None => None
      end
  | _ => None
  end.

(** [getSampleRateFromMime(m) || 24000]: [null] and [0] are falsy. *)
Definition rate_or_default (r : option Z) : Z :=
  match r with
  | Some n => if n =? 0 then 24000 else n
  | None => 24000
  end.

Definition wavHeader (dataSize sampleRate : Z) : Uint8Array :=
  let numChannels := 1 in
  let bitsPerSample := 16 in
  let blockAlign := numChannels * bitsPerSample / 8 in
  let byteRate := sampleRate * blockAlign in
  let view := newUint8Array 44 in
  let view := writeString view 0 "RIFF" in
  let view := setUint32 view 4 (36 + dataSize) in
  let view := writeString view 8 "WAVE" in
  let view := writeString view 12 "fmt " in
  let view := setUint32 view 16 16 in
  let view := setUint16 view 20 1 in
  let view := setUint16 view 22 numChannels in
  let view := setUint32 view 24 sampleRate in
  let view := setUint32 view 28 byteRate in
  let view := setUint16 view 32 blockAlign in
  let view := setUint16 view 34 bitsPerSample in
  let view := writeString view 36 "data" in
  setUint32 view 40 dataSize.

(** The bytes of the blob [createWavBlob] returns. *)
Definition createWavBlob (pcmBytes : Uint8Array) (sampleRate : Z) : Uint8Array :=
  let dataSize := byteLength pcmBytes in
  let buffer := wavHeader dataSize sampleRate in
  let wavBytes := newUint8Array (44 + dataSize) in
  let wavBytes := typed_set wavBytes buffer 0 in
  typed_set wavBytes pcmBytes 44.

(** ** Base64: [btoa] and [atob]

    [btoa] is only applied to a string built from bytes, [atob] is the
    forgiving decoder of the HTML standard; both are fused with the
    conversion between binary strings and byte arrays that surrounds them in
    the code.  [atob] is [None] where the browser raises. *)

Definition b64_char (n : Z) : ascii :=
  chr (if n <? 26 then 65 + n
       else if n <? 52 then 97 + (n - 26)
       else if n <? 62 then 48 + (n - 52)
       else if n =? 62 then 43 else 47).

Definition b64_index (c : Z) : option Z :=
  if (65 <=? c) && (c <=? 90) then Some (c - 65)
  else if (97 <=? c) && (c <=? 122) then Some (c - 97 + 26)
  else if (48 <=? c) && (c <=? 57) then Some (c - 48 + 52)
  else if c =? 43 then Some 62
  else if c =? 47 then Some 63
  else None.

Fixpoint btoa (bytes : Uint8Array) : string :=
  match bytes with
  | [] => EmptyString
  | [a] =>
      String (b64_char (a / 4)) (String (b64_char (a mod 4 * 16)) "==")
  | [a; b] =>
      String (b64_char (a / 4)) (String (b64_char (a mod 4 * 16 + b / 16))
        (String (b64_char (b mod 16 * 4)) "="))
  | a :: b :: c :: rest =>
      String (b64_char (a / 4)) (String (b64_char (a mod 4 * 16 + b / 16))
        (String (b64_char (b mod 16 * 4 + c / 64)) (String (b64_char (c mod 64))
          (btoa rest))))
  end.

Definition is_ascii_whitespace (c : Z) : bool :=
  (c =? 9) || (c =? 10) || (c =? 12) || (c =? 13) || (c =? 32).

(** Removes one or two trailing [=] from a reversed list of codes. *)
Definition drop_padding (rev_data : list Z) : list Z :=
  match rev_data with
  | 61 :: 61 :: r => r
  | 61 :: r => r
  | r => r
  end.

Fixpoint sextets (data : list Z) : option (list Z) :=
  match data with
  | [] => Some []
  | c :: r =>
      match b64_index c, sextets r with
      | Some i, Some l => Some (i :: l)
      | _, _ => None
      end
  end.

Fixpoint decode_sextets (l : list Z) : Uint8Array :=
  match l with
  | a :: b :: c :: d :: rest =>
      (a * 4 + b / 16) :: (b mod 16 * 16 + c / 4) :: (c mod 4 * 64 + d)
      :: decode_sextets rest
  | [a; b; c] => [a * 4 + b / 16; b mod 16 * 16 + c / 4]
  | [a; b] => [a * 4 + b / 16]
  | _ => []
  end.

Definition atob (s : string) : option Uint8Array :=
  let data := filter (fun c => negb (is_ascii_whitespace c)) (codes s) in
  let data :=
    if Z.of_nat (List.length data) mod 4 =? 0
    then rev (drop_padding (rev data)) else data in
  if Z.of_nat (List.length data) mod 4 =? 1 then None
  else option_map decode_sextets (sextets data).

(** ** The capture encoder's sample conversion *)

(** A sample of the capture buffer: a finite value, given exactly, or NaN.
    The infinities need no case of their own: the clamp sends them where it
    sends every value beyond 1 or below -1.  The two products below are
    exact in double precision (a 24-bit significand times a 15-bit or a
    one-bit constant), so exact rational arithmetic computes what the code
    computes. *)
Inductive Sample : Type :=
| SNaN
| SNum (q : Q).

(** [Math.max(-1, Math.min(1, x))] *)
Definition clampSample (x : Sample) : Sample :=
  match x with
  | SNaN => SNaN
  | SNum q =>
      let m := if Qle_bool q 1 then q else 1%Q in
      SNum (if Qle_bool (-1) m then m else (-1)%Q)
  end.

(** [s < 0 ? s * 0x8000 : s * 0x7FFF] *)
Definition scaleSample (s : Sample) : Sample :=
  match s with
  | SNaN => SNaN
  | SNum q =>
      if negb (Qle_bool 0 q) then SNum (q * 32768)%Q else SNum (q * 32767)%Q
  end.

(** Storing a number in an [Int16Array]: NaN is 0, a finite value is
    truncated toward zero and wrapped to 16 bits, two's complement. *)
Definition toInt16 (v : Sample) : Z :=
  match v with
  | SNaN => 0
  | SNum q =>
      let t := Z.quot (Qnum q) (Z.pos (Qden q)) in
      (t + 32768) mod 65536 - 32768
  end.

Definition pcmSample (x : Sample) : Z := toInt16 (scaleSample (clampSample x)).

(** [new Uint8Array(pcmData.buffer)]: two bytes per sample, low byte first
    (the byte order of every platform the page runs on). *)
Fixpoint int16Bytes (pcm : list Z) : Uint8Array :=
  match pcm with
  | [] => []
  | v :: r => (v mod 256) :: ((v / 256) mod 256) :: int16Bytes r
  end.

Definition encodeCapture (inputData : list Sample) : string :=
  btoa (int16Bytes (map pcmSample inputData)).

(** ** The page state

    The script's global variables keep their names.  [wsOpen] stands for
    [liveWebSocket && liveWebSocket.readyState === WebSocket.OPEN];
    [audioContext] and [mediaRecorder] only record whether the variable holds
    an object.  An object URL is a number, [blobs] maps the URLs that are not
    revoked to the bytes of their blob, and an [Audio] element is named by
    the URL it was created for.  [timers] holds the pending fallback timers
    with the time at which each fires; [liveAudio] holds the audio elements
    that [playNextAudio] created and that have not ended, failed or been
    paused since. *)

Inductive RecordingMode : Type := ModeChat | ModeNav.
Inductive Button : Type := MicButton | NavMicButton.
Inductive Sender : Type := Bot | User.
Inductive Lang : Type := ArSA | EnUS.
Inductive ConnStatus : Type := Connecting | Connected | Recording | Disconnected.

Inductive Outbound : Type :=
| OutAudio (audio mime_type : string)
| OutAudioStreamEnd.

Inductive Request : Type :=
| FetchAssist (command current_page : string)
| FetchQuery (message : string) (session_id : option string) (current_page : string)
| FetchUpload (file : string).

Inductive Effect : Type :=
| AddMessage (text : string) (type : Sender) (toolUsed : option string) (isError : bool)
| AddLoadingMessage
| RemoveLoadingMessage
| UpdateConnectionStatus (status : ConnStatus) (text : string)
| WsSend (e : Outbound)
| SpeechCancel
| SpeechSpeak (text : string) (lang : Lang)
| NavigateTo (page : string)
| NavigateLater (page : string)
| NavRespondingClass (on : bool)
| RecordingClass (b : Button) (on : bool)
| AudioPlay (url : nat)
| AudioPause (url : nat)
| RevokeObjectURL (url : nat)
| Fetch (r : Request)
| ConsoleError (what : string)
| UploadStatus (text cls : string)
| GetUserMedia
| CaptureReleased
| AudioContextClosed
| OpenChatView
| UploadButtonClick
| FocusMessageInput
| Highlight (target : string)
| Reconnect.

(** What the page offers: the optional elements and the synthesiser. *)
Record Browser : Type := mkBrowser {
  hasNavMicButton : bool;
  hasUploadButton : bool;
  hasSpeechSynthesis : bool
}.

Record State : Type := mkState {
  sessionId : option string;
  isProcessing : bool;
  isRecording : bool;
  wsOpen : bool;
  audioContext : bool;
  mediaRecorder : bool;
  pendingAudioChunks : list Uint8Array;
  pendingAudioMimeType : option string;
  audioQueue : list nat;
  isPlayingAudio : bool;
  hasShownAudioIndicator : bool;
  activeRecordingTarget : option Button;
  activeRecordingMode : option RecordingMode;
  navAwaitingResponse : bool;
  lastResponseText : option string;
  navResponseTimeout : option nat;
  navSuppressRealtime : bool;
  awaitingRealtimeResponse : bool;
  activeAudio : option nat;
  messageInput : string;
  sendButtonDisabled : bool;
  uploadButtonDisabled : bool;
  locationHash : string;
  browser : Browser;
  clock : Z;
  timers : list (nat * Z);
  nextTimerId : nat;
  blobs : list (nat * Uint8Array);
  nextUrl : nat;
  liveAudio : list nat;
  assistInFlight : nat;
  pendingStarts : list (RecordingMode * Button);
  pendingUploads : list string;
  log : list Effect
}.

Definition set_sessionId (v : option string) (s : State) : State :=
  {| sessionId := v; isProcessing := isProcessing s; isRecording := isRecording s; wsOpen := wsOpen s; audioContext := audioContext s; mediaRecorder := mediaRecorder s; pendingAudioChunks := pendingAudioChunks s; pendingAudioMimeType := pendingAudioMimeType s; audioQueue := audioQueue s; isPlayingAudio := isPlayingAudio s; hasShownAudioIndicator := hasShownAudioIndicator s; activeRecordingTarget := activeRecordingTarget s; activeRecordingMode := activeRecordingMode s; navAwaitingResponse := navAwaitingResponse s; lastResponseText := lastResponseText s; navResponseTimeout := navResponseTimeout s; navSuppressRealtime := navSuppressRealtime s; awaitingRealtimeResponse := awaitingRealtimeResponse s; activeAudio := activeAudio s; messageInput := messageInput s; sendButtonDisabled := sendButtonDisabled s; uploadButtonDisabled := uploadButtonDisabled s; locationHash := locationHash s; browser := browser s; clock := clock s; timers := timers s; nextTimerId := nextTimerId s; blobs := blobs s; nextUrl := nextUrl s; liveAudio := liveAudio s; assistInFlight := assistInFlight s; pendingStarts := pendingStarts s; pendingUploads := pendingUploads s; log := log s |}.
Definition set_isProcessing (v : bool) (s : State) : State :=
  {| sessionId := sessionId s; isProcessing := v; isRecording := isRecording s; wsOpen := wsOpen s; audioContext := audioContext s; mediaRecorder := mediaRecorder s; pendingAudioChunks := pendingAudioChunks s; pendingAudioMimeType := pendingAudioMimeType s; audioQueue := audioQueue s; isPlayingAudio := isPlayingAudio s; hasShownAudioIndicator := hasShownAudioIndicator s; activeRecordingTarget := activeRecordingTarget s; activeRecordingMode := activeRecordingMode s; navAwaitingResponse := navAwaitingResponse s; lastResponseText := lastResponseText s; navResponseTimeout := navResponseTimeout s; navSuppressRealtime := navSuppressRealtime s; awaitingRealtimeResponse := awaitingRealtimeResponse s; activeAudio := activeAudio s; messageInput := messageInput s; sendButtonDisabled := sendButtonDisabled s; uploadButtonDisabled := uploadButtonDisabled s; locationHash := locationHash s; browser := browser s; clock := clock s; timers := timers s; nextTimerId := nextTimerId s; blobs := blobs s; nextUrl := nextUrl s; liveAudio := liveAudio s; assistInFlight := assistInFlight s; pendingStarts := pendingStarts s; pendingUploads := pendingUploads s; log := log s |}.
Definition set_isRecording (v : bool) (s : State) : State :=
  {| sessionId := sessionId s; isProcessing := isProcessing s; isRecording := v; wsOpen := wsOpen s; audioContext := audioContext s; mediaRecorder := mediaRecorder s; pendingAudioChunks := pendingAudioChunks s; pendingAudioMimeType := pendingAudioMimeType s; audioQueue := audioQueue s; isPlayingAudio := isPlayingAudio s; hasShownAudioIndicator := hasShownAudioIndicator s; activeRecordingTarget := activeRecordingTarget s; activeRecordingMode := activeRecordingMode s; navAwaitingResponse := navAwaitingResponse s; lastResponseText := lastResponseText s; navResponseTimeout := navResponseTimeout s; navSuppressRealtime := navSuppressRealtime s; awaitingRealtimeResponse := awaitingRealtimeResponse s; activeAudio := activeAudio s; messageInput := messageInput s; sendButtonDisabled := sendButtonDisabled s; uploadButtonDisabled := uploadButtonDisabled s; locationHash := locationHash s; browser := browser s; clock := clock s; timers := timers s; nextTimerId := nextTimerId s; blobs := blobs s; nextUrl := nextUrl s; liveAudio := liveAudio s; assistInFlight := assistInFlight s; pendingStarts := pendingStarts s; pendingUploads := pendingUploads s; log := log s |}.
Definition set_wsOpen (v : bool) (s : State) : State :=
  {| sessionId := sessionId s; isProcessing := isProcessing s; isRecording := isRecording s; wsOpen := v; audioContext := audioContext s; mediaRecorder := mediaRecorder s; pendingAudioChunks := pendingAudioChunks s; pendingAudioMimeType := pendingAudioMimeType s; audioQueue := audioQueue s; isPlayingAudio := isPlayingAudio s; hasShownAudioIndicator := hasShownAudioIndicator s; activeRecordingTarget := activeRecordingTarget s; activeRecordingMode := activeRecordingMode s; navAwaitingResponse := navAwaitingResponse s; lastResponseText := lastResponseText s; navResponseTimeout := navResponseTimeout s; navSuppressRealtime := navSuppressRealtime s; awaitingRealtimeResponse := awaitingRealtimeResponse s; activeAudio := activeAudio s; messageInput := messageInput s; sendButtonDisabled := sendButtonDisabled s; uploadButtonDisabled := uploadButtonDisabled s; locationHash := locationHash s; browser := browser s; clock := clock s; timers := timers s; nextTimerId := nextTimerId s; blobs := blobs s; nextUrl := nextUrl s; liveAudio := liveAudio s; assistInFlight := assistInFlight s; pendingStarts := pendingStarts s; pendingUploads := pendingUploads s; log := log s |}.
Definition set_audioContext (v : bool) (s : State) : State :=
  {| sessionId := sessionId s; isProcessing := isProcessing s; isRecording := isRecording s; wsOpen := wsOpen s; audioContext := v; mediaRecorder := mediaRecorder s; pendingAudioChunks := pendingAudioChunks s; pendingAudioMimeType := pendingAudioMimeType s; audioQueue := audioQueue s; isPlayingAudio := isPlayingAudio s; hasShownAudioIndicator := hasShownAudioIndicator s; activeRecordingTarget := activeRecordingTarget s; activeRecordingMode := activeRecordingMode s; navAwaitingResponse := navAwaitingResponse s; lastResponseText := lastResponseText s; navResponseTimeout := navResponseTimeout s; navSuppressRealtime := navSuppressRealtime s; awaitingRealtimeResponse := awaitingRealtimeResponse s; activeAudio := activeAudio s; messageInput := messageInput s; sendButtonDisabled := sendButtonDisabled s; uploadButtonDisabled := uploadButtonDisabled s; locationHash := locationHash s; browser := browser s; clock := clock s; timers := timers s; nextTimerId := nextTimerId s; blobs := blobs s; nextUrl := nextUrl s; liveAudio := liveAudio s; assistInFlight := assistInFlight s; pendingStarts := pendingStarts s; pendingUploads := pendingUploads s; log := log s |}.
Definition set_mediaRecorder (v : bool) (s : State) : State :=
  {| sessionId := sessionId s; isProcessing := isProcessing s; isRecording := isRecording s; wsOpen := wsOpen s; audioContext := audioContext s; mediaRecorder := v; pendingAudioChunks := pendingAudioChunks s; pendingAudioMimeType := pendingAudioMimeType s; audioQueue := audioQueue s; isPlayingAudio := isPlayingAudio s; hasShownAudioIndicator := hasShownAudioIndicator s; activeRecordingTarget := activeRecordingTarget s; activeRecordingMode := activeRecordingMode s; navAwaitingResponse := navAwaitingResponse s; lastResponseText := lastResponseText s; navResponseTimeout := navResponseTimeout s; navSuppressRealtime := navSuppressRealtime s; awaitingRealtimeResponse := awaitingRealtimeResponse s; activeAudio := activeAudio s; messageInput := messageInput s; sendButtonDisabled := sendButtonDisabled s; uploadButtonDisabled := uploadButtonDisabled s; locationHash := locationHash s; browser := browser s; clock := clock s; timers := timers s; nextTimerId := nextTimerId s; blobs := blobs s; nextUrl := nextUrl s; liveAudio := liveAudio s; assistInFlight := assistInFlight s; pendingStarts := pendingStarts s; pendingUploads := pendingUploads s; log := log s |}.
Definition set_pendingAudioChunks (v : list Uint8Array) (s : State) : State :=
  {| sessionId := sessionId s; isProcessing := isProcessing s; isRecording := isRecording s; wsOpen := wsOpen s; audioContext := audioContext s; mediaRecorder := mediaRecorder s; pendingAudioChunks := v; pendingAudioMimeType := pendingAudioMimeType s; audioQueue := audioQueue s; isPlayingAudio := isPlayingAudio s; hasShownAudioIndicator := hasShownAudioIndicator s; activeRecordingTarget := activeRecordingTarget s; activeRecordingMode := activeRecordingMode s; navAwaitingResponse := navAwaitingResponse s; lastResponseText := lastResponseText s; navResponseTimeout := navResponseTimeout s; navSuppressRealtime := navSuppressRealtime s; awaitingRealtimeResponse := awaitingRealtimeResponse s; activeAudio := activeAudio s; messageInput := messageInput s; sendButtonDisabled := sendButtonDisabled s; uploadButtonDisabled := uploadButtonDisabled s; locationHash := locationHash s; browser := browser s; clock := clock s; timers := timers s; nextTimerId := nextTimerId s; blobs := blobs s; nextUrl := nextUrl s; liveAudio := liveAudio s; assistInFlight := assistInFlight s; pendingStarts := pendingStarts s; pendingUploads := pendingUploads s; log := log s |}.
Definition set_pendingAudioMimeType (v : option string) (s : State) : State :=
  {| sessionId := sessionId s; isProcessing := isProcessing s; isRecording := isRecording s; wsOpen := wsOpen s; audioContext := audioContext s; mediaRecorder := mediaRecorder s; pendingAudioChunks := pendingAudioChunks s; pendingAudioMimeType := v; audioQueue := audioQueue s; isPlayingAudio := isPlayingAudio s; hasShownAudioIndicator := hasShownAudioIndicator s; activeRecordingTarget := activeRecordingTarget s; activeRecordingMode := activeRecordingMode s; navAwaitingResponse := navAwaitingResponse s; lastResponseText := lastResponseText s; navResponseTimeout := navResponseTimeout s; navSuppressRealtime := navSuppressRealtime s; awaitingRealtimeResponse := awaitingRealtimeResponse s; activeAudio := activeAudio s; messageInput := messageInput s; sendButtonDisabled := sendButtonDisabled s; uploadButtonDisabled := uploadButtonDisabled s; locationHash := locationHash s; browser := browser s; clock := clock s; timers := timers s; nextTimerId := nextTimerId s; blobs := blobs s; nextUrl := nextUrl s; liveAudio := liveAudio s; assistInFlight := assistInFlight s; pendingStarts := pendingStarts s; pendingUploads := pendingUploads s; log := log s |}.
Definition set_audioQueue (v : list nat) (s : State) : State :=
  {| sessionId := sessionId s; isProcessing := isProcessing s; isRecording := isRecording s; wsOpen := wsOpen s; audioContext := audioContext s; mediaRecorder := mediaRecorder s; pendingAudioChunks := pendingAudioChunks s; pendingAudioMimeType := pendingAudioMimeType s; audioQueue := v; isPlayingAudio := isPlayingAudio s; hasShownAudioIndicator := hasShownAudioIndicator s; activeRecordingTarget := activeRecordingTarget s; activeRecordingMode := activeRecordingMode s; navAwaitingResponse := navAwaitingResponse s; lastResponseText := lastResponseText s; navResponseTimeout := navResponseTimeout s; navSuppressRealtime := navSuppressRealtime s; awaitingRealtimeResponse := awaitingRealtimeResponse s; activeAudio := activeAudio s; messageInput := messageInput s; sendButtonDisabled := sendButtonDisabled s; uploadButtonDisabled := uploadButtonDisabled s; locationHash := locationHash s; browser := browser s; clock := clock s; timers := timers s; nextTimerId := nextTimerId s; blobs := blobs s; nextUrl := nextUrl s; liveAudio := liveAudio s; assistInFlight := assistInFlight s; pendingStarts := pendingStarts s; pendingUploads := pendingUploads s; log := log s |}.
Definition set_isPlayingAudio (v : bool) (s : State) : State :=
  {| sessionId := sessionId s; isProcessing := isProcessing s; isRecording := isRecording s; wsOpen := wsOpen s; audioContext := audioContext s; mediaRecorder := mediaRecorder s; pendingAudioChunks := pendingAudioChunks s; pendingAudioMimeType := pendingAudioMimeType s; audioQueue := audioQueue s; isPlayingAudio := v; hasShownAudioIndicator := hasShownAudioIndicator s; activeRecordingTarget := activeRecordingTarget s; activeRecordingMode := activeRecordingMode s; navAwaitingResponse := navAwaitingResponse s; lastResponseText := lastResponseText s; navResponseTimeout := navResponseTimeout s; navSuppressRealtime := navSuppressRealtime s; awaitingRealtimeResponse := awaitingRealtimeResponse s; activeAudio := activeAudio s; messageInput := messageInput s; sendButtonDisabled := sendButtonDisabled s; uploadButtonDisabled := uploadButtonDisabled s; locationHash := locationHash s; browser := browser s; clock := clock s; timers := timers s; nextTimerId := nextTimerId s; blobs := blobs s; nextUrl := nextUrl s; liveAudio := liveAudio s; assistInFlight := assistInFlight s; pendingStarts := pendingStarts s; pendingUploads := pendingUploads s; log := log s |}.
Definition set_hasShownAudioIndicator (v : bool) (s : State) : State :=
  {| sessionId := sessionId s; isProcessing := isProcessing s; isRecording := isRecording s; wsOpen := wsOpen s; audioContext := audioContext s; mediaRecorder := mediaRecorder s; pendingAudioChunks := pendingAudioChunks s; pendingAudioMimeType := pendingAudioMimeType s; audioQueue := audioQueue s; isPlayingAudio := isPlayingAudio s; hasShownAudioIndicator := v; activeRecordingTarget := activeRecordingTarget s; activeRecordingMode := activeRecordingMode s; navAwaitingResponse := navAwaitingResponse s; lastResponseText := lastResponseText s; navResponseTimeout := navResponseTimeout s; navSuppressRealtime := navSuppressRealtime s; awaitingRealtimeResponse := awaitingRealtimeResponse s; activeAudio := activeAudio s; messageInput := messageInput s; sendButtonDisabled := sendButtonDisabled s; uploadButtonDisabled := uploadButtonDisabled s; locationHash := locationHash s; browser := browser s; clock := clock s; timers := timers s; nextTimerId := nextTimerId s; blobs := blobs s; nextUrl := nextUrl s; liveAudio := liveAudio s; assistInFlight := assistInFlight s; pendingStarts := pendingStarts s; pendingUploads := pendingUploads s; log := log s |}.
Definition set_activeRecordingTarget (v : option Button) (s : State) : State :=
  {| sessionId := sessionId s; isProcessing := isProcessing s; isRecording := isRecording s; wsOpen := wsOpen s; audioContext := audioContext s; mediaRecorder := mediaRecorder s; pendingAudioChunks := pendingAudioChunks s; pendingAudioMimeType := pendingAudioMimeType s; audioQueue := audioQueue s; isPlayingAudio := isPlayingAudio s; hasShownAudioIndicator := hasShownAudioIndicator s; activeRecordingTarget := v; activeRecordingMode := activeRecordingMode s; navAwaitingResponse := navAwaitingResponse s; lastResponseText := lastResponseText s; navResponseTimeout := navResponseTimeout s; navSuppressRealtime := navSuppressRealtime s; awaitingRealtimeResponse := awaitingRealtimeResponse s; activeAudio := activeAudio s; messageInput := messageInput s; sendButtonDisabled := sendButtonDisabled s; uploadButtonDisabled := uploadButtonDisabled s; locationHash := locationHash s; browser := browser s; clock := clock s; timers := timers s; nextTimerId := nextTimerId s; blobs := blobs s; nextUrl := nextUrl s; liveAudio := liveAudio s; assistInFlight := assistInFlight s; pendingStarts := pendingStarts s; pendingUploads := pendingUploads s; log := log s |}.
Definition set_activeRecordingMode (v : option RecordingMode) (s : State) : State :=
  {| sessionId := sessionId s; isProcessing := isProcessing s; isRecording := isRecording s; wsOpen := wsOpen s; audioContext := audioContext s; mediaRecorder := mediaRecorder s; pendingAudioChunks := pendingAudioChunks s; pendingAudioMimeType := pendingAudioMimeType s; audioQueue := audioQueue s; isPlayingAudio := isPlayingAudio s; hasShownAudioIndicator := hasShownAudioIndicator s; activeRecordingTarget := activeRecordingTarget s; activeRecordingMode := v; navAwaitingResponse := navAwaitingResponse s; lastResponseText := lastResponseText s; navResponseTimeout := navResponseTimeout s; navSuppressRealtime := navSuppressRealtime s; awaitingRealtimeResponse := awaitingRealtimeResponse s; activeAudio := activeAudio s; messageInput := messageInput s; sendButtonDisabled := sendButtonDisabled s; uploadButtonDisabled := uploadButtonDisabled s; locationHash := locationHash s; browser := browser s; clock := clock s; timers := timers s; nextTimerId := nextTimerId s; blobs := blobs s; nextUrl := nextUrl s; liveAudio := liveAudio s; assistInFlight := assistInFlight s; pendingStarts := pendingStarts s; pendingUploads := pendingUploads s; log := log s |}.
Definition set_navAwaitingResponse (v : bool) (s : State) : State :=
  {| sessionId := sessionId s; isProcessing := isProcessing s; isRecording := isRecording s; wsOpen := wsOpen s; audioContext := audioContext s; mediaRecorder := mediaRecorder s; pendingAudioChunks := pendingAudioChunks s; pendingAudioMimeType := pendingAudioMimeType s; audioQueue := audioQueue s; isPlayingAudio := isPlayingAudio s; hasShownAudioIndicator := hasShownAudioIndicator s; activeRecordingTarget := activeRecordingTarget s; activeRecordingMode := activeRecordingMode s; navAwaitingResponse := v; lastResponseText := lastResponseText s; navResponseTimeout := navResponseTimeout s; navSuppressRealtime := navSuppressRealtime s; awaitingRealtimeResponse := awaitingRealtimeResponse s; activeAudio := activeAudio s; messageInput := messageInput s; sendButtonDisabled := sendButtonDisabled s; uploadButtonDisabled := uploadButtonDisabled s; locationHash := locationHash s; browser := browser s; clock := clock s; timers := timers s; nextTimerId := nextTimerId s; blobs := blobs s; nextUrl := nextUrl s; liveAudio := liveAudio s; assistInFlight := assistInFlight s; pendingStarts := pendingStarts s; pendingUploads := pendingUploads s; log := log s |}.
Definition set_lastResponseText (v : option string) (s : State) : State :=
  {| sessionId := sessionId s; isProcessing := isProcessing s; isRecording := isRecording s; wsOpen := wsOpen s; audioContext := audioContext s; mediaRecorder := mediaRecorder s; pendingAudioChunks := pendingAudioChunks s; pendingAudioMimeType := pendingAudioMimeType s; audioQueue := audioQueue s; isPlayingAudio := isPlayingAudio s; hasShownAudioIndicator := hasShownAudioIndicator s; activeRecordingTarget := activeRecordingTarget s; activeRecordingMode := activeRecordingMode s; navAwaitingResponse := navAwaitingResponse s; lastResponseText := v; navResponseTimeout := navResponseTimeout s; navSuppressRealtime := navSuppressRealtime s; awaitingRealtimeResponse := awaitingRealtimeResponse s; activeAudio := activeAudio s; messageInput := messageInput s; sendButtonDisabled := sendButtonDisabled s; uploadButtonDisabled := uploadButtonDisabled s; locationHash := locationHash s; browser := browser s; clock := clock s; timers := timers s; nextTimerId := nextTimerId s; blobs := blobs s; nextUrl := nextUrl s; liveAudio := liveAudio s; assistInFlight := assistInFlight s; pendingStarts := pendingStarts s; pendingUploads := pendingUploads s; log := log s |}.
Definition set_navResponseTimeout (v : option nat) (s : State) : State :=
  {| sessionId := sessionId s; isProcessing := isProcessing s; isRecording := isRecording s; wsOpen := wsOpen s; audioContext := audioContext s; mediaRecorder := mediaRecorder s; pendingAudioChunks := pendingAudioChunks s; pendingAudioMimeType := pendingAudioMimeType s; audioQueue := audioQueue s; isPlayingAudio := isPlayingAudio s; hasShownAudioIndicator := hasShownAudioIndicator s; activeRecordingTarget := activeRecordingTarget s; activeRecordingMode := activeRecordingMode s; navAwaitingResponse := navAwaitingResponse s; lastResponseText := lastResponseText s; navResponseTimeout := v; navSuppressRealtime := navSuppressRealtime s; awaitingRealtimeResponse := awaitingRealtimeResponse s; activeAudio := activeAudio s; messageInput := messageInput s; sendButtonDisabled := sendButtonDisabled s; uploadButtonDisabled := uploadButtonDisabled s; locationHash := locationHash s; browser := browser s; clock := clock s; timers := timers s; nextTimerId := nextTimerId s; blobs := blobs s; nextUrl := nextUrl s; liveAudio := liveAudio s; assistInFlight := assistInFlight s; pendingStarts := pendingStarts s; pendingUploads := pendingUploads s; log := log s |}.
Definition set_navSuppressRealtime (v : bool) (s : State) : State :=
  {| sessionId := sessionId s; isProcessing := isProcessing s; isRecording := isRecording s; wsOpen := wsOpen s; audioContext := audioContext s; mediaRecorder := mediaRecorder s; pendingAudioChunks := pendingAudioChunks s; pendingAudioMimeType := pendingAudioMimeType s; audioQueue := audioQueue s; isPlayingAudio := isPlayingAudio s; hasShownAudioIndicator := hasShownAudioIndicator s; activeRecordingTarget := activeRecordingTarget s; activeRecordingMode := activeRecordingMode s; navAwaitingResponse := navAwaitingResponse s; lastResponseText := lastResponseText s; navResponseTimeout := navResponseTimeout s; navSuppressRealtime := v; awaitingRealtimeResponse := awaitingRealtimeResponse s; activeAudio := activeAudio s; messageInput := messageInput s; sendButtonDisabled := sendButtonDisabled s; uploadButtonDisabled := uploadButtonDisabled s; locationHash := locationHash s; browser := browser s; clock := clock s; timers := timers s; nextTimerId := nextTimerId s; blobs := blobs s; nextUrl := nextUrl s; liveAudio := liveAudio s; assistInFlight := assistInFlight s; pendingStarts := pendingStarts s; pendingUploads := pendingUploads s; log := log s |}.
Definition set_awaitingRealtimeResponse (v : bool) (s : State) : State :=
  {| sessionId := sessionId s; isProcessing := isProcessing s; isRecording := isRecording s; wsOpen := wsOpen s; audioContext := audioContext s; mediaRecorder := mediaRecorder s; pendingAudioChunks := pendingAudioChunks s; pendingAudioMimeType := pendingAudioMimeType s; audioQueue := audioQueue s; isPlayingAudio := isPlayingAudio s; hasShownAudioIndicator := hasShownAudioIndicator s; activeRecordingTarget := activeRecordingTarget s; activeRecordingMode := activeRecordingMode s; navAwaitingResponse := navAwaitingResponse s; lastResponseText := lastResponseText s; navResponseTimeout := navResponseTimeout s; navSuppressRealtime := navSuppressRealtime s; awaitingRealtimeResponse := v; activeAudio := activeAudio s; messageInput := messageInput s; sendButtonDisabled := sendButtonDisabled s; uploadButtonDisabled := uploadButtonDisabled s; locationHash := locationHash s; browser := browser s; clock := clock s; timers := timers s; nextTimerId := nextTimerId s; blobs := blobs s; nextUrl := nextUrl s; liveAudio := liveAudio s; assistInFlight := assistInFlight s; pendingStarts := pendingStarts s; pendingUploads := pendingUploads s; log := log s |}.
Definition set_activeAudio (v : option nat) (s : State) : State :=
  {| sessionId := sessionId s; isProcessing := isProcessing s; isRecording := isRecording s; wsOpen := wsOpen s; audioContext := audioContext s; mediaRecorder := mediaRecorder s; pendingAudioChunks := pendingAudioChunks s; pendingAudioMimeType := pendingAudioMimeType s; audioQueue := audioQueue s; isPlayingAudio := isPlayingAudio s; hasShownAudioIndicator := hasShownAudioIndicator s; activeRecordingTarget := activeRecordingTarget s; activeRecordingMode := activeRecordingMode s; navAwaitingResponse := navAwaitingResponse s; lastResponseText := lastResponseText s; navResponseTimeout := navResponseTimeout s; navSuppressRealtime := navSuppressRealtime s; awaitingRealtimeResponse := awaitingRealtimeResponse s; activeAudio := v; messageInput := messageInput s; sendButtonDisabled := sendButtonDisabled s; uploadButtonDisabled := uploadButtonDisabled s; locationHash := locationHash s; browser := browser s; clock := clock s; timers := timers s; nextTimerId := nextTimerId s; blobs := blobs s; nextUrl := nextUrl s; liveAudio := liveAudio s; assistInFlight := assistInFlight s; pendingStarts := pendingStarts s; pendingUploads := pendingUploads s; log := log s |}.
Definition set_messageInput (v : string) (s : State) : State :=
  {| sessionId := sessionId s; isProcessing := isProcessing s; isRecording := isRecording s; wsOpen := wsOpen s; audioContext := audioContext s; mediaRecorder := mediaRecorder s; pendingAudioChunks := pendingAudioChunks s; pendingAudioMimeType := pendingAudioMimeType s; audioQueue := audioQueue s; isPlayingAudio := isPlayingAudio s; hasShownAudioIndicator := hasShownAudioIndicator s; activeRecordingTarget := activeRecordingTarget s; activeRecordingMode := activeRecordingMode s; navAwaitingResponse := navAwaitingResponse s; lastResponseText := lastResponseText s; navResponseTimeout := navResponseTimeout s; navSuppressRealtime := navSuppressRealtime s; awaitingRealtimeResponse := awaitingRealtimeResponse s; activeAudio := activeAudio s; messageInput := v; sendButtonDisabled := sendButtonDisabled s; uploadButtonDisabled := uploadButtonDisabled s; locationHash := locationHash s; browser := browser s; clock := clock s; timers := timers s; nextTimerId := nextTimerId s; blobs := blobs s; nextUrl := nextUrl s; liveAudio := liveAudio s; assistInFlight := assistInFlight s; pendingStarts := pendingStarts s; pendingUploads := pendingUploads s; log := log s |}.
Definition set_sendButtonDisabled (v : bool) (s : State) : State :=
  {| sessionId := sessionId s; isProcessing := isProcessing s; isRecording := isRecording s; wsOpen := wsOpen s; audioContext := audioContext s; mediaRecorder := mediaRecorder s; pendingAudioChunks := pendingAudioChunks s; pendingAudioMimeType := pendingAudioMimeType s; audioQueue := audioQueue s; isPlayingAudio := isPlayingAudio s; hasShownAudioIndicator := hasShownAudioIndicator s; activeRecordingTarget := activeRecordingTarget s; activeRecordingMode := activeRecordingMode s; navAwaitingResponse := navAwaitingResponse s; lastResponseText := lastResponseText s; navResponseTimeout := navResponseTimeout s; navSuppressRealtime := navSuppressRealtime s; awaitingRealtimeResponse := awaitingRealtimeResponse s; activeAudio := activeAudio s; messageInput := messageInput s; sendButtonDisabled := v; uploadButtonDisabled := uploadButtonDisabled s; locationHash := locationHash s; browser := browser s; clock := clock s; timers := timers s; nextTimerId := nextTimerId s; blobs := blobs s; nextUrl := nextUrl s; liveAudio := liveAudio s; assistInFlight := assistInFlight s; pendingStarts := pendingStarts s; pendingUploads := pendingUploads s; log := log s |}.
Definition set_uploadButtonDisabled (v : bool) (s : State) : State :=
  {| sessionId := sessionId s; isProcessing := isProcessing s; isRecording := isRecording s; wsOpen := wsOpen s; audioContext := audioContext s; mediaRecorder := mediaRecorder s; pendingAudioChunks := pendingAudioChunks s; pendingAudioMimeType := pendingAudioMimeType s; audioQueue := audioQueue s; isPlayingAudio := isPlayingAudio s; hasShownAudioIndicator := hasShownAudioIndicator s; activeRecordingTarget := activeRecordingTarget s; activeRecordingMode := activeRecordingMode s; navAwaitingResponse := navAwaitingResponse s; lastResponseText := lastResponseText s; navResponseTimeout := navResponseTimeout s; navSuppressRealtime := navSuppressRealtime s; awaitingRealtimeResponse := awaitingRealtimeResponse s; activeAudio := activeAudio s; messageInput := messageInput s; sendButtonDisabled := sendButtonDisabled s; uploadButtonDisabled := v; locationHash := locationHash s; browser := browser s; clock := clock s; timers := timers s; nextTimerId := nextTimerId s; blobs := blobs s; nextUrl := nextUrl s; liveAudio := liveAudio s; assistInFlight := assistInFlight s; pendingStarts := pendingStarts s; pendingUploads := pendingUploads s; log := log s |}.
Definition set_locationHash (v : string) (s : State) : State :=
  {| sessionId := sessionId s; isProcessing := isProcessing s; isRecording := isRecording s; wsOpen := wsOpen s; audioContext := audioContext s; mediaRecorder := mediaRecorder s; pendingAudioChunks := pendingAudioChunks s; pendingAudioMimeType := pendingAudioMimeType s; audioQueue := audioQueue s; isPlayingAudio := isPlayingAudio s; hasShownAudioIndicator := hasShownAudioIndicator s; activeRecordingTarget := activeRecordingTarget s; activeRecordingMode := activeRecordingMode s; navAwaitingResponse := navAwaitingResponse s; lastResponseText := lastResponseText s; navResponseTimeout := navResponseTimeout s; navSuppressRealtime := navSuppressRealtime s; awaitingRealtimeResponse := awaitingRealtimeResponse s; activeAudio := activeAudio s; messageInput := messageInput s; sendButtonDisabled := sendButtonDisabled s; uploadButtonDisabled := uploadButtonDisabled s; locationHash := v; browser := browser s; clock := clock s; timers := timers s; nextTimerId := nextTimerId s; blobs := blobs s; nextUrl := nextUrl s; liveAudio := liveAudio s; assistInFlight := assistInFlight s; pendingStarts := pendingStarts s; pendingUploads := pendingUploads s; log := log s |}.
Definition set_browser (v : Browser) (s : State) : State :=
  {| sessionId := sessionId s; isProcessing := isProcessing s; isRecording := isRecording s; wsOpen := wsOpen s; audioContext := audioContext s; mediaRecorder := mediaRecorder s; pendingAudioChunks := pendingAudioChunks s; pendingAudioMimeType := pendingAudioMimeType s; audioQueue := audioQueue s; isPlayingAudio := isPlayingAudio s; hasShownAudioIndicator := hasShownAudioIndicator s; activeRecordingTarget := activeRecordingTarget s; activeRecordingMode := activeRecordingMode s; navAwaitingResponse := navAwaitingResponse s; lastResponseText := lastResponseText s; navResponseTimeout := navResponseTimeout s; navSuppressRealtime := navSuppressRealtime s; awaitingRealtimeResponse := awaitingRealtimeResponse s; activeAudio := activeAudio s; messageInput := messageInput s; sendButtonDisabled := sendButtonDisabled s; uploadButtonDisabled := uploadButtonDisabled s; locationHash := locationHash s; browser := v; clock := clock s; timers := timers s; nextTimerId := nextTimerId s; blobs := blobs s; nextUrl := nextUrl s; liveAudio := liveAudio s; assistInFlight := assistInFlight s; pendingStarts := pendingStarts s; pendingUploads := pendingUploads s; log := log s |}.
Definition set_clock (v : Z) (s : State) : State :=
  {| sessionId := sessionId s; isProcessing := isProcessing s; isRecording := isRecording s; wsOpen := wsOpen s; audioContext := audioContext s; mediaRecorder := mediaRecorder s; pendingAudioChunks := pendingAudioChunks s; pendingAudioMimeType := pendingAudioMimeType s; audioQueue := audioQueue s; isPlayingAudio := isPlayingAudio s; hasShownAudioIndicator := hasShownAudioIndicator s; activeRecordingTarget := activeRecordingTarget s; activeRecordingMode := activeRecordingMode s; navAwaitingResponse := navAwaitingResponse s; lastResponseText := lastResponseText s; navResponseTimeout := navResponseTimeout s; navSuppressRealtime := navSuppressRealtime s; awaitingRealtimeResponse := awaitingRealtimeResponse s; activeAudio := activeAudio s; messageInput := messageInput s; sendButtonDisabled := sendButtonDisabled s; uploadButtonDisabled := uploadButtonDisabled s; locationHash := locationHash s; browser := browser s; clock := v; timers := timers s; nextTimerId := nextTimerId s; blobs := blobs s; nextUrl := nextUrl s; liveAudio := liveAudio s; assistInFlight := assistInFlight s; pendingStarts := pendingStarts s; pendingUploads := pendingUploads s; log := log s |}.
Definition set_timers (v : list (nat * Z)) (s : State) : State :=
  {| sessionId := sessionId s; isProcessing := isProcessing s; isRecording := isRecording s; wsOpen := wsOpen s; audioContext := audioContext s; mediaRecorder := mediaRecorder s; pendingAudioChunks := pendingAudioChunks s; pendingAudioMimeType := pendingAudioMimeType s; audioQueue := audioQueue s; isPlayingAudio := isPlayingAudio s; hasShownAudioIndicator := hasShownAudioIndicator s; activeRecordingTarget := activeRecordingTarget s; activeRecordingMode := activeRecordingMode s; navAwaitingResponse := navAwaitingResponse s; lastResponseText := lastResponseText s; navResponseTimeout := navResponseTimeout s; navSuppressRealtime := navSuppressRealtime s; awaitingRealtimeResponse := awaitingRealtimeResponse s; activeAudio := activeAudio s; messageInput := messageInput s; sendButtonDisabled := sendButtonDisabled s; uploadButtonDisabled := uploadButtonDisabled s; locationHash := locationHash s; browser := browser s; clock := clock s; timers := v; nextTimerId := nextTimerId s; blobs := blobs s; nextUrl := nextUrl s; liveAudio := liveAudio s; assistInFlight := assistInFlight s; pendingStarts := pendingStarts s; pendingUploads := pendingUploads s; log := log s |}.
Definition set_nextTimerId (v : nat) (s : State) : State :=
  {| sessionId := sessionId s; isProcessing := isProcessing s; isRecording := isRecording s; wsOpen := wsOpen s; audioContext := audioContext s; mediaRecorder := mediaRecorder s; pendingAudioChunks := pendingAudioChunks s; pendingAudioMimeType := pendingAudioMimeType s; audioQueue := audioQueue s; isPlayingAudio := isPlayingAudio s; hasShownAudioIndicator := hasShownAudioIndicator s; activeRecordingTarget := activeRecordingTarget s; activeRecordingMode := activeRecordingMode s; navAwaitingResponse := navAwaitingResponse s; lastResponseText := lastResponseText s; navResponseTimeout := navResponseTimeout s; navSuppressRealtime := navSuppressRealtime s; awaitingRealtimeResponse := awaitingRealtimeResponse s; activeAudio := activeAudio s; messageInput := messageInput s; sendButtonDisabled := sendButtonDisabled s; uploadButtonDisabled := uploadButtonDisabled s; locationHash := locationHash s; browser := browser s; clock := clock s; timers := timers s; nextTimerId := v; blobs := blobs s; nextUrl := nextUrl s; liveAudio := liveAudio s; assistInFlight := assistInFlight s; pendingStarts := pendingStarts s; pendingUploads := pendingUploads s; log := log s |}.
Definition set_blobs (v : list (nat * Uint8Array)) (s : State) : State :=
  {| sessionId := sessionId s; isProcessing := isProcessing s; isRecording := isRecording s; wsOpen := wsOpen s; audioContext := audioContext s; mediaRecorder := mediaRecorder s; pendingAudioChunks := pendingAudioChunks s; pendingAudioMimeType := pendingAudioMimeType s; audioQueue := audioQueue s; isPlayingAudio := isPlayingAudio s; hasShownAudioIndicator := hasShownAudioIndicator s; activeRecordingTarget := activeRecordingTarget s; activeRecordingMode := activeRecordingMode s; navAwaitingResponse := navAwaitingResponse s; lastResponseText := lastResponseText s; navResponseTimeout := navResponseTimeout s; navSuppressRealtime := navSuppressRealtime s; awaitingRealtimeResponse := awaitingRealtimeResponse s; activeAudio := activeAudio s; messageInput := messageInput s; sendButtonDisabled := sendButtonDisabled s; uploadButtonDisabled := uploadButtonDisabled s; locationHash := locationHash s; browser := browser s; clock := clock s; timers := timers s; nextTimerId := nextTimerId s; blobs := v; nextUrl := nextUrl s; liveAudio := liveAudio s; assistInFlight := assistInFlight s; pendingStarts := pendingStarts s; pendingUploads := pendingUploads s; log := log s |}.
Definition set_nextUrl (v : nat) (s : State) : State :=
  {| sessionId := sessionId s; isProcessing := isProcessing s; isRecording := isRecording s; wsOpen := wsOpen s; audioContext := audioContext s; mediaRecorder := mediaRecorder s; pendingAudioChunks := pendingAudioChunks s; pendingAudioMimeType := pendingAudioMimeType s; audioQueue := audioQueue s; isPlayingAudio := isPlayingAudio s; hasShownAudioIndicator := hasShownAudioIndicator s; activeRecordingTarget := activeRecordingTarget s; activeRecordingMode := activeRecordingMode s; navAwaitingResponse := navAwaitingResponse s; lastResponseText := lastResponseText s; navResponseTimeout := navResponseTimeout s; navSuppressRealtime := navSuppressRealtime s; awaitingRealtimeResponse := awaitingRealtimeResponse s; activeAudio := activeAudio s; messageInput := messageInput s; sendButtonDisabled := sendButtonDisabled s; uploadButtonDisabled := uploadButtonDisabled s; locationHash := locationHash s; browser := browser s; clock := clock s; timers := timers s; nextTimerId := nextTimerId s; blobs := blobs s; nextUrl := v; liveAudio := liveAudio s; assistInFlight := assistInFlight s; pendingStarts := pendingStarts s; pendingUploads := pendingUploads s; log := log s |}.
Definition set_liveAudio (v : list nat) (s : State) : State :=
  {| sessionId := sessionId s; isProcessing := isProcessing s; isRecording := isRecording s; wsOpen := wsOpen s; audioContext := audioContext s; mediaRecorder := mediaRecorder s; pendingAudioChunks := pendingAudioChunks s; pendingAudioMimeType := pendingAudioMimeType s; audioQueue := audioQueue s; isPlayingAudio := isPlayingAudio s; hasShownAudioIndicator := hasShownAudioIndicator s; activeRecordingTarget := activeRecordingTarget s; activeRecordingMode := activeRecordingMode s; navAwaitingResponse := navAwaitingResponse s; lastResponseText := lastResponseText s; navResponseTimeout := navResponseTimeout s; navSuppressRealtime := navSuppressRealtime s; awaitingRealtimeResponse := awaitingRealtimeResponse s; activeAudio := activeAudio s; messageInput := messageInput s; sendButtonDisabled := sendButtonDisabled s; uploadButtonDisabled := uploadButtonDisabled s; locationHash := locationHash s; browser := browser s; clock := clock s; timers := timers s; nextTimerId := nextTimerId s; blobs := blobs s; nextUrl := nextUrl s; liveAudio := v; assistInFlight := assistInFlight s; pendingStarts := pendingStarts s; pendingUploads := pendingUploads s; log := log s |}.
Definition set_assistInFlight (v : nat) (s : State) : State :=
  {| sessionId := sessionId s; isProcessing := isProcessing s; isRecording := isRecording s; wsOpen := wsOpen s; audioContext := audioContext s; mediaRecorder := mediaRecorder s; pendingAudioChunks := pendingAudioChunks s; pendingAudioMimeType := pendingAudioMimeType s; audioQueue := audioQueue s; isPlayingAudio := isPlayingAudio s; hasShownAudioIndicator := hasShownAudioIndicator s; activeRecordingTarget := activeRecordingTarget s; activeRecordingMode := activeRecordingMode s; navAwaitingResponse := navAwaitingResponse s; lastResponseText := lastResponseText s; navResponseTimeout := navResponseTimeout s; navSuppressRealtime := navSuppressRealtime s; awaitingRealtimeResponse := awaitingRealtimeResponse s; activeAudio := activeAudio s; messageInput := messageInput s; sendButtonDisabled := sendButtonDisabled s; uploadButtonDisabled := uploadButtonDisabled s; locationHash := locationHash s; browser := browser s; clock := clock s; timers := timers s; nextTimerId := nextTimerId s; blobs := blobs s; nextUrl := nextUrl s; liveAudio := liveAudio s; assistInFlight := v; pendingStarts := pendingStarts s; pendingUploads := pendingUploads s; log := log s |}.
Definition set_pendingStarts (v : list (RecordingMode * Button)) (s : State) : State :=
  {| sessionId := sessionId s; isProcessing := isProcessing s; isRecording := isRecording s; wsOpen := wsOpen s; audioContext := audioContext s; mediaRecorder := mediaRecorder s; pendingAudioChunks := pendingAudioChunks s; pendingAudioMimeType := pendingAudioMimeType s; audioQueue := audioQueue s; isPlayingAudio := isPlayingAudio s; hasShownAudioIndicator := hasShownAudioIndicator s; activeRecordingTarget := activeRecordingTarget s; activeRecordingMode := activeRecordingMode s; navAwaitingResponse := navAwaitingResponse s; lastResponseText := lastResponseText s; navResponseTimeout := navResponseTimeout s; navSuppressRealtime := navSuppressRealtime s; awaitingRealtimeResponse := awaitingRealtimeResponse s; activeAudio := activeAudio s; messageInput := messageInput s; sendButtonDisabled := sendButtonDisabled s; uploadButtonDisabled := uploadButtonDisabled s; locationHash := locationHash s; browser := browser s; clock := clock s; timers := timers s; nextTimerId := nextTimerId s; blobs := blobs s; nextUrl := nextUrl s; liveAudio := liveAudio s; assistInFlight := assistInFlight s; pendingStarts := v; pendingUploads := pendingUploads s; log := log s |}.
Definition set_pendingUploads (v : list string) (s : State) : State :=
  {| sessionId := sessionId s; isProcessing := isProcessing s; isRecording := isRecording s; wsOpen := wsOpen s; audioContext := audioContext s; mediaRecorder := mediaRecorder s; pendingAudioChunks := pendingAudioChunks s; pendingAudioMimeType := pendingAudioMimeType s; audioQueue := audioQueue s; isPlayingAudio := isPlayingAudio s; hasShownAudioIndicator := hasShownAudioIndicator s; activeRecordingTarget := activeRecordingTarget s; activeRecordingMode := activeRecordingMode s; navAwaitingResponse := navAwaitingResponse s; lastResponseText := lastResponseText s; navResponseTimeout := navResponseTimeout s; navSuppressRealtime := navSuppressRealtime s; awaitingRealtimeResponse := awaitingRealtimeResponse s; activeAudio := activeAudio s; messageInput := messageInput s; sendButtonDisabled := sendButtonDisabled s; uploadButtonDisabled := uploadButtonDisabled s; locationHash := locationHash s; browser := browser s; clock := clock s; timers := timers s; nextTimerId := nextTimerId s; blobs := blobs s; nextUrl := nextUrl s; liveAudio := liveAudio s; assistInFlight := assistInFlight s; pendingStarts := pendingStarts s; pendingUploads := v; log := log s |}.
Definition set_log (v : list Effect) (s : State) : State :=
  {| sessionId := sessionId s; isProcessing := isProcessing s; isRecording := isRecording s; wsOpen := wsOpen s; audioContext := audioContext s; mediaRecorder := mediaRecorder s; pendingAudioChunks := pendingAudioChunks s; pendingAudioMimeType := pendingAudioMimeType s; audioQueue := audioQueue s; isPlayingAudio := isPlayingAudio s; hasShownAudioIndicator := hasShownAudioIndicator s; activeRecordingTarget := activeRecordingTarget s; activeRecordingMode := activeRecordingMode s; navAwaitingResponse := navAwaitingResponse s; lastResponseText := lastResponseText s; navResponseTimeout := navResponseTimeout s; navSuppressRealtime := navSuppressRealtime s; awaitingRealtimeResponse := awaitingRealtimeResponse s; activeAudio := activeAudio s; messageInput := messageInput s; sendButtonDisabled := sendButtonDisabled s; uploadButtonDisabled := uploadButtonDisabled s; locationHash := locationHash s; browser := browser s; clock := clock s; timers := timers s; nextTimerId := nextTimerId s; blobs := blobs s; nextUrl := nextUrl s; liveAudio := liveAudio s; assistInFlight := assistInFlight s; pendingStarts := pendingStarts s; pendingUploads := pendingUploads s; log := v |}.

Definition initialState (b : Browser) : State :=
  {| sessionId := None; isProcessing := false; isRecording := false;
     wsOpen := false; audioContext := false; mediaRecorder := false;
     pendingAudioChunks := []; pendingAudioMimeType := None; audioQueue := [];
     isPlayingAudio := false; hasShownAudioIndicator := false;
     activeRecordingTarget := None; activeRecordingMode := None;
     navAwaitingResponse := false; lastResponseText := None;
     navResponseTimeout := None; navSuppressRealtime := false;
     awaitingRealtimeResponse := false; activeAudio := None;
     messageInput := ""; sendButtonDisabled := false;
     uploadButtonDisabled := false; locationHash := ""; browser := b;
     clock := 0; timers := []; nextTimerId := 0%nat; blobs := [];
     nextUrl := 0%nat; liveAudio := []; assistInFlight := 0%nat;
     pendingStarts := []; pendingUploads := []; log := [] |}.

(** ** Inbound envelopes, HTTP answers and events *)

Inductive LiveMessage : Type :=
| MsgConnected
| MsgText (content : string)
| MsgAudio (audio mime_type : option string)
| MsgTranscription (content : string)
| MsgNavigate (message target_route : option string)
| MsgTurnComplete
| MsgError (content : string)
| MsgOther.

Inductive AssistAction : Type :=
| ActNavigate (value : option string)
| ActOpenChat
| ActOpenUpload
| ActFocusChatInput
| ActInsertText (value : option string)
| ActSendText
| ActShowGuide
| ActHighlight (target : option string)
| ActUnknown.

Record AssistData : Type := mkAssistData {
  a_message : option string;
  a_actions : option (list AssistAction);
  a_handled : bool
}.

(** What [fetch] and [response.json()] give: [AssistFailed] when either
    rejects, else the [ok] flag and the body. *)
Inductive AssistResult : Type :=
| AssistFailed
| AssistResp (ok : bool) (data : AssistData).

Record QueryData : Type := mkQueryData {
  q_content : option string;
  q_tool_used : option string;
  q_target_route : option string;
  q_session_id : option string
}.

(** [QueryResp ok None]: the body is not JSON. *)
Inductive QueryResult : Type :=
| QueryFailed
| QueryResp (ok : bool) (data : option QueryData).

Inductive UploadResult : Type :=
| UploadFailed (message : string)
| UploadResp (ok : bool) (detail : option string).

Inductive Event : Type :=
| EvSocketOpen
| EvSocketError
| EvSocketClose
| EvMessage (m : LiveMessage)
| EvTimer (id : nat)
| EvMicClick (mode : RecordingMode)
| EvMediaGranted
| EvMediaDenied
| EvAudioProcess (inputData : list Sample)
| EvAssistResponse (r : AssistResult)
| EvInput (value : string)
| EvSend
| EvQueryResponse (r : QueryResult)
| EvFileChosen (file : option string)
| EvUploadResponse (r : UploadResult)
| EvAudioEnded (audio : nat)
| EvAudioError (audio : nat)
| EvPlayRejected (audio : nat)
| EvSpeechEnd
| EvNavClick (page : string).

(** What [JSON.parse] returns. *)
#[local] Unset Elimination Schemes.
Inductive Json : Type :=
| JNull
| JBool (b : bool)
| JNumber (literal : string)
| JString (s : string)
| JArray (items : list Json)
| JObject (members : list (string * Json)).
#[local] Set Elimination Schemes.

(** ** Strings *)

(** The length in bytes of a white space character of [String.prototype.trim]
    at the head of the bytes, 0 when there is none; [back] reads the bytes
    in reverse, for the end of the string. *)
Definition ws_width (back : bool) (l : list Z) : nat :=
  let three (a b c : Z) : bool :=
    ((a =? 225) && (b =? 154) && (c =? 128))
    || ((a =? 226) && (b =? 128)
        && (((128 <=? c) && (c <=? 138)) || (c =? 168) || (c =? 169) || (c =? 175)))
    || ((a =? 226) && (b =? 129) && (c =? 159))
    || ((a =? 227) && (b =? 128) && (c =? 128))
    || ((a =? 239) && (b =? 187) && (c =? 191)) in
  match l with
  | a :: r =>
      if ((9 <=? a) && (a <=? 13)) || (a =? 32) then 1%nat
      else match r with
           | b :: r' =>
               if (if back then (b =? 194) && (a =? 160) else (a =? 194) && (b =? 160))
               then 2%nat
               else match r' with
                    | c :: _ => if (if back then three c b a else three a b c)
                                then 3%nat else 0%nat
                    | [] => 0%nat
                    end
           | [] => 0%nat
           end
  | [] => 0%nat
  end.

Fixpoint strip_ws (fuel : nat) (back : bool) (l : list Z) : list Z :=
  match fuel with
  | O => l
  | S k =>
      match ws_width back l with
      | O => l
      | n => strip_ws k back (skipn n l)
      end
  end.

Definition trim (s : string) : string :=
  let l := codes s in
  let l := strip_ws (List.length l) false l in
  of_codes (rev (strip_ws (List.length l) true (rev l))).

Definition startsWith (c : Z) (s : string) : bool :=
  match codes s with
  | a :: _ => a =? c
  | [] => false
  end.

Definition endsWith (c : Z) (s : string) : bool :=
  match rev (codes s) with
  | a :: _ => a =? c
  | [] => false
  end.

(** [/[\u0600-\u06FF]/.test(text)]: in UTF-8 these code points are the
    two-byte sequences whose first byte is 0xD8 to 0xDB. *)
Definition isArabicText (text : string) : bool :=
  existsb (fun c => (216 <=? c) && (c <=? 219)) (codes text).

(** [s.replace('#', '')]: the first [#] is removed. *)
Fixpoint removeFirstHash (s : string) : string :=
  match s with
  | EmptyString => EmptyString
  | String c r => if code c =? 35 then r else String c (removeFirstHash r)
  end.

Definition is_nil (A : Type) (l : list A) : bool :=
  match l with
  | [] => true
  | _ => false
  end.

Definition is_empty (s : string) : bool :=
  match s with
  | EmptyString => true
  | _ => false
  end.

(** [window.location.hash || '#dashboard'] *)
Definition currentPage (hash : string) : string :=
  if is_empty hash then "#dashboard" else hash.

(** ** Exceptions: the body of a [try] either ends or throws, with the state
    it reached *)

Inductive Outcome : Type :=
| Normal (s : State)
| Thrown (s : State).

Definition andThen (o : Outcome) (k : State -> Outcome) : Outcome :=
  match o with
  | Normal s => k s
  | Thrown s => Thrown s
  end.

Notation "'do' s <- o ;; k" := (andThen o (fun s => k))
  (at level 10, s name, o at level 100, k at level 200).

(** [try { body } catch { handler } finally { finalizer }] *)
Definition tryCatchFinally (body : State -> Outcome)
  (handler finalizer : State -> State) (s : State) : State :=
  finalizer (match body s with
             | Normal s' => s'
             | Thrown s' => handler s'
             end).

(** ** The handlers *)

Definition emit (e : Effect) (s : State) : State := set_log (log s ++ [e]) s.

Definition addMessage (text : string) (type : Sender) (toolUsed : option string)
  (isError : bool) (s : State) : State :=
  emit (AddMessage text type toolUsed isError) s.

Definition updateConnectionStatus (status : ConnStatus) (text : string)
  (s : State) : State :=
  emit (UpdateConnectionStatus status text) s.

(** [window.location.hash = page] and the rendering of the page. *)
Definition navigateTo (page : string) (s : State) : State :=
  emit (NavigateTo page)
    (set_locationHash (if is_empty page then "" else String "#" page) s).

Definition setNavResponding (isResponding : bool) (s : State) : State :=
  if hasNavMicButton (browser s)
  then emit (NavRespondingClass (isResponding && navAwaitingResponse s)) s
  else s.

(** [setTimeout(callback, delay)] for the fallback callback: the new timer
    gets a fresh, positive identifier. *)
Definition setTimeout (delay : Z) (s : State) : nat * State :=
  let id := S (nextTimerId s) in
  (id, set_nextTimerId id (set_timers (timers s ++ [(id, clock s + delay)]) s)).

Definition clearTimeout (id : nat) (s : State) : State :=
  set_timers (filter (fun t => negb (Nat.eqb (fst t) id)) (timers s)) s.

Definition clearNavSpeechFallback (s : State) : State :=
  match navResponseTimeout s with
  | Some (S _ as id) => set_navResponseTimeout None (clearTimeout id s)
  | _ => s
  end.

Definition speakTextResponse (text : option string) (s : State) : State :=
  match text with
  | Some (String _ _ as t) =>
      if hasSpeechSynthesis (browser s) then
        let s := emit SpeechCancel s in
        let s := updateConnectionStatus Connected "Speaking..." s in
        emit (SpeechSpeak t (if isArabicText t then ArSA else EnUS)) s
      else addMessage "Audio playback not supported in this browser." Bot None false s
  | _ => s
  end.

Definition scheduleNavSpeechFallback (s : State) : State :=
  if negb (navAwaitingResponse s) || negb (truthy (lastResponseText s))
     || navSuppressRealtime s
  then s
  else
    let s := clearNavSpeechFallback s in
    let (id, s) := setTimeout 2500 s in
    set_navResponseTimeout (Some id) s.

(** The callback [scheduleNavSpeechFallback] hands to [setTimeout]. *)
Definition navSpeechFallbackCallback (s : State) : State :=
  if navAwaitingResponse s && is_nil (pendingAudioChunks s)
     && truthy (lastResponseText s)
  then
    let s := speakTextResponse (lastResponseText s) s in
    let s := set_lastResponseText None s in
    set_navAwaitingResponse false s
  else s.

Definition resetNavAssistState (s : State) : State :=
  clearNavSpeechFallback (set_navSuppressRealtime false s).

Definition resetAudioPlaybackState (s : State) : State :=
  let s := set_pendingAudioChunks [] s in
  let s := set_pendingAudioMimeType None s in
  let s := set_audioQueue [] s in
  let s := set_isPlayingAudio false s in
  let s := set_hasShownAudioIndicator false s in
  match activeAudio s with
  | Some a =>
      let s := emit (AudioPause a) s in
      let s := set_liveAudio (filter (fun x => negb (Nat.eqb x a)) (liveAudio s)) s in
      set_activeAudio None s
  | None => s
  end.

Definition playNextAudio (s : State) : State :=
  match audioQueue s with
  | [] =>
      let s := set_isPlayingAudio false s in
      let s := set_hasShownAudioIndicator false s in
      let s := set_activeAudio None s in
      updateConnectionStatus Connected "Ready" s
  | audioUrl :: rest =>
      let s := set_isPlayingAudio true s in
      let s := set_audioQueue rest s in
      let s := set_activeAudio (Some audioUrl) s in
      let s := set_liveAudio (liveAudio s ++ [audioUrl]) s in
      emit (AudioPlay audioUrl) s
  end.

Definition revokeObjectURL (url : nat) (s : State) : State :=
  emit (RevokeObjectURL url)
    (set_blobs (filter (fun b => negb (Nat.eqb (fst b) url)) (blobs s)) s).

(** [audio.onended] and [audio.onerror] of the element made for [audio]. *)
Definition audioFinished (audio : nat) (s : State) : State :=
  let s := set_liveAudio (filter (fun x => negb (Nat.eqb x audio)) (liveAudio s)) s in
  let s := revokeObjectURL audio s in
  let s := match activeAudio s with
           | Some a => if Nat.eqb a audio then set_activeAudio None s else s
           | None => s
           end in
  playNextAudio s.

Definition bufferAudioChunk (base64Audio mimeType : option string) (s : State)
  : State :=
  match base64Audio with
  | Some (String _ _ as b) =>
      match atob b with
      | None => emit (ConsoleError "Error buffering audio response:") s
      | Some [] => s
      | Some bytes =>
          let s := set_pendingAudioChunks (pendingAudioChunks s ++ [bytes]) s in
          set_pendingAudioMimeType
            (js_or mimeType
               (js_or (pendingAudioMimeType s) (Some "audio/pcm;rate=24000"))) s
      end
  | _ => s
  end.

Definition finalizeAudioResponse (s : State) : State :=
  match pendingAudioChunks s with
  | [] => s
  | chunks =>
      let pcmBytes := concatUint8Arrays chunks in
      let sampleRate :=
        rate_or_default (getSampleRateFromMime (pendingAudioMimeType s)) in
      let wavBlob := createWavBlob pcmBytes sampleRate in
      let audioUrl := nextUrl s in
      let s := set_nextUrl (S audioUrl) (set_blobs ((audioUrl, wavBlob) :: blobs s) s) in
      let s := set_audioQueue (audioQueue s ++ [audioUrl]) s in
      let s := set_pendingAudioChunks [] s in
      let s := set_pendingAudioMimeType None s in
      let s := if hasShownAudioIndicator s then s
               else set_hasShownAudioIndicator true
                      (addMessage "🔊 Playing audio response..." Bot None false s) in
      if isPlayingAudio s then s else playNextAudio s
  end.

(** ** The capture path *)

(** [startRecording] up to its [await]: the guard, the two resets and the
    request for the microphone. *)
Definition startRecording (mode : RecordingMode) (buttonEl : Button) (s : State)
  : State :=
  if isRecording s then s
  else
    let s := resetNavAssistState s in
    let s := resetAudioPlaybackState s in
    emit GetUserMedia (set_pendingStarts (pendingStarts s ++ [(mode, buttonEl)]) s).

(** [startRecording] after [getUserMedia] has given the stream. *)
Definition startRecording_granted (mode : RecordingMode) (buttonEl : Button)
  (s : State) : State :=
  let s := set_audioContext true s in
  let s := set_mediaRecorder true s in
  let s := set_isRecording true s in
  let s := set_activeRecordingMode (Some mode) s in
  let s := set_activeRecordingTarget (Some buttonEl) s in
  let s := emit (RecordingClass buttonEl true) s in
  let s := set_navAwaitingResponse false s in
  let s := set_awaitingRealtimeResponse false s in
  let s := setNavResponding false s in
  let s := updateConnectionStatus Recording "Listening..." s in
  set_hasShownAudioIndicator false s.

(** The [catch] of [startRecording]. *)
Definition startRecording_denied (s : State) : State :=
  addMessage "Could not access microphone. Please check permissions." Bot None true
    (emit (ConsoleError "Error starting recording:") s).

(** [processor.onaudioprocess] *)
Definition onaudioprocess (inputData : list Sample) (s : State) : State :=
  if negb (isRecording s) || negb (wsOpen s) then s
  else emit (WsSend (OutAudio (encodeCapture inputData) "audio/pcm;rate=16000")) s.

Definition stopRecording (s : State) : State :=
  let s := set_isRecording false s in
  let s := if mediaRecorder s then emit CaptureReleased s else s in
  let s := if audioContext s
           then set_audioContext false (emit AudioContextClosed s) else s in
  let s := if wsOpen s then emit (WsSend OutAudioStreamEnd) s else s in
  let s := match activeRecordingTarget s with
           | Some b => emit (RecordingClass b false) s
           | None => s
           end in
  let s := match activeRecordingMode s with
           | Some ModeNav => set_navAwaitingResponse true s
           | _ => s
           end in
  let s := set_awaitingRealtimeResponse true s in
  let s := set_activeRecordingMode None s in
  let s := set_activeRecordingTarget None s in
  updateConnectionStatus Connected "Processing..." s.

Definition toggleRecording (mode : RecordingMode) (buttonEl : Button) (s : State)
  : State :=
  if isRecording s then stopRecording s else startRecording mode buttonEl s.

(** ** The query and upload paths *)

(** [handleSendMessage] up to its [await]. *)
Definition handleSendMessage (s : State) : State :=
  let message := trim (messageInput s) in
  if is_empty message || isProcessing s then s
  else
    let s := addMessage message User None false s in
    let s := set_messageInput "" s in
    let s := emit AddLoadingMessage s in
    let s := set_isProcessing true s in
    let s := set_sendButtonDisabled true s in
    emit (Fetch (FetchQuery message (sessionId s) (currentPage (locationHash s)))) s.

(** The rest of the [try] of [handleSendMessage], once [fetch] has settled.
    [addMessage] raises on a content that is not a string. *)
Definition handleSendMessage_body (r : QueryResult) (s : State) : Outcome :=
  match r with
  | QueryFailed => Thrown s
  | QueryResp false _ => Thrown s
  | QueryResp true None => Thrown s
  | QueryResp true (Some data) =>
      let s := if truthy (q_session_id data)
               then set_sessionId (q_session_id data) s else s in
      let s := emit RemoveLoadingMessage s in
      do s <- match q_content data with
              | Some text => Normal (addMessage text Bot (q_tool_used data) false s)
              | None => Thrown s
              end ;;
      match q_target_route data with
      | Some (String _ _ as route) => Normal (emit (NavigateLater (removeFirstHash route)) s)
      | _ => Normal s
      end
  end.

Definition handleSendMessage_catch (s : State) : State :=
  let s := emit (ConsoleError "Error:") s in
  let s := emit RemoveLoadingMessage s in
  addMessage "Sorry, I encountered an error processing your request. Please try again."
    Bot None true s.

Definition handleSendMessage_finally (s : State) : State :=
  let s := set_isProcessing false s in
  let s := set_sendButtonDisabled false s in
  emit FocusMessageInput s.

Definition handleSendMessage_resume (r : QueryResult) (s : State) : State :=
  tryCatchFinally (handleSendMessage_body r)
    handleSendMessage_catch handleSendMessage_finally s.

(** [handleFileUpload] up to its [await]. *)
Definition handleFileUpload (file : option string) (s : State) : State :=
  match file with
  | None => s
  | Some name =>
      let s := emit (UploadStatus ("Uploading " ++ name ++ "...")%string "upload-status") s in
      let s := set_uploadButtonDisabled true s in
      emit (Fetch (FetchUpload name)) (set_pendingUploads (pendingUploads s ++ [name]) s)
  end.

(** The rest of [handleFileUpload]: [Thrown] carries no message, the
    [catch] reads it from the answer. *)
Definition handleFileUpload_resume (name : string) (r : UploadResult) (s : State)
  : State :=
  let failed (message : string) (s : State) : State :=
    let s := emit (ConsoleError "Upload error:") s in
    emit (UploadStatus ("✗ Error: " ++ message)%string "upload-status error") s in
  tryCatchFinally
    (fun s =>
       match r with
       | UploadResp true _ =>
           let s := emit (UploadStatus ("✓ " ++ name ++ " ingested!")%string
                            "upload-status success") s in
           Normal (addMessage
             ("I've processed the file " ++ String (chr 34) name ++ String (chr 34)
                ". You can now ask me questions about its content!")%string
             Bot None false s)
       | _ => Thrown s
       end)
    (fun s =>
       match r with
       | UploadFailed message => failed message s
       | UploadResp _ detail =>
           failed (match detail with
                   | Some (String _ _ as d) => d
                   | _ => "Upload failed"
                   end) s
       end)
    (fun s => set_uploadButtonDisabled false s)
    s.

(** ** The assist overlay *)

Definition openChatView (s : State) : State :=
  let s := if String.eqb (locationHash s) "#chat" then s else navigateTo "chat" s in
  emit OpenChatView s.

Definition showNavGuide (s : State) : State :=
  addMessage
    (String.concat (String (chr 10) "")
       ["Here is a quick guide to the site:";
        "• Use Chat to ask questions or learn from uploaded files.";
        "• Click Upload in Chat to add Excel, text, or PDF files.";
        ("• Ask: " ++ String (chr 34) "Summarize the academy rules" ++ String (chr 34) " or "
          ++ String (chr 34) "Show me player stats." ++ String (chr 34) "")%string;
        "• Use the sidebar to open Dashboard, Players, Stats, or Settings.";
        ("• Say: " ++ String (chr 34) "Upload a file" ++ String (chr 34) ", "
          ++ String (chr 34) "Open chat" ++ String (chr 34) ", or "
          ++ String (chr 34) "Type my question" ++ String (chr 34) ".")%string])
    Bot (Some "navigation") false s.

Definition executeAssistAction (action : AssistAction) (s : State) : State :=
  match action with
  | ActNavigate value =>
      let target := removeFirstHash (match value with Some v => v | None => "" end) in
      if is_empty target then s else navigateTo target s
  | ActOpenChat => openChatView s
  | ActOpenUpload =>
      if hasUploadButton (browser s) then emit UploadButtonClick s else s
  | ActFocusChatInput => emit FocusMessageInput s
  | ActInsertText value =>
      match value with
      | Some v => emit FocusMessageInput (set_messageInput v s)
      | None => s
      end
  | ActSendText => handleSendMessage s
  | ActShowGuide => showNavGuide s
  | ActHighlight target =>
      match target with
      | Some (String _ _ as t) => emit (Highlight t) s
      | _ => s
      end
  | ActUnknown => s
  end.

Definition executeAssistActions (actions : list AssistAction) (s : State) : State :=
  fold_left (fun s action => executeAssistAction action s) actions s.

(** [handleNavAssist] up to its [await]. *)
Definition handleNavAssist (transcript : string) (s : State) : State :=
  if negb (navAwaitingResponse s) || is_empty transcript then s
  else
    emit (Fetch (FetchAssist transcript (currentPage (locationHash s))))
      (set_assistInFlight (S (assistInFlight s)) s).

(** The rest of [handleNavAssist], once [fetch] has settled. *)
Definition handleNavAssist_resume (r : AssistResult) (s : State) : State :=
  match r with
  | AssistResp true data =>
      let s := match a_message data with
               | Some (String _ _ as m) =>
                   set_lastResponseText (Some m)
                     (addMessage m Bot (Some "navigation") false s)
               | _ => s
               end in
      let s := match a_actions data with
               | Some actions => executeAssistActions actions s
               | None => s
               end in
      if a_handled data then
        let s := set_navSuppressRealtime true s in
        let s := clearNavSpeechFallback s in
        let s := speakTextResponse (lastResponseText s) s in
        let s := set_lastResponseText None s in
        let s := set_navAwaitingResponse false s in
        set_awaitingRealtimeResponse false s
      else s
  | _ => emit (ConsoleError "Nav assist error:") s
  end.

(** ** The response arbitrator *)

Section Arbitrator.

(** [JSON.parse], [None] where it raises. *)
Variable JSON_parse : string -> option Json.

Fixpoint member (name : string) (members : list (string * Json)) : option Json :=
  match members with
  | [] => None
  | (k, v) :: r => if String.eqb k name then Some v else member name r
  end.

(** [typeof parsed[name] === 'string'] *)
Definition hasStringMember (name : string) (parsed : Json) : bool :=
  match parsed with
  | JObject members =>
      match member name members with
      | Some (JString _) => true
      | _ => false
      end
  | _ => false
  end.

Definition isNavigationPayload (text : string) : bool :=
  if is_empty text then false
  else
    let trimmed := trim text in
    if negb (startsWith 123 trimmed) || negb (endsWith 125 trimmed) then false
    else
      match JSON_parse trimmed with
      | Some parsed =>
          hasStringMember "page" parsed || hasStringMember "destination" parsed
      | None => false
      end.

Definition handleLiveMessage (message : LiveMessage) (s : State) : State :=
  match message with
  | MsgConnected => addMessage "Connected to OpenAI Realtime" Bot None false s
  | MsgText content =>
      if navSuppressRealtime s && navAwaitingResponse s then s
      else
        let s :=
          if negb (isNavigationPayload content) then
            let s := addMessage content Bot None false s in
            let s := set_lastResponseText (Some content) s in
            scheduleNavSpeechFallback s
          else s in
        setNavResponding true s
  | MsgAudio audio mime_type =>
      if navSuppressRealtime s && navAwaitingResponse s then clearNavSpeechFallback s
      else if negb (awaitingRealtimeResponse s) then s
      else
        let s := clearNavSpeechFallback s in
        let s := bufferAudioChunk audio mime_type s in
        setNavResponding true s
  | MsgTranscription content =>
      handleNavAssist content (addMessage content User None false s)
  | MsgNavigate message target_route =>
      let s := match message with
               | Some (String _ _ as m) =>
                   let s := addMessage m Bot (Some "navigation") false s in
                   let s := set_lastResponseText (Some m) s in
                   scheduleNavSpeechFallback s
               | _ => s
               end in
      let s := match target_route with
               | Some (String _ _ as r) => navigateTo (removeFirstHash r) s
               | _ => s
               end in
      setNavResponding false s
  | MsgTurnComplete =>
      let s := clearNavSpeechFallback s in
      if navSuppressRealtime s then
        let s := set_pendingAudioChunks [] s in
        let s := set_navSuppressRealtime false s in
        let s := set_lastResponseText None s in
        let s := set_navAwaitingResponse false s in
        let s := set_awaitingRealtimeResponse false s in
        setNavResponding false s
      else
        let s := if negb (is_nil (pendingAudioChunks s)) then finalizeAudioResponse s
                 else if navAwaitingResponse s && truthy (lastResponseText s)
                 then speakTextResponse (lastResponseText s) s
                 else s in
        let s := set_lastResponseText None s in
        let s := set_navAwaitingResponse false s in
        let s := set_awaitingRealtimeResponse false s in
        setNavResponding false s
  | MsgError content =>
      addMessage ("Error: " ++ content)%string Bot None true s
  | MsgOther => s
  end.

(** ** The event loop

    One event is one task of the page.  An event that the browser cannot
    deliver in the state (a timer that is not pending, the end of an audio
    element that is not live, an answer to a request that was not made)
    leaves the state as it is. *)

Definition step (e : Event) (s : State) : State :=
  match e with
  | EvSocketOpen => updateConnectionStatus Connected "Ready" (set_wsOpen true s)
  | EvSocketError => updateConnectionStatus Disconnected "Error" s
  | EvSocketClose =>
      emit Reconnect (updateConnectionStatus Disconnected "Disconnected" (set_wsOpen false s))
  | EvMessage m => handleLiveMessage m s
  | EvTimer id =>
      if existsb (fun t => Nat.eqb (fst t) id) (timers s)
      then navSpeechFallbackCallback (clearTimeout id s)
      else s
  | EvMicClick ModeChat => toggleRecording ModeChat MicButton s
  | EvMicClick ModeNav =>
      if hasNavMicButton (browser s) then toggleRecording ModeNav NavMicButton s else s
  | EvMediaGranted =>
      match pendingStarts s with
      | (mode, buttonEl) :: rest =>
          startRecording_granted mode buttonEl (set_pendingStarts rest s)
      | [] => s
      end
  | EvMediaDenied =>
      match pendingStarts s with
      | _ :: rest => startRecording_denied (set_pendingStarts rest s)
      | [] => s
      end
  | EvAudioProcess inputData => onaudioprocess inputData s
  | EvAssistResponse r =>
      match assistInFlight s with
      | S n => handleNavAssist_resume r (set_assistInFlight n s)
      | O => s
      end
  | EvInput value => set_messageInput value s
  | EvSend => handleSendMessage s
  | EvQueryResponse r =>
      if isProcessing s then handleSendMessage_resume r s else s
  | EvFileChosen file => handleFileUpload file s
  | EvUploadResponse r =>
      match pendingUploads s with
      | name :: rest => handleFileUpload_resume name r (set_pendingUploads rest s)
      | [] => s
      end
  | EvAudioEnded audio | EvAudioError audio =>
      if existsb (Nat.eqb audio) (liveAudio s) then audioFinished audio s else s
  | EvPlayRejected audio =>
      if existsb (Nat.eqb audio) (liveAudio s)
      then addMessage "Click anywhere to enable audio playback." Bot None false s
      else s
  | EvSpeechEnd => updateConnectionStatus Connected "Ready" s
  | EvNavClick page => navigateTo page s
  end.

Definition run (events : list Event) (s : State) : State :=
  fold_left (fun s e => step e s) events s.





End Arbitrator.

(** ** Reasoning about handlers

    The state is taken apart and the values the handlers test are decided
    first; [handlers] then runs the handlers on the state that results. *)

Arguments createWavBlob : simpl never.
Arguments concatUint8Arrays : simpl never.
Arguments getSampleRateFromMime : simpl never.
Arguments rate_or_default : simpl never.
Arguments atob : simpl never.
Arguments trim : simpl never.
Arguments encodeCapture : simpl never.
Arguments isArabicText : simpl never.
Arguments Z.add : simpl never.
Arguments Z.max : simpl never.

Ltac handlers :=
  cbv beta iota zeta delta [
    sessionId isProcessing isRecording wsOpen audioContext
    mediaRecorder pendingAudioChunks pendingAudioMimeType audioQueue isPlayingAudio
    hasShownAudioIndicator activeRecordingTarget activeRecordingMode navAwaitingResponse lastResponseText
    navResponseTimeout navSuppressRealtime awaitingRealtimeResponse activeAudio messageInput
    sendButtonDisabled uploadButtonDisabled locationHash browser clock
    timers nextTimerId blobs nextUrl liveAudio
    assistInFlight pendingStarts pendingUploads log set_sessionId
    set_isProcessing set_isRecording set_wsOpen set_audioContext set_mediaRecorder
    set_pendingAudioChunks set_pendingAudioMimeType set_audioQueue set_isPlayingAudio set_hasShownAudioIndicator
    set_activeRecordingTarget set_activeRecordingMode set_navAwaitingResponse set_lastResponseText set_navResponseTimeout
    set_navSuppressRealtime set_awaitingRealtimeResponse set_activeAudio set_messageInput set_sendButtonDisabled
    set_uploadButtonDisabled set_locationHash set_browser set_clock set_timers
    set_nextTimerId set_blobs set_nextUrl set_liveAudio set_assistInFlight
    set_pendingStarts set_pendingUploads set_log andThen tryCatchFinally
    emit addMessage updateConnectionStatus navigateTo setNavResponding
    setTimeout clearTimeout clearNavSpeechFallback speakTextResponse scheduleNavSpeechFallback
    navSpeechFallbackCallback resetNavAssistState resetAudioPlaybackState playNextAudio revokeObjectURL
    audioFinished bufferAudioChunk finalizeAudioResponse startRecording startRecording_granted
    startRecording_denied onaudioprocess stopRecording toggleRecording handleSendMessage
    handleSendMessage_body handleSendMessage_catch handleSendMessage_finally handleSendMessage_resume handleFileUpload
    handleFileUpload_resume openChatView executeAssistAction handleNavAssist handleNavAssist_resume
    handleLiveMessage step hasNavMicButton hasUploadButton hasSpeechSynthesis
    is_nil is_empty truthy js_or negb
    andb orb fst snd].

Ltac destruct_state s :=
  destruct s as [s_sessionId s_isProcessing s_isRecording s_wsOpen s_audioContext s_mediaRecorder
    s_chunks s_mime s_queue s_isPlaying s_indicator s_target s_mode s_navAwaiting
    s_lastText s_timeout s_suppress s_awaiting s_activeAudio s_input s_sendDisabled
    s_uploadDisabled s_hash s_browser s_clock s_timers s_nextTimer s_blobs s_nextUrl
    s_live s_assist s_starts s_uploads s_log];
  cbn in * |-.

(** The bytes behind an object URL that has not been revoked. *)
Definition lookupBlob (url : nat) (s : State) : option Uint8Array :=
  option_map snd (find (fun b => Nat.eqb (fst b) url) (blobs s)).

(** The sum of the lengths of the fragments. *)
Definition sumLengths (frags : list Uint8Array) : Z :=
  fold_right Z.add 0 (map byteLength frags).


(** The blob of the clip that the completion of the turn assembles in [s]:
    it is registered under the next URL. *)
Definition clipOf (JSON_parse : string -> option Json) (s : State)
  : option Uint8Array :=
  lookupBlob (nextUrl s) (handleLiveMessage JSON_parse MsgTurnComplete s).

(** Fragment conservation as the specification words it: the payload after
    the header is the concatenation, its length is the sum of the lengths,
    and the two size fields hold that length and 36 plus that length. *)
Definition conserved (frags : list Uint8Array) (wav : Uint8Array) : Prop :=
  skipn 44 wav = List.concat frags
  /\ byteLength (skipn 44 wav) = sumLengths frags
  /\ getUint32 wav 40 = sumLengths frags
  /\ getUint32 wav 4 = 36 + sumLengths frags.

(** ** Concrete pages and states for the examples *)

(** A parser that rejects every text: enough for runs whose texts
    [isNavigationPayload] turns down before it parses them. *)
Definition noJSON (text : string) : option Json := None.

Definition somePage : Browser := mkBrowser true true true.

(** A turn that has buffered one fragment of 2^32 - 36 bytes. *)
Definition hugeTurn : State :=
  set_pendingAudioChunks [newUint8Array 4294967260] (initialState somePage).

(** A turn that has buffered two short fragments. *)
Definition smallTurn : State :=
  set_pendingAudioChunks [[1; 2; 3]; [4; 5]] (initialState somePage).

(** ** The tags of a turn *)

(** Whether [bufferAudioChunk] keeps the fragment of an audio envelope: its
    payload is there and decodes to at least one byte. *)
Definition buffers (audio : option string) : bool :=
  match audio with
  | Some (String _ _ as b) =>
      match atob b with
      | Some (_ :: _) => true
      | _ => false
      end
  | _ => false
  end.













(** ** The capture encoder, in the words of the specification *)

(** Truncation toward zero. *)
Definition truncate (q : Q) : Z := Z.quot (Qnum q) (Z.pos (Qden q)).

(** The clamp and the conversion of one finite sample, in the words of the
    specification. *)
Definition clamped (q c : Q) : Prop :=
  (-1 <= c <= 1)%Q
  /\ ((-1 <= q <= 1)%Q -> c = q)
  /\ ((1 < q)%Q -> c = 1%Q)
  /\ ((q < -1)%Q -> c = (-1)%Q).

(** What the callback stores for a sample: 0 for NaN; else the clamped
    value times 32768 when it is negative, times 32767 when it is not,
    truncated: a 16-bit signed value. *)
Definition converted (x : Sample) (v : Z) : Prop :=
  match x with
  | SNaN => v = 0
  | SNum q =>
      exists c, clampSample x = SNum c /\ clamped q c
        /\ ((c < 0)%Q -> v = truncate (c * 32768))
        /\ ((0 <= c)%Q -> v = truncate (c * 32767))
        /\ -32768 <= v <= 32767
  end.

(** A chat recording started before the socket opened, and one started
    after. *)
Definition recordingOffline : State :=
  run noJSON [EvMicClick ModeChat; EvMediaGranted] (initialState somePage).

Definition recordingOnline : State :=
  run noJSON [EvSocketOpen; EvMicClick ModeChat; EvMediaGranted] (initialState somePage).

(** The envelope the callback sends for a buffer. *)
Definition captureEnvelope (inputData : list Sample) : Effect :=
  WsSend (OutAudio (btoa (int16Bytes (map pcmSample inputData))) "audio/pcm;rate=16000").


(** ** Stopping and starting a recording *)

(** What one call of [stopRecording] adds to the log. *)
Definition stopEffects (s : State) : list Effect :=
  (if mediaRecorder s then [CaptureReleased] else [])
  ++ (if audioContext s then [AudioContextClosed] else [])
  ++ (if wsOpen s then [WsSend OutAudioStreamEnd] else [])
  ++ match activeRecordingTarget s with
     | Some b => [RecordingClass b false]
     | None => []
     end
  ++ [UpdateConnectionStatus Connected "Processing..."].

(** The [audio_stream_end] envelopes sent so far. *)
Definition isStreamEnd (e : Effect) : bool :=
  match e with
  | WsSend OutAudioStreamEnd => true
  | _ => false
  end.

Definition streamEnds (s : State) : nat := List.length (filter isStreamEnd (log s)).

(** The page once the socket is open, nothing recorded yet. *)
Definition idleOnline : State := run noJSON [EvSocketOpen] (initialState somePage).

(** The pending timers of a reachable state: none, or the one whose
    identifier [navResponseTimeout] holds. *)
Definition timers_wf (s : State) : Prop :=
  timers s = []
  \/ exists id t, timers s = [(S id, t)] /\ navResponseTimeout s = Some (S id).


(** The page while the answer to a nav command is awaited and the assist
    lookup is in flight. *)
Definition assistPending : State :=
  run noJSON
    [EvSocketOpen; EvMicClick ModeNav; EvMediaGranted; EvMicClick ModeNav;
     EvMessage (MsgTranscription "open the chat")]
    (initialState somePage).

(** An answer of the assist endpoint that claims the turn. *)
Definition handledAnswer : AssistResult :=
  AssistResp true (mkAssistData (Some "Opening the chat.") (Some [ActOpenChat]) true).

(** The turn of [assistPending] once the lookup has claimed it. *)
Definition claimedTurn : State := step noJSON (EvAssistResponse handledAnswer) assistPending.

(** A visible bot message with the given text. *)
Definition isBotMessage (text : string) (e : Effect) : bool :=
  match e with
  | AddMessage t Bot _ _ => String.eqb t text
  | _ => false
  end.


(** ** Frames: what an event leaves alone *)

Arguments isNavigationPayload : simpl never.
Arguments currentPage : simpl never.
Arguments removeFirstHash : simpl never.
Arguments String.eqb : simpl never.
Arguments showNavGuide : simpl never.

(** The handlers unfolded where they stand, the tests they make decided as
    they come up: for the handlers that test little. *)
Ltac unfold_handlers :=
  cbv delta [
    andThen tryCatchFinally emit addMessage updateConnectionStatus
    navigateTo setNavResponding setTimeout clearTimeout clearNavSpeechFallback
    speakTextResponse scheduleNavSpeechFallback navSpeechFallbackCallback resetNavAssistState resetAudioPlaybackState
    playNextAudio revokeObjectURL audioFinished bufferAudioChunk finalizeAudioResponse
    startRecording startRecording_granted startRecording_denied onaudioprocess stopRecording
    toggleRecording handleSendMessage handleSendMessage_body handleSendMessage_catch handleSendMessage_finally
    handleSendMessage_resume handleFileUpload handleFileUpload_resume openChatView executeAssistAction
    handleNavAssist handleNavAssist_resume handleLiveMessage step].

Ltac split_match :=
  match goal with
  | |- context [match ?x with _ => _ end] =>
      lazymatch x with
      | context [match _ with _ => _ end] => fail
      | _ => first [ is_var x; destruct x | destruct x eqn:? ]
      end
  end.

Ltac crunch :=
  unfold_handlers; cbn; rewrite ?Nat.eqb_refl; cbn;
  repeat (split_match; cbn; rewrite ?Nat.eqb_refl; cbn).

(** An effect that neither speaks nor touches playback. *)
Definition quiet (e : Effect) : bool :=
  match e with
  | SpeechSpeak _ _ | AudioPlay _ | AudioPause _ | RevokeObjectURL _ => false
  | _ => true
  end.

(** The variables of the turn, of the timers and of playback. *)
Definition turnView (s : State) :=
  (navSuppressRealtime s, navAwaitingResponse s, awaitingRealtimeResponse s,
   pendingAudioChunks s, pendingAudioMimeType s,
   (navResponseTimeout s, timers s, nextTimerId s, clock s),
   (audioQueue s, isPlayingAudio s, hasShownAudioIndicator s, activeAudio s,
    liveAudio s, nextUrl s, blobs s),
   browser s).

(** [s'] differs from [s] outside [turnView] only, and by quiet effects. *)
Definition frame (s s' : State) : Prop :=
  turnView s' = turnView s
  /\ exists l, log s' = log s ++ l /\ forallb quiet l = true.

(** The events that leave the turn alone whatever the state. *)
Definition idleEvent (e : Event) : bool :=
  match e with
  | EvSocketOpen | EvSocketError | EvSocketClose => true
  | EvMessage (MsgConnected | MsgError _ | MsgOther | MsgTranscription _) => true
  | EvAudioProcess _ | EvInput _ | EvSend | EvQueryResponse _ | EvFileChosen _
  | EvUploadResponse _ | EvPlayRejected _ | EvSpeechEnd | EvNavClick _
  | EvMediaDenied => true
  | EvAssistResponse AssistFailed | EvAssistResponse (AssistResp false _) => true
  | _ => false
  end.

(** The part of [handleNavAssist_resume] that claims the turn. *)
Definition claimTurn (s : State) : State :=
  let s := set_navSuppressRealtime true s in
  let s := clearNavSpeechFallback s in
  let s := speakTextResponse (lastResponseText s) s in
  let s := set_lastResponseText None s in
  let s := set_navAwaitingResponse false s in
  set_awaitingRealtimeResponse false s.

Ltac wf_cases H :=
  unfold timers_wf in H |- *;
  let s := match type of H with context [timers ?s] => s end in
  destruct_state s;
  match goal with
  | Hb : Browser |- _ => destruct Hb as [b_nav b_upload b_speech]
  end;
  destruct H as [H | (?id & ?t & H & ?Ht)]; subst.

Definition isSpeech (e : Effect) : list string :=
  match e with
  | SpeechSpeak t _ => [t]
  | _ => []
  end.

(** The texts handed to the synthesiser so far. *)
Definition spoken (s : State) : list string := flat_map isSpeech (log s).



(** Fragments are buffered and the turn is not suppressed. *)
Definition buffered (said : list string) (s : State) : Prop :=
  pendingAudioChunks s <> [] /\ navSuppressRealtime s = false /\ spoken s = said.

(** The events of a turn under way: every event but a microphone click, an
    answer of the assist endpoint that claims the turn, and the completion
    of the turn. *)
Definition inTurn (e : Event) : bool :=
  match e with
  | EvMicClick _ => false
  | EvMessage MsgTurnComplete => false
  | EvAssistResponse (AssistResp true data) => negb (a_handled data)
  | _ => true
  end.

Ltac buffered_cases B :=
  unfold buffered, spoken in B |- *;
  let s := match type of B with context [pendingAudioChunks ?s] => s end in
  destruct_state s;
  match goal with
  | Hb : Browser |- _ => destruct Hb as [b_nav b_upload b_speech]
  end;
  let B1 := fresh in let B2 := fresh in let B3 := fresh in
  destruct B as (B1 & B2 & B3); subst;
  match goal with
  | H : ?c <> [] |- _ => destruct c; [congruence|]; clear H
  end.

Ltac stuck :=
  repeat (match goal with
          | |- context [if ?c then _ else _] =>
              lazymatch c with
              | context [if _ then _ else _] => fail
              | _ => destruct c eqn:?
              end
          end; handlers).

(** The page once a nav recording has been stopped: the answer is awaited. *)
Definition awaitingNav : State :=
  run noJSON [EvSocketOpen; EvMicClick ModeNav; EvMediaGranted; EvMicClick ModeNav]
    (initialState somePage).

(** The same page after a text envelope: the fallback timer is armed. *)
Definition timerArmed : State :=
  step noJSON (EvMessage (MsgText "One moment.")) awaitingNav.


(** ** The playback queue *)
(** Playback as the log tells it: [Some None] while nothing plays,
    [Some (Some a)] while the clip [a] plays, [None] once a clip has started
    while another played.  A clip stops playing when its URL is revoked
    (its end or its failure) or when it is paused. *)
Definition playStep (pauseEnds : bool) (st : option (option nat)) (e : Effect)
  : option (option nat) :=
  match st with
  | None => None
  | Some cur =>
      match e with
      | AudioPlay b =>
          match cur with
          | None => Some (Some b)
          | Some _ => None
          end
      | RevokeObjectURL a =>
          match cur with
          | Some c => if Nat.eqb c a then Some None else Some cur
          | None => Some None
          end
      | AudioPause a =>
          if pauseEnds then
            match cur with
            | Some c => if Nat.eqb c a then Some None else Some cur
            | None => Some None
            end
          else Some cur
      | _ => Some cur
      end
  end.

Definition playTrace (pauseEnds : bool) (l : list Effect) : option (option nat) :=
  fold_left (playStep pauseEnds) l (Some None).

Definition isPlay (e : Effect) : list nat :=
  match e with
  | AudioPlay a => [a]
  | _ => []
  end.

(** The clips started so far, in the order in which they started. *)
Definition played (s : State) : list nat := flat_map isPlay (log s).

(** An effect that leaves playback alone. *)
Definition neutral (e : Effect) : bool :=
  match e with
  | AudioPlay _ | AudioPause _ | RevokeObjectURL _ => false
  | _ => true
  end.

Definition playbackView (s : State) :=
  (audioQueue s, isPlayingAudio s, activeAudio s, liveAudio s, nextUrl s).

Definition pframe (s s' : State) : Prop :=
  playbackView s' = playbackView s
  /\ exists l, log s' = log s ++ l /\ forallb neutral l = true.

(** The URLs [l] came out of [URL.createObjectURL] in this order, [n] is the
    next one. *)
Definition ordered (n : nat) (l : list nat) : Prop :=
  StronglySorted lt l /\ Forall (fun a => (a < n)%nat) l.

(** The invariant of the playback queue: at most one audio element is live,
    it is the active one and the flag is set; the log agrees; the clips
    started and the clips queued are in the order of their creation. *)
Definition queueInv (s : State) : Prop :=
  ((isPlayingAudio s = false /\ liveAudio s = [])
   \/ exists a, liveAudio s = [a] /\ activeAudio s = Some a /\ isPlayingAudio s = true)
  /\ playTrace true (log s) = Some (hd_error (liveAudio s))
  /\ ordered (nextUrl s) (played s ++ audioQueue s).

Ltac pframe_done :=
  (split; [reflexivity|]);
  first [ exists []; rewrite app_nil_r; split; reflexivity
        | rewrite <- ?app_assoc; cbn [app]; eexists; (split; [reflexivity | reflexivity]) ].

Ltac pframe_start s :=
  unfold pframe, playbackView; destruct_state s;
  match goal with
  | Hb : Browser |- _ => destruct Hb as [b_nav b_upload b_speech]
  end.

Ltac inv_start s I :=
  let I1 := fresh "I1" in let I2 := fresh "I2" in let I3 := fresh "I3" in
  destruct I as (I1 & I2 & I3);
  unfold queueInv, played, playTrace in *;
  destruct_state s;
  match goal with
  | Hb : Browser |- _ => destruct Hb as [b_nav b_upload b_speech]
  end;
  destruct I1 as [[?P ?L] | (?a & ?L & ?A & ?P)]; subst.

Ltac lists :=
  rewrite ?flat_map_app; cbn [flat_map isPlay]; rewrite <- ?app_assoc; cbn [app];
  rewrite ?app_nil_r.

Ltac trace I2 :=
  rewrite ?fold_left_app, ?I2; cbn [fold_left playStep hd_error app];
  rewrite ?Nat.eqb_refl; try reflexivity.



(** Two clips in the queue: the permission prompt is answered twice, so the
    second recording starts without a reset while the first clip plays. *)
Definition twoClips : State :=
  run noJSON
    [EvSocketOpen; EvMicClick ModeChat; EvMicClick ModeChat; EvMediaGranted;
     EvMicClick ModeChat; EvMessage (MsgAudio (Some "AAAA") None);
     EvMessage MsgTurnComplete; EvMediaGranted; EvMicClick ModeChat;
     EvMessage (MsgAudio (Some "AAAA") None); EvMessage MsgTurnComplete]
    (initialState somePage).

Definition playbackEffects (s : State) : list Effect :=
  filter (fun e => negb (neutral e)) (log s).

(** ** HTTP failures *)
(** What the user sees of a failure: a message flagged as an error in the
    conversation, or the upload status in its error class. *)
Definition visibleError (e : Effect) : bool :=
  match e with
  | AddMessage _ _ _ isError => isError
  | UploadStatus _ cls => String.eqb cls "upload-status error"
  | _ => false
  end.

(** The request failed: [fetch] or [response.json()] rejected, or the status
    is not a success. *)
Definition queryFails (r : QueryResult) : bool :=
  match r with
  | QueryResp true (Some _) => false
  | _ => true
  end.

Definition uploadFails (r : UploadResult) : bool :=
  match r with
  | UploadResp true _ => false
  | _ => true
  end.

Definition assistFails (r : AssistResult) : bool :=
  match r with
  | AssistResp true _ => false
  | _ => true
  end.

(** The message of the error that the [catch] of [handleFileUpload] shows. *)
Definition uploadErrorMessage (r : UploadResult) : string :=
  match r with
  | UploadFailed message => message
  | UploadResp _ (Some (String _ _ as d)) => d
  | UploadResp _ _ => "Upload failed"
  end.

(** The state but for the log and for the count of the requests in flight. *)
Definition pageOf (s : State) : State := set_log [] (set_assistInFlight 0 s).

(** The page while a query is in flight. *)
Definition queryPending : State :=
  run noJSON [EvInput "hello"; EvSend] (initialState somePage).

(** The page while an upload is in flight. *)
Definition uploadPending : State :=
  run noJSON [EvFileChosen (Some "rules.pdf")] (initialState somePage).

(** ** The pending timers *)
Ltac wf_done :=
  cbn [filter fst snd negb Nat.eqb app]; rewrite ?Nat.eqb_refl; cbn [filter negb app];
  first [ left; reflexivity
        | right; eexists; eexists; split; reflexivity
        | assumption ].

(** The pending timers and the identifier of the fallback timer. *)
Definition timerView (s : State) := (timers s, navResponseTimeout s).

(** ** The rate of a tag *)
(** The text holds [rate=] followed by a digit. *)
Definition hasRate (m : string) : Prop :=
  exists pre d post,
    m = (pre ++ "rate=" ++ String d post)%string /\ is_digit d = true.

(** The string of the digits [ds], given by their values. *)
Definition digitString (ds : list Z) : string := of_codes (map (fun d => 48 + d) ds).

(** The value of a decimal numeral, the most significant digit first. *)
Definition decimalValue (ds : list Z) : Z := fold_left (fun acc d => 10 * acc + d) ds 0.

Definition startsWithDigit (s : string) : bool :=
  match s with
  | String c _ => is_digit c
  | EmptyString => false
  end.

(** ** Base64 there and back *)
Definition isByte (b : Z) : Prop := 0 <= b < 256.

(** The sextets and the padding of the base64 text of [bytes]. *)
Fixpoint sextetsOf (bytes : Uint8Array) : list Z :=
  match bytes with
  | [] => []
  | [a] => [a / 4; a mod 4 * 16]
  | [a; b] => [a / 4; a mod 4 * 16 + b / 16; b mod 16 * 4]
  | a :: b :: c :: rest =>
      a / 4 :: (a mod 4 * 16 + b / 16) :: (b mod 16 * 4 + c / 64) :: c mod 64
      :: sextetsOf rest
  end.

Definition paddingOf (bytes : Uint8Array) : list Z :=
  match (List.length bytes mod 3)%nat with
  | 1%nat => [61; 61]
  | 2%nat => [61]
  | _ => []
  end.

Definition b64_code (n : Z) : Z := code (b64_char n).

(** ** The capture payload there and back *)
(** A 16-bit signed value read from two bytes, the low one first. *)
Definition readInt16 (lo hi : Z) : Z :=
  let u := lo + 256 * hi in if u <? 32768 then u else u - 65536.

Fixpoint readInt16s (bytes : Uint8Array) : list Z :=
  match bytes with
  | lo :: hi :: r => readInt16 lo hi :: readInt16s r
  | _ => []
  end.

(** ** The controls: the query guard and the capture graph *)
(** The variables of the query guard and of the capture path. *)
Definition controls (s : State) :=
  (isProcessing s, sendButtonDisabled s,
   (isRecording s, audioContext s, mediaRecorder s,
    activeRecordingMode s, activeRecordingTarget s)).

(** The events that come from outside the controls: the socket, the timers,
    playback, speech, navigation, the capture callback, the input field and
    the uploads. *)
Definition inbound (e : Event) : bool :=
  match e with
  | EvMicClick _ | EvMediaGranted | EvSend | EvQueryResponse _ => false
  | EvAssistResponse (AssistResp true _) => false
  | _ => true
  end.

Ltac controls_start s :=
  unfold controls; destruct_state s;
  match goal with
  | Hb : Browser |- _ => destruct Hb as [b_nav b_upload b_speech]
  end.

Definition isSome (A : Type) (o : option A) : bool :=
  match o with
  | Some _ => true
  | None => false
  end.

(** The invariant of the controls: the send button is disabled exactly while
    a query is in flight; the audio context exists, and the mode and the
    button of the recording are set, exactly while a recording is active;
    and then the capture nodes exist. *)
Definition controlsInv (s : State) : Prop :=
  sendButtonDisabled s = isProcessing s
  /\ audioContext s = isRecording s
  /\ isSome (activeRecordingMode s) = isRecording s
  /\ isSome (activeRecordingTarget s) = isRecording s
  /\ (isRecording s = true -> mediaRecorder s = true).

(** ** The life of an object URL *)
Definition isRevokeOf (e : Effect) : list nat :=
  match e with
  | RevokeObjectURL a => [a]
  | _ => []
  end.

(** The URLs revoked so far, in the order of their revocation. *)
Definition revoked (s : State) : list nat := flat_map isRevokeOf (log s).

(** No clip starts on a URL that was revoked before. *)
Definition startsLive (l : list Effect) : Prop :=
  forall l0 a l1, l = l0 ++ AudioPlay a :: l1 -> ~ In a (flat_map isRevokeOf l0).

(** The invariant of the object URLs: a URL is revoked once at most, and
    only after its clip started; the clip of the live element started and
    its URL is not revoked; no clip starts on a revoked URL. *)
Definition urlInv (s : State) : Prop :=
  incl (revoked s) (played s)
  /\ NoDup (revoked s)
  /\ (forall a, In a (liveAudio s) -> In a (played s) /\ ~ In a (revoked s))
  /\ startsLive (log s).

Ltac url_start s I U :=
  let U1 := fresh "U1" in let U2 := fresh "U2" in let U3 := fresh "U3" in
  let U4 := fresh "U4" in
  destruct U as (U1 & U2 & U3 & U4);
  unfold urlInv, revoked in *;
  inv_start s I.

Ltac url_lists :=
  rewrite ?flat_map_app; cbn [flat_map isPlay isRevokeOf]; rewrite <- ?app_assoc;
  cbn [app]; rewrite ?app_nil_r.

Ltac snocs :=
  repeat match goal with
         | |- startsLive (?l ++ ?e1 :: ?e2 :: ?r) =>
             change (l ++ e1 :: e2 :: r) with (l ++ [e1] ++ e2 :: r);
             rewrite (app_assoc l [e1])
         end.

(** ** The session of the queries *)
(** The session id once the answer [r] of a query has been handled. *)
Definition sessionAfter (r : QueryResult) (s : State) : option string :=
  match r with
  | QueryResp true (Some data) =>
      if truthy (q_session_id data) then q_session_id data else sessionId s
  | _ => sessionId s
  end.


(** * The live chat page: [live-chat.js]

    The second page of the front end talks to the same socket.  It shares
    the assembler ([concatUint8Arrays], [getSampleRateFromMime],
    [createWavBlob]) and the capture conversion with the main script, word
    for word; its envelopes are not arbitrated (every text is shown, every
    fragment is buffered) and its audio elements have a third callback,
    [onloadedmetadata]. *)

Module LiveChat.

Inductive Mode : Type := AudioMode | TextMode.

Inductive Outbound : Type :=
| OutAudio (audio mime_type : string)
| OutAudioStreamEnd
| OutText (content : string) (response_modalities : list string).

Inductive Effect : Type :=
| AddMessage (text : string) (type : Sender)
| AddSystemMessage (text : string) (isError : bool)
| UpdateConnectionStatus (status : ConnStatus) (text : string)
| ShowMode (mode : Mode)
| WsSend (e : Outbound)
| SocketClose
| Reconnect
| AudioPlay (url : nat)
| RevokeObjectURL (url : nat)
| ConsoleError (what : string)
| ConsoleWarn (what : string)
| Alert (text : string)
| GetUserMedia
| CaptureReleased
| AudioContextClosed
| AnimationFrame
| VisualizerReset
| RecordButton (recording : bool).

Record State : Type := mkState {
  websocketOpen : bool;
  isRecording : bool;
  mediaRecorder : bool;
  audioContext : bool;
  currentMode : Mode;
  audioQueue : list nat;
  isPlayingAudio : bool;
  hasShownAudioIndicator : bool;
  pendingAudioChunks : list Uint8Array;
  pendingAudioMimeType : option string;
  textInput : string;
  statusMessage : string;
  blobs : list (nat * Uint8Array);
  nextUrl : nat;
  liveAudio : list nat;
  loading : list nat;
  pendingStarts : nat;
  log : list Effect
}.

Definition set_websocketOpen (v : bool) (s : State) : State :=
  {| websocketOpen := v; isRecording := isRecording s; mediaRecorder := mediaRecorder s; audioContext := audioContext s; currentMode := currentMode s; audioQueue := audioQueue s; isPlayingAudio := isPlayingAudio s; hasShownAudioIndicator := hasShownAudioIndicator s; pendingAudioChunks := pendingAudioChunks s; pendingAudioMimeType := pendingAudioMimeType s; textInput := textInput s; statusMessage := statusMessage s; blobs := blobs s; nextUrl := nextUrl s; liveAudio := liveAudio s; loading := loading s; pendingStarts := pendingStarts s; log := log s |}.
Definition set_isRecording (v : bool) (s : State) : State :=
  {| websocketOpen := websocketOpen s; isRecording := v; mediaRecorder := mediaRecorder s; audioContext := audioContext s; currentMode := currentMode s; audioQueue := audioQueue s; isPlayingAudio := isPlayingAudio s; hasShownAudioIndicator := hasShownAudioIndicator s; pendingAudioChunks := pendingAudioChunks s; pendingAudioMimeType := pendingAudioMimeType s; textInput := textInput s; statusMessage := statusMessage s; blobs := blobs s; nextUrl := nextUrl s; liveAudio := liveAudio s; loading := loading s; pendingStarts := pendingStarts s; log := log s |}.
Definition set_mediaRecorder (v : bool) (s : State) : State :=
  {| websocketOpen := websocketOpen s; isRecording := isRecording s; mediaRecorder := v; audioContext := audioContext s; currentMode := currentMode s; audioQueue := audioQueue s; isPlayingAudio := isPlayingAudio s; hasShownAudioIndicator := hasShownAudioIndicator s; pendingAudioChunks := pendingAudioChunks s; pendingAudioMimeType := pendingAudioMimeType s; textInput := textInput s; statusMessage := statusMessage s; blobs := blobs s; nextUrl := nextUrl s; liveAudio := liveAudio s; loading := loading s; pendingStarts := pendingStarts s; log := log s |}.
Definition set_audioContext (v : bool) (s : State) : State :=
  {| websocketOpen := websocketOpen s; isRecording := isRecording s; mediaRecorder := mediaRecorder s; audioContext := v; currentMode := currentMode s; audioQueue := audioQueue s; isPlayingAudio := isPlayingAudio s; hasShownAudioIndicator := hasShownAudioIndicator s; pendingAudioChunks := pendingAudioChunks s; pendingAudioMimeType := pendingAudioMimeType s; textInput := textInput s; statusMessage := statusMessage s; blobs := blobs s; nextUrl := nextUrl s; liveAudio := liveAudio s; loading := loading s; pendingStarts := pendingStarts s; log := log s |}.
Definition set_currentMode (v : Mode) (s : State) : State :=
  {| websocketOpen := websocketOpen s; isRecording := isRecording s; mediaRecorder := mediaRecorder s; audioContext := audioContext s; currentMode := v; audioQueue := audioQueue s; isPlayingAudio := isPlayingAudio s; hasShownAudioIndicator := hasShownAudioIndicator s; pendingAudioChunks := pendingAudioChunks s; pendingAudioMimeType := pendingAudioMimeType s; textInput := textInput s; statusMessage := statusMessage s; blobs := blobs s; nextUrl := nextUrl s; liveAudio := liveAudio s; loading := loading s; pendingStarts := pendingStarts s; log := log s |}.
Definition set_audioQueue (v : list nat) (s : State) : State :=
  {| websocketOpen := websocketOpen s; isRecording := isRecording s; mediaRecorder := mediaRecorder s; audioContext := audioContext s; currentMode := currentMode s; audioQueue := v; isPlayingAudio := isPlayingAudio s; hasShownAudioIndicator := hasShownAudioIndicator s; pendingAudioChunks := pendingAudioChunks s; pendingAudioMimeType := pendingAudioMimeType s; textInput := textInput s; statusMessage := statusMessage s; blobs := blobs s; nextUrl := nextUrl s; liveAudio := liveAudio s; loading := loading s; pendingStarts := pendingStarts s; log := log s |}.
Definition set_isPlayingAudio (v : bool) (s : State) : State :=
  {| websocketOpen := websocketOpen s; isRecording := isRecording s; mediaRecorder := mediaRecorder s; audioContext := audioContext s; currentMode := currentMode s; audioQueue := audioQueue s; isPlayingAudio := v; hasShownAudioIndicator := hasShownAudioIndicator s; pendingAudioChunks := pendingAudioChunks s; pendingAudioMimeType := pendingAudioMimeType s; textInput := textInput s; statusMessage := statusMessage s; blobs := blobs s; nextUrl := nextUrl s; liveAudio := liveAudio s; loading := loading s; pendingStarts := pendingStarts s; log := log s |}.
Definition set_hasShownAudioIndicator (v : bool) (s : State) : State :=
  {| websocketOpen := websocketOpen s; isRecording := isRecording s; mediaRecorder := mediaRecorder s; audioContext := audioContext s; currentMode := currentMode s; audioQueue := audioQueue s; isPlayingAudio := isPlayingAudio s; hasShownAudioIndicator := v; pendingAudioChunks := pendingAudioChunks s; pendingAudioMimeType := pendingAudioMimeType s; textInput := textInput s; statusMessage := statusMessage s; blobs := blobs s; nextUrl := nextUrl s; liveAudio := liveAudio s; loading := loading s; pendingStarts := pendingStarts s; log := log s |}.
Definition set_pendingAudioChunks (v : list Uint8Array) (s : State) : State :=
  {| websocketOpen := websocketOpen s; isRecording := isRecording s; mediaRecorder := mediaRecorder s; audioContext := audioContext s; currentMode := currentMode s; audioQueue := audioQueue s; isPlayingAudio := isPlayingAudio s; hasShownAudioIndicator := hasShownAudioIndicator s; pendingAudioChunks := v; pendingAudioMimeType := pendingAudioMimeType s; textInput := textInput s; statusMessage := statusMessage s; blobs := blobs s; nextUrl := nextUrl s; liveAudio := liveAudio s; loading := loading s; pendingStarts := pendingStarts s; log := log s |}.
Definition set_pendingAudioMimeType (v : option string) (s : State) : State :=
  {| websocketOpen := websocketOpen s; isRecording := isRecording s; mediaRecorder := mediaRecorder s; audioContext := audioContext s; currentMode := currentMode s; audioQueue := audioQueue s; isPlayingAudio := isPlayingAudio s; hasShownAudioIndicator := hasShownAudioIndicator s; pendingAudioChunks := pendingAudioChunks s; pendingAudioMimeType := v; textInput := textInput s; statusMessage := statusMessage s; blobs := blobs s; nextUrl := nextUrl s; liveAudio := liveAudio s; loading := loading s; pendingStarts := pendingStarts s; log := log s |}.
Definition set_textInput (v : string) (s : State) : State :=
  {| websocketOpen := websocketOpen s; isRecording := isRecording s; mediaRecorder := mediaRecorder s; audioContext := audioContext s; currentMode := currentMode s; audioQueue := audioQueue s; isPlayingAudio := isPlayingAudio s; hasShownAudioIndicator := hasShownAudioIndicator s; pendingAudioChunks := pendingAudioChunks s; pendingAudioMimeType := pendingAudioMimeType s; textInput := v; statusMessage := statusMessage s; blobs := blobs s; nextUrl := nextUrl s; liveAudio := liveAudio s; loading := loading s; pendingStarts := pendingStarts s; log := log s |}.
Definition set_statusMessage (v : string) (s : State) : State :=
  {| websocketOpen := websocketOpen s; isRecording := isRecording s; mediaRecorder := mediaRecorder s; audioContext := audioContext s; currentMode := currentMode s; audioQueue := audioQueue s; isPlayingAudio := isPlayingAudio s; hasShownAudioIndicator := hasShownAudioIndicator s; pendingAudioChunks := pendingAudioChunks s; pendingAudioMimeType := pendingAudioMimeType s; textInput := textInput s; statusMessage := v; blobs := blobs s; nextUrl := nextUrl s; liveAudio := liveAudio s; loading := loading s; pendingStarts := pendingStarts s; log := log s |}.
Definition set_blobs (v : list (nat * Uint8Array)) (s : State) : State :=
  {| websocketOpen := websocketOpen s; isRecording := isRecording s; mediaRecorder := mediaRecorder s; audioContext := audioContext s; currentMode := currentMode s; audioQueue := audioQueue s; isPlayingAudio := isPlayingAudio s; hasShownAudioIndicator := hasShownAudioIndicator s; pendingAudioChunks := pendingAudioChunks s; pendingAudioMimeType := pendingAudioMimeType s; textInput := textInput s; statusMessage := statusMessage s; blobs := v; nextUrl := nextUrl s; liveAudio := liveAudio s; loading := loading s; pendingStarts := pendingStarts s; log := log s |}.
Definition set_nextUrl (v : nat) (s : State) : State :=
  {| websocketOpen := websocketOpen s; isRecording := isRecording s; mediaRecorder := mediaRecorder s; audioContext := audioContext s; currentMode := currentMode s; audioQueue := audioQueue s; isPlayingAudio := isPlayingAudio s; hasShownAudioIndicator := hasShownAudioIndicator s; pendingAudioChunks := pendingAudioChunks s; pendingAudioMimeType := pendingAudioMimeType s; textInput := textInput s; statusMessage := statusMessage s; blobs := blobs s; nextUrl := v; liveAudio := liveAudio s; loading := loading s; pendingStarts := pendingStarts s; log := log s |}.
Definition set_liveAudio (v : list nat) (s : State) : State :=
  {| websocketOpen := websocketOpen s; isRecording := isRecording s; mediaRecorder := mediaRecorder s; audioContext := audioContext s; currentMode := currentMode s; audioQueue := audioQueue s; isPlayingAudio := isPlayingAudio s; hasShownAudioIndicator := hasShownAudioIndicator s; pendingAudioChunks := pendingAudioChunks s; pendingAudioMimeType := pendingAudioMimeType s; textInput := textInput s; statusMessage := statusMessage s; blobs := blobs s; nextUrl := nextUrl s; liveAudio := v; loading := loading s; pendingStarts := pendingStarts s; log := log s |}.
Definition set_loading (v : list nat) (s : State) : State :=
  {| websocketOpen := websocketOpen s; isRecording := isRecording s; mediaRecorder := mediaRecorder s; audioContext := audioContext s; currentMode := currentMode s; audioQueue := audioQueue s; isPlayingAudio := isPlayingAudio s; hasShownAudioIndicator := hasShownAudioIndicator s; pendingAudioChunks := pendingAudioChunks s; pendingAudioMimeType := pendingAudioMimeType s; textInput := textInput s; statusMessage := statusMessage s; blobs := blobs s; nextUrl := nextUrl s; liveAudio := liveAudio s; loading := v; pendingStarts := pendingStarts s; log := log s |}.
Definition set_pendingStarts (v : nat) (s : State) : State :=
  {| websocketOpen := websocketOpen s; isRecording := isRecording s; mediaRecorder := mediaRecorder s; audioContext := audioContext s; currentMode := currentMode s; audioQueue := audioQueue s; isPlayingAudio := isPlayingAudio s; hasShownAudioIndicator := hasShownAudioIndicator s; pendingAudioChunks := pendingAudioChunks s; pendingAudioMimeType := pendingAudioMimeType s; textInput := textInput s; statusMessage := statusMessage s; blobs := blobs s; nextUrl := nextUrl s; liveAudio := liveAudio s; loading := loading s; pendingStarts := v; log := log s |}.
Definition set_log (v : list Effect) (s : State) : State :=
  {| websocketOpen := websocketOpen s; isRecording := isRecording s; mediaRecorder := mediaRecorder s; audioContext := audioContext s; currentMode := currentMode s; audioQueue := audioQueue s; isPlayingAudio := isPlayingAudio s; hasShownAudioIndicator := hasShownAudioIndicator s; pendingAudioChunks := pendingAudioChunks s; pendingAudioMimeType := pendingAudioMimeType s; textInput := textInput s; statusMessage := statusMessage s; blobs := blobs s; nextUrl := nextUrl s; liveAudio := liveAudio s; loading := loading s; pendingStarts := pendingStarts s; log := v |}.

Definition initialState : State :=
  {| websocketOpen := false; isRecording := false; mediaRecorder := false;
     audioContext := false; currentMode := AudioMode; audioQueue := [];
     isPlayingAudio := false; hasShownAudioIndicator := false;
     pendingAudioChunks := []; pendingAudioMimeType := None; textInput := "";
     statusMessage := ""; blobs := []; nextUrl := 0%nat; liveAudio := [];
     loading := []; pendingStarts := 0%nat; log := [] |}.

Inductive ServerMessage : Type :=
| SConnected
| SSetupComplete
| SText (content : string)
| SAudio (audio mime_type : option string)
| STurnComplete
| SError (content : string)
| SToolCall
| STranscription (content : string)
| SOther.

Inductive Event : Type :=
| EvSocketOpen
| EvSocketError
| EvSocketClose
| EvReconnect
| EvMessage (m : ServerMessage)
| EvRecordClick
| EvMediaGranted
| EvMediaDenied
| EvAudioProcess (inputData : list Sample)
| EvSwitchMode (mode : Mode)
| EvTextInput (value : string)
| EvSendText
| EvAudioEnded (audio : nat)
| EvAudioError (audio : nat)
| EvLoadedMetadata (audio : nat) (validDuration : bool)
| EvPlayRejected (audio : nat)
| EvBeforeUnload.

Definition emit (e : Effect) (s : State) : State := set_log (log s ++ [e]) s.

Definition addMessage (text : string) (type : Sender) (s : State) : State :=
  emit (AddMessage text type) s.

Definition addSystemMessage (text : string) (isError : bool) (s : State) : State :=
  emit (AddSystemMessage text isError) s.

Definition updateConnectionStatus (status : ConnStatus) (text : string) (s : State)
  : State :=
  emit (UpdateConnectionStatus status text) s.

Definition switchMode (mode : Mode) (s : State) : State :=
  let s := set_currentMode mode s in
  let s := emit (ShowMode mode) s in
  set_statusMessage
    (match mode with
     | AudioMode => "Click to start recording"
     | TextMode => "Type your message below"
     end) s.

(** [connectToLiveAPI], and the callbacks it gives the socket. *)
Definition connectToLiveAPI (s : State) : State :=
  set_websocketOpen false (updateConnectionStatus Connecting "Connecting..." s).

Definition onopen (s : State) : State :=
  let s := set_websocketOpen true s in
  let s := updateConnectionStatus Connected "Connected" s in
  set_statusMessage "Ready! Click to start recording" s.

Definition onerror (s : State) : State :=
  let s := emit (ConsoleError "WebSocket error:") s in
  let s := updateConnectionStatus Disconnected "Error" s in
  set_statusMessage "Connection error" s.

Definition onclose (s : State) : State :=
  let s := set_websocketOpen false s in
  let s := updateConnectionStatus Disconnected "Disconnected" s in
  let s := set_statusMessage "Disconnected. Reconnecting..." s in
  emit Reconnect s.

Definition revokeObjectURL (url : nat) (s : State) : State :=
  emit (RevokeObjectURL url)
    (set_blobs (filter (fun b => negb (Nat.eqb (fst b) url)) (blobs s)) s).

Definition playNextAudio (s : State) : State :=
  match audioQueue s with
  | [] =>
      let s := set_isPlayingAudio false s in
      let s := set_hasShownAudioIndicator false s in
      set_statusMessage "Ready! Click to start recording" s
  | audioUrl :: rest =>
      let s := set_isPlayingAudio true s in
      let s := set_audioQueue rest s in
      let s := set_liveAudio (liveAudio s ++ [audioUrl]) s in
      let s := set_loading (loading s ++ [audioUrl]) s in
      let s := set_statusMessage "ðŸ”Š Playing response..." s in
      emit (AudioPlay audioUrl) s
  end.

(** [audio.onended], [audio.onerror] and [audio.onloadedmetadata] of the
    element made for [audioUrl]. *)
Definition onended (audioUrl : nat) (s : State) : State :=
  playNextAudio (revokeObjectURL audioUrl s).

Definition onaudioerror (audioUrl : nat) (s : State) : State :=
  playNextAudio (revokeObjectURL audioUrl (emit (ConsoleError "Error playing audio:") s)).

Definition onloadedmetadata (audioUrl : nat) (validDuration : bool) (s : State)
  : State :=
  if validDuration then s
  else
    playNextAudio
      (revokeObjectURL audioUrl (emit (ConsoleWarn "Invalid audio duration, skipping") s)).

Definition bufferAudioChunk (base64Audio mimeType : option string) (s : State)
  : State :=
  match base64Audio with
  | Some (String _ _ as b) =>
      match atob b with
      | None =>
          addSystemMessage "Error playing audio response" true
            (emit (ConsoleError "Error handling audio response:") s)
      | Some [] => s
      | Some bytes =>
          let s := set_pendingAudioChunks (pendingAudioChunks s ++ [bytes]) s in
          set_pendingAudioMimeType
            (js_or mimeType
               (js_or (pendingAudioMimeType s) (Some "audio/pcm;rate=24000"))) s
      end
  | _ => s
  end.

Definition finalizeAudioResponse (s : State) : State :=
  match pendingAudioChunks s with
  | [] => s
  | chunks =>
      let pcmBytes := concatUint8Arrays chunks in
      let sampleRate :=
        rate_or_default (getSampleRateFromMime (pendingAudioMimeType s)) in
      let wavBlob := createWavBlob pcmBytes sampleRate in
      let audioUrl := nextUrl s in
      let s := set_nextUrl (S audioUrl) (set_blobs ((audioUrl, wavBlob) :: blobs s) s) in
      let s := set_audioQueue (audioQueue s ++ [audioUrl]) s in
      let s := set_pendingAudioChunks [] s in
      let s := set_pendingAudioMimeType None s in
      let s := if hasShownAudioIndicator s then s
               else set_hasShownAudioIndicator true
                      (addSystemMessage "ðŸ”Š Playing audio response..." false s) in
      if isPlayingAudio s then s else playNextAudio s
  end.

Definition handleServerMessage (message : ServerMessage) (s : State) : State :=
  match message with
  | SConnected => addSystemMessage "Connected to OpenAI Realtime" false s
  | SSetupComplete => s
  | SText content => addMessage content Bot s
  | SAudio audio mime_type => bufferAudioChunk audio mime_type s
  | STurnComplete =>
      finalizeAudioResponse (set_statusMessage "Response complete" s)
  | SError content => addSystemMessage ("Error: " ++ content)%string true s
  | SToolCall => addSystemMessage "Using tools..." false s
  | STranscription content => addMessage content User s
  | SOther => s
  end.

(** [startVisualizer]: [updateVisualizer] runs once at once, and asks for
    the next frame only while a recording is active. *)
Definition startVisualizer (s : State) : State :=
  if isRecording s then emit AnimationFrame s else s.

(** [startRecording] up to its [await], what follows it, and its [catch]. *)
Definition startRecording (s : State) : State :=
  emit GetUserMedia (set_pendingStarts (S (pendingStarts s)) s).

Definition startRecording_granted (s : State) : State :=
  let s := set_audioContext true s in
  let s := startVisualizer s in
  let s := set_mediaRecorder true s in
  let s := set_isRecording true s in
  let s := emit (RecordButton true) s in
  let s := set_statusMessage "Recording... Click to stop" s in
  set_hasShownAudioIndicator false s.

Definition startRecording_denied (s : State) : State :=
  let s := emit (ConsoleError "Error starting recording:") s in
  let s := set_statusMessage "Failed to access microphone" s in
  emit (Alert "Could not access microphone. Please check permissions.") s.

Definition onaudioprocess (inputData : list Sample) (s : State) : State :=
  if negb (isRecording s) then s
  else
    let base64Audio := encodeCapture inputData in
    if websocketOpen s
    then emit (WsSend (OutAudio base64Audio "audio/pcm;rate=16000")) s
    else s.

Definition stopRecording (s : State) : State :=
  let s := set_isRecording false s in
  let s := if mediaRecorder s then emit CaptureReleased s else s in
  let s := if audioContext s
           then set_audioContext false (emit AudioContextClosed s) else s in
  let s := if websocketOpen s then emit (WsSend OutAudioStreamEnd) s else s in
  let s := emit VisualizerReset s in
  let s := emit (RecordButton false) s in
  set_statusMessage "Processing..." s.

Definition toggleRecording (s : State) : State :=
  if isRecording s then stopRecording s else startRecording s.

Definition sendTextMessage (s : State) : State :=
  let message := trim (textInput s) in
  if is_empty message || negb (websocketOpen s) then s
  else
    let s := addMessage message User s in
    let s :=
      emit (WsSend (OutText message
                      (match currentMode s with
                       | TextMode => ["text"]
                       | AudioMode => ["audio"; "text"]
                       end))) s in
    let s := set_textInput "" s in
    set_statusMessage "Waiting for response..." s.

(** The [beforeunload] listener: the socket is closed first. *)
Definition beforeunload (s : State) : State :=
  let s := emit SocketClose (set_websocketOpen false s) in
  if isRecording s then stopRecording s else s.

Definition remove (a : nat) (l : list nat) : list nat :=
  filter (fun x => negb (Nat.eqb x a)) l.

(** One task of the page.  An audio element ends or fails once, and reports
    its metadata once, before that. *)
Definition step (e : Event) (s : State) : State :=
  match e with
  | EvSocketOpen => onopen s
  | EvSocketError => onerror s
  | EvSocketClose => onclose s
  | EvReconnect => connectToLiveAPI s
  | EvMessage m => handleServerMessage m s
  | EvRecordClick => toggleRecording s
  | EvMediaGranted =>
      match pendingStarts s with
      | S n => startRecording_granted (set_pendingStarts n s)
      | O => s
      end
  | EvMediaDenied =>
      match pendingStarts s with
      | S n => startRecording_denied (set_pendingStarts n s)
      | O => s
      end
  | EvAudioProcess inputData => onaudioprocess inputData s
  | EvSwitchMode mode => switchMode mode s
  | EvTextInput value => set_textInput value s
  | EvSendText => sendTextMessage s
  | EvAudioEnded a =>
      if existsb (Nat.eqb a) (liveAudio s)
      then onended a (set_loading (remove a (loading s))
                        (set_liveAudio (remove a (liveAudio s)) s))
      else s
  | EvAudioError a =>
      if existsb (Nat.eqb a) (liveAudio s)
      then onaudioerror a (set_loading (remove a (loading s))
                             (set_liveAudio (remove a (liveAudio s)) s))
      else s
  | EvLoadedMetadata a valid =>
      if existsb (Nat.eqb a) (loading s)
      then onloadedmetadata a valid (set_loading (remove a (loading s)) s)
      else s
  | EvPlayRejected a =>
      if existsb (Nat.eqb a) (liveAudio s)
      then addSystemMessage "Click anywhere to enable audio playback" false
             (emit (ConsoleError "Autoplay failed:") s)
      else s
  | EvBeforeUnload => beforeunload s
  end.

Definition run (events : list Event) (s : State) : State :=
  fold_left (fun s e => step e s) events s.

End LiveChat.

(** ** Reasoning about the live chat page *)

Ltac live_handlers :=
  cbv beta iota zeta delta [
    LiveChat.websocketOpen LiveChat.isRecording LiveChat.mediaRecorder
    LiveChat.audioContext LiveChat.currentMode LiveChat.audioQueue
    LiveChat.isPlayingAudio LiveChat.hasShownAudioIndicator LiveChat.pendingAudioChunks
    LiveChat.pendingAudioMimeType LiveChat.textInput LiveChat.statusMessage
    LiveChat.blobs LiveChat.nextUrl LiveChat.liveAudio LiveChat.loading
    LiveChat.pendingStarts LiveChat.log LiveChat.set_websocketOpen
    LiveChat.set_isRecording LiveChat.set_mediaRecorder LiveChat.set_audioContext
    LiveChat.set_currentMode LiveChat.set_audioQueue LiveChat.set_isPlayingAudio
    LiveChat.set_hasShownAudioIndicator LiveChat.set_pendingAudioChunks
    LiveChat.set_pendingAudioMimeType LiveChat.set_textInput LiveChat.set_statusMessage
    LiveChat.set_blobs LiveChat.set_nextUrl LiveChat.set_liveAudio LiveChat.set_loading
    LiveChat.set_pendingStarts LiveChat.set_log LiveChat.emit LiveChat.addMessage
    LiveChat.addSystemMessage LiveChat.updateConnectionStatus LiveChat.switchMode
    LiveChat.connectToLiveAPI LiveChat.onopen LiveChat.onerror LiveChat.onclose
    LiveChat.revokeObjectURL LiveChat.playNextAudio LiveChat.onended
    LiveChat.onaudioerror LiveChat.onloadedmetadata LiveChat.bufferAudioChunk
    LiveChat.finalizeAudioResponse LiveChat.handleServerMessage
    LiveChat.startVisualizer LiveChat.startRecording LiveChat.startRecording_granted
    LiveChat.startRecording_denied LiveChat.onaudioprocess LiveChat.stopRecording
    LiveChat.toggleRecording LiveChat.sendTextMessage LiveChat.beforeunload
    LiveChat.remove LiveChat.step
    is_nil is_empty truthy js_or negb andb orb fst snd].

Ltac live_state s :=
  destruct s as [l_open l_recording l_recorder l_context l_mode l_queue l_playing l_indicator l_chunks l_mime l_input l_status l_blobs l_nextUrl l_live l_loading l_starts l_log];
  cbn in * |-.

(** ** The playback queue of the live chat page *)
Definition livePlayStep (st : option (option nat)) (e : LiveChat.Effect)
  : option (option nat) :=
  match st with
  | None => None
  | Some cur =>
      match e with
      | LiveChat.AudioPlay b =>
          match cur with
          | None => Some (Some b)
          | Some _ => None
          end
      | LiveChat.RevokeObjectURL a =>
          match cur with
          | Some c => if Nat.eqb c a then Some None else Some cur
          | None => Some None
          end
      | _ => Some cur
      end
  end.

(** Playback as the log of the live chat page tells it: [None] once a clip
    started while another played. *)
Definition livePlayTrace (l : list LiveChat.Effect) : option (option nat) :=
  fold_left livePlayStep l (Some None).

Definition liveIsPlay (e : LiveChat.Effect) : list nat :=
  match e with
  | LiveChat.AudioPlay a => [a]
  | _ => []
  end.

Definition livePlayed (s : LiveChat.State) : list nat :=
  flat_map liveIsPlay (LiveChat.log s).

Definition liveNeutral (e : LiveChat.Effect) : bool :=
  match e with
  | LiveChat.AudioPlay _ | LiveChat.RevokeObjectURL _ => false
  | _ => true
  end.

(** Every element reports a valid duration. *)
Definition validMetadata (e : LiveChat.Event) : bool :=
  match e with
  | LiveChat.EvLoadedMetadata _ valid => valid
  | _ => true
  end.

Definition liveQueueInv (s : LiveChat.State) : Prop :=
  ((LiveChat.isPlayingAudio s = false /\ LiveChat.liveAudio s = [])
   \/ exists a, LiveChat.liveAudio s = [a] /\ LiveChat.isPlayingAudio s = true)
  /\ livePlayTrace (LiveChat.log s) = Some (hd_error (LiveChat.liveAudio s))
  /\ ordered (LiveChat.nextUrl s) (livePlayed s ++ LiveChat.audioQueue s).

Ltac live_inv_start s I :=
  let I1 := fresh "I1" in let I2 := fresh "I2" in let I3 := fresh "I3" in
  destruct I as (I1 & I2 & I3);
  unfold liveQueueInv, livePlayed, livePlayTrace in *;
  live_state s;
  destruct I1 as [[?P ?L] | (?a & ?L & ?P)]; subst.

Ltac live_lists :=
  rewrite ?flat_map_app; cbn [flat_map liveIsPlay]; rewrite <- ?app_assoc; cbn [app];
  rewrite ?app_nil_r.

Ltac live_trace I2 :=
  rewrite ?fold_left_app, ?I2; cbn [fold_left livePlayStep hd_error app];
  rewrite ?Nat.eqb_refl; try reflexivity.

Ltac live_same I2 I3 :=
  first
    [ split; [left; split; reflexivity|]
    | split; [right; eexists; split; reflexivity|] ];
  (split; [live_trace I2 | live_lists; exact I3]).

(** An event that leaves the queue, the flag and the elements as they are,
    and adds neither a start nor a revocation. *)
Definition liveFrame (s s' : LiveChat.State) : Prop :=
  (LiveChat.audioQueue s', LiveChat.isPlayingAudio s', LiveChat.liveAudio s',
   LiveChat.nextUrl s')
  = (LiveChat.audioQueue s, LiveChat.isPlayingAudio s, LiveChat.liveAudio s,
     LiveChat.nextUrl s)
  /\ exists l, LiveChat.log s' = LiveChat.log s ++ l /\ forallb liveNeutral l = true.

Ltac live_frame_done :=
  (split; [reflexivity|]);
  first [ exists []; rewrite app_nil_r; split; reflexivity
        | rewrite <- ?app_assoc; cbn [app]; eexists; (split; [reflexivity | reflexivity]) ].

(** Two turns answered with audio, then the first clip ends. *)
Definition liveTwoTurns : list LiveChat.Event :=
  [LiveChat.EvSocketOpen;
   LiveChat.EvMessage (LiveChat.SAudio (Some "AAAA") None);
   LiveChat.EvMessage LiveChat.STurnComplete;
   LiveChat.EvMessage (LiveChat.SAudio (Some "AAAA") (Some "audio/pcm;rate=16000"));
   LiveChat.EvMessage LiveChat.STurnComplete;
   LiveChat.EvLoadedMetadata 0 true;
   LiveChat.EvAudioEnded 0].

(** Three turns answered with audio: the first clip plays, two wait. *)
Definition liveThreeClips : LiveChat.State :=
  LiveChat.run
    [LiveChat.EvMessage (LiveChat.SAudio (Some "AAAA") None);
     LiveChat.EvMessage LiveChat.STurnComplete;
     LiveChat.EvMessage (LiveChat.SAudio (Some "AAAA") None);
     LiveChat.EvMessage LiveChat.STurnComplete;
     LiveChat.EvMessage (LiveChat.SAudio (Some "AAAA") None);
     LiveChat.EvMessage LiveChat.STurnComplete] LiveChat.initialState.

(** ** Leaving the live chat page *)
Definition isLiveStreamEnd (e : LiveChat.Effect) : bool :=
  match e with
  | LiveChat.WsSend LiveChat.OutAudioStreamEnd => true
  | _ => false
  end.

(** The audio_stream_end envelopes sent so far. *)
Definition liveStreamEnds (s : LiveChat.State) : nat :=
  List.length (filter isLiveStreamEnd (LiveChat.log s)).


(** ** The visualizer of the live chat page *)
Definition isAnimationFrame (e : LiveChat.Effect) : bool :=
  match e with
  | LiveChat.AnimationFrame => true
  | _ => false
  end.

(** No click on the record button comes while the answer to a permission
    request is still awaited. *)
Fixpoint oneStartAtATime (events : list LiveChat.Event) (s : LiveChat.State) : bool :=
  match events with
  | [] => true
  | e :: r =>
      match e with
      | LiveChat.EvRecordClick => Nat.eqb (LiveChat.pendingStarts s) 0
      | _ => true
      end && oneStartAtATime r (LiveChat.step e s)
  end.

Definition visualizerInv (s : LiveChat.State) : Prop :=
  existsb isAnimationFrame (LiveChat.log s) = false
  /\ (LiveChat.pendingStarts s = 0%nat
      \/ (LiveChat.pendingStarts s = 1%nat /\ LiveChat.isRecording s = false)).

Ltac visualizer_done :=
  cbn [app]; rewrite ?existsb_app; cbn [existsb isAnimationFrame orb];
  rewrite ?orb_false_r;
  (split; [assumption|]);
  first [ left; reflexivity | right; split; reflexivity | assumption
        | match goal with
          | H : _ \/ _ |- _ =>
              destruct H as [H | [H ?]];
              [left; exact H | first [right; split; [exact H | reflexivity] | discriminate]]
          end ].

(** ** [formatMessage]

    The three replacements of [formatMessage], on the bytes of the text
    (UTF-8).  In a JS regular expression without the [s] flag a dot stands
    for any character but a line terminator: the line feed, the carriage
    return and U+2028, U+2029 (in UTF-8 the bytes E2 80 A8 and E2 80 A9). *)

Definition lineTerminatorAt (l : list Z) : bool :=
  match l with
  | a :: r =>
      (a =? 10) || (a =? 13)
      || match r with
         | b :: c :: _ => (a =? 226) && (b =? 128) && ((c =? 168) || (c =? 169))
         | _ => false
         end
  | [] => false
  end.

Definition startsWithStar (l : list Z) : bool :=
  match l with
  | a :: _ => a =? 42
  | [] => false
  end.

(** The first replacement: every line feed becomes [<br>]. *)
Fixpoint replaceBreaks (l : list Z) : list Z :=
  match l with
  | [] => []
  | c :: r => if c =? 10 then codes "<br>" ++ replaceBreaks r else c :: replaceBreaks r
  end.

(** The second pattern is two stars, a lazy run of dots, two stars.  The
    rest of a match after its opening stars: the shortest run of characters,
    none a line terminator, that two stars follow; the run and what comes
    after the closing stars. *)
Fixpoint boldClose (l : list Z) : option (list Z * list Z) :=
  match l with
  | [] => None
  | c :: r =>
      if (c =? 42) && startsWithStar r then Some ([], tl r)
      else if lineTerminatorAt l then None
      else match boldClose r with
           | Some (content, after) => Some (c :: content, after)
           | None => None
           end
  end.

(** The second replacement, global: each match becomes its run between
    [<strong>] and [</strong>]; the matches are found from left to right,
    each search resumes after the match before, and where no match starts
    the character is kept. *)
Fixpoint replaceBold (fuel : nat) (l : list Z) : list Z :=
  match fuel with
  | O => l
  | S k =>
      match l with
      | [] => []
      | c :: r =>
          if (c =? 42) && startsWithStar r then
            match boldClose (tl r) with
            | Some (content, after) =>
                codes "<strong>" ++ content ++ codes "</strong>" ++ replaceBold k after
            | None => c :: replaceBold k r
            end
          else c :: replaceBold k r
      end
  end.

(** The third pattern is a star that no star precedes or follows, a lazy
    run of dots, and again a star that no star precedes or follows.  The
    rest of a match after its opening star: the shortest run of characters,
    none a line terminator, followed by such a star; [prev] is the character
    before [l]. *)
Fixpoint italicClose (prev : Z) (l : list Z) : option (list Z * list Z) :=
  match l with
  | [] => None
  | c :: r =>
      if (c =? 42) && negb (prev =? 42) && negb (startsWithStar r) then Some ([], r)
      else if lineTerminatorAt l then None
      else match italicClose c r with
           | Some (content, after) => Some (c :: content, after)
           | None => None
           end
  end.

(** The third replacement, global: each match becomes its run between
    [<em>] and [</em>].  [prev] is the character before [l] in the text,
    none at its start (the look-behind reads the text, whatever was matched
    before). *)
Fixpoint replaceItalic (fuel : nat) (prev : option Z) (l : list Z) : list Z :=
  match fuel with
  | O => l
  | S k =>
      match l with
      | [] => []
      | c :: r =>
          let opens :=
            (c =? 42)
            && negb (match prev with Some p => p =? 42 | None => false end)
            && negb (startsWithStar r) in
          if opens then
            match italicClose c r with
            | Some (content, after) =>
                codes "<em>" ++ content ++ codes "</em>" ++ replaceItalic k (Some 42) after
            | None => c :: replaceItalic k (Some c) r
            end
          else c :: replaceItalic k (Some c) r
      end
  end.

Definition formatCodes (l : list Z) : list Z :=
  let l := replaceBreaks l in
  let l := replaceBold (List.length l) l in
  replaceItalic (List.length l) None l.

Definition formatMessage (text : string) : string := of_codes (formatCodes (codes text)).

(** No star in the text. *)
Definition starFree (l : list Z) : bool := forallb (fun c => negb (c =? 42)) l.

(** No line terminator in the text: at no place does one begin. *)
Fixpoint oneLine (l : list Z) : bool :=
  match l with
  | [] => true
  | _ :: r => negb (lineTerminatorAt l) && oneLine r
  end.

(** No star is followed by a star. *)
Fixpoint noStarPair (l : list Z) : bool :=
  match l with
  | [] => true
  | a :: r => negb ((a =? 42) && startsWithStar r) && noStarPair r
  end.

(** A byte that is no line feed. *)
Definition noFeed (c : Z) : bool := negb (c =? 10) && (0 <=? c) && (c <? 256).

(** ** Without the navigation microphone *)

(** A click on the navigation microphone. *)
Definition isNavMicClick (e : Event) : bool :=
  match e with
  | EvMicClick ModeNav => true
  | _ => false
  end.

(** A call of the assist endpoint, or an utterance given to the
    synthesiser. *)
Definition isAssistOrSpeech (e : Effect) : bool :=
  match e with
  | Fetch (FetchAssist _ _) => true
  | SpeechSpeak _ _ => true
  | _ => false
  end.

(** No navigation turn was ever begun: no answer is awaited for one, no
    recording in navigation mode is active or asked for, no assist call is
    in flight, and none was made. *)
Definition chatOnly (s : State) : Prop :=
  navAwaitingResponse s = false
  /\ activeRecordingMode s <> Some ModeNav
  /\ forallb (fun p => match fst p with ModeChat => true | ModeNav => false end)
       (pendingStarts s) = true
  /\ assistInFlight s = 0%nat
  /\ existsb isAssistOrSpeech (log s) = false.

Ltac chat_done :=
  repeat (match goal with |- _ /\ _ => split end);
  try reflexivity; try assumption; try discriminate;
  try (rewrite ?existsb_app;
       match goal with H : existsb isAssistOrSpeech _ = false |- _ => rewrite H end;
       reflexivity).

(** A spoken chat turn: the recording, its transcription, the answer in
    text and the end of the turn. *)
Definition chatTurn : list Event :=
  [EvSocketOpen; EvMicClick ModeChat; EvMediaGranted; EvMicClick ModeChat;
   EvMessage (MsgTranscription "open the players page");
   EvMessage (MsgText "Opening players."); EvMessage MsgTurnComplete].

(** ** The socket that is not open *)

(** An envelope sent on the socket. *)
Definition isWsSend (e : Effect) : bool :=
  match e with
  | WsSend _ => true
  | _ => false
  end.

Definition isSocketOpen (e : Event) : bool :=
  match e with
  | EvSocketOpen => true
  | _ => false
  end.

(** The state of the socket and what was sent on it. *)
Definition sendView (s : State) := (wsOpen s, filter isWsSend (log s)).

Ltac send_done :=
  unfold sendView; handlers; f_equal;
  rewrite ?filter_app; cbn [filter isWsSend]; rewrite ?app_nil_r; reflexivity.

(** ** The socket of the live chat page *)

Definition isLiveWsSend (e : LiveChat.Effect) : bool :=
  match e with
  | LiveChat.WsSend _ => true
  | _ => false
  end.

Definition isLiveSocketOpen (e : LiveChat.Event) : bool :=
  match e with
  | LiveChat.EvSocketOpen => true
  | _ => false
  end.

(** A recording begun before the socket has opened. *)
Definition liveRecordingOffline : LiveChat.State :=
  LiveChat.run [LiveChat.EvRecordClick; LiveChat.EvMediaGranted] LiveChat.initialState.

Ltac live_stuck :=
  repeat (match goal with
          | |- context [if ?c then _ else _] =>
              lazymatch c with
              | context [if _ then _ else _] => fail
              | _ => destruct c eqn:?
              end
          end; live_handlers).

(** The state of the socket and what was sent on it. *)
Definition liveSendView (s : LiveChat.State) :=
  (LiveChat.websocketOpen s, filter isLiveWsSend (LiveChat.log s)).

Ltac live_send_done :=
  unfold liveSendView; live_handlers; cbn [app]; live_handlers; live_stuck; f_equal;
  rewrite ?filter_app; cbn [filter isLiveWsSend]; rewrite ?app_nil_r; reflexivity.

(** * Properties *)

(** ** Typed arrays *)

Lemma typed_set_length (dst src : Uint8Array) (o : Z) :
  List.length (typed_set dst src o) = List.length dst.
Proof.
  unfold typed_set.
  rewrite length_firstn, !length_app, length_firstn, length_skipn. lia.
Qed.

Lemma typed_set_in_range (dst src : Uint8Array) (o : Z) :
  (Z.to_nat o + List.length src <= List.length dst)%nat ->
  typed_set dst src o
  = firstn (Z.to_nat o) dst ++ src ++ skipn (Z.to_nat o + List.length src) dst.
Proof.
  intros H. unfold typed_set. apply firstn_all2.
  rewrite !length_app, length_firstn, length_skipn. lia.
Qed.

Lemma byteLength_app (a b : Uint8Array) :
  byteLength (a ++ b) = byteLength a + byteLength b.
Proof. unfold byteLength. rewrite length_app. lia. Qed.

Lemma byteLength_nonneg (a : Uint8Array) : 0 <= byteLength a.
Proof. unfold byteLength. lia. Qed.

Lemma byteLength_newUint8Array (n : Z) : 0 <= n -> byteLength (newUint8Array n) = n.
Proof.
  intros H. unfold byteLength, newUint8Array. rewrite repeat_length. lia.
Qed.

Lemma total_length (chunks : list Uint8Array) (acc : Z) :
  fold_left (fun sum chunk => sum + byteLength chunk) chunks acc
  = acc + byteLength (List.concat chunks).
Proof.
  revert acc. induction chunks as [|c r IH]; intros acc; simpl.
  - unfold byteLength. simpl. lia.
  - rewrite IH, byteLength_app. lia.
Qed.

(** The loop of [concatUint8Arrays] fills the zeroed result from the left. *)
Lemma concat_loop_fills (chunks : list Uint8Array) (done : Uint8Array) :
  concat_loop chunks
    (done ++ repeat 0 (List.length (List.concat chunks))) (byteLength done)
  = done ++ List.concat chunks.
Proof.
  revert done. induction chunks as [|c r IH]; intros done; simpl.
  - reflexivity.
  - rewrite length_app, repeat_app.
    assert (E : typed_set (done ++ repeat 0 (List.length c)
                             ++ repeat 0 (List.length (List.concat r)))
                  c (byteLength done)
                = (done ++ c) ++ repeat 0 (List.length (List.concat r))).
    { unfold byteLength. rewrite typed_set_in_range.
      - rewrite Nat2Z.id, firstn_app, firstn_all, Nat.sub_diag.
        simpl firstn. rewrite app_nil_r.
        rewrite skipn_app, skipn_all2 by lia.
        replace (List.length done + List.length c - List.length done)%nat
          with (List.length c) by lia.
        rewrite skipn_app, skipn_all2 by (rewrite repeat_length; lia).
        rewrite repeat_length, Nat.sub_diag. simpl.
        now rewrite <- app_assoc.
      - rewrite Nat2Z.id, !length_app, !repeat_length. lia. }
    rewrite E.
    replace (byteLength done + byteLength c) with (byteLength (done ++ c))
      by apply byteLength_app.
    rewrite IH. now rewrite <- app_assoc.
Qed.

Lemma concatUint8Arrays_concat (chunks : list Uint8Array) :
  concatUint8Arrays chunks = List.concat chunks.
Proof.
  unfold concatUint8Arrays. rewrite total_length, Z.add_0_l.
  unfold newUint8Array, byteLength. rewrite Nat2Z.id.
  exact (concat_loop_fills chunks []).
Qed.

(** ** The WAV container *)

Definition byteOf (k v : Z) : Z := (v mod 4294967296 / 256 ^ k) mod 256.

Lemma wavHeader_bytes (d r : Z) :
  wavHeader d r
  = [82; 73; 70; 70;
     byteOf 0 (36 + d); byteOf 1 (36 + d); byteOf 2 (36 + d); byteOf 3 (36 + d);
     87; 65; 86; 69; 102; 109; 116; 32; 16; 0; 0; 0; 1; 0; 1; 0;
     byteOf 0 r; byteOf 1 r; byteOf 2 r; byteOf 3 r;
     byteOf 0 (r * 2); byteOf 1 (r * 2); byteOf 2 (r * 2); byteOf 3 (r * 2);
     2; 0; 16; 0; 100; 97; 116; 97;
     byteOf 0 d; byteOf 1 d; byteOf 2 d; byteOf 3 d].
Proof.
  unfold wavHeader, setUint32, setUint16, setUint8, byteOf.
  change (256 ^ 0) with 1. change (256 ^ 1) with 256.
  change (256 ^ 2) with 65536. change (256 ^ 3) with 16777216.
  rewrite !Z.div_1_r.
  change (1 * 16 / 8) with 2.
  generalize ((36 + d) mod 4294967296), (r mod 4294967296),
    (r * 2 mod 4294967296), (d mod 4294967296).
  intros a b c e.
  generalize (a mod 256), (a / 256 mod 256), (a / 65536 mod 256), (a / 16777216 mod 256),
    (b mod 256), (b / 256 mod 256), (b / 65536 mod 256), (b / 16777216 mod 256),
    (c mod 256), (c / 256 mod 256), (c / 65536 mod 256), (c / 16777216 mod 256),
    (e mod 256), (e / 256 mod 256), (e / 65536 mod 256), (e / 16777216 mod 256).
  intros. reflexivity.
Qed.

Lemma wavHeader_length (d r : Z) : List.length (wavHeader d r) = 44%nat.
Proof. rewrite wavHeader_bytes. reflexivity. Qed.

Lemma createWavBlob_layout (pcmBytes : Uint8Array) (sampleRate : Z) :
  createWavBlob pcmBytes sampleRate
  = wavHeader (byteLength pcmBytes) sampleRate ++ pcmBytes.
Proof.
  unfold createWavBlob.
  generalize (wavHeader_length (byteLength pcmBytes) sampleRate).
  generalize (wavHeader (byteLength pcmBytes) sampleRate).
  intros h Hh. cbv zeta.
  unfold newUint8Array.
  replace (Z.to_nat (44 + byteLength pcmBytes)) with (44 + List.length pcmBytes)%nat
    by (unfold byteLength; lia).
  rewrite repeat_app.
  generalize (repeat 0 44) (repeat_length 0 44). intros z44 Hz.
  assert (E : typed_set (z44 ++ repeat 0 (List.length pcmBytes)) h 0
              = h ++ repeat 0 (List.length pcmBytes)).
  { rewrite typed_set_in_range.
    - change (Z.to_nat 0) with 0%nat. rewrite firstn_O, Nat.add_0_l, Hh.
      rewrite skipn_app, skipn_all2 by lia.
      rewrite Hz, Nat.sub_diag, skipn_O. reflexivity.
    - rewrite Hh, length_app, repeat_length. change (Z.to_nat 0) with 0%nat. lia. }
  rewrite E. rewrite typed_set_in_range.
  - replace (Z.to_nat 44) with 44%nat by reflexivity.
    rewrite firstn_app, Hh, Nat.sub_diag, firstn_all2 by lia.
    rewrite firstn_O, app_nil_r.
    rewrite skipn_all2 by (rewrite length_app, repeat_length; lia).
    now rewrite app_nil_r.
  - rewrite length_app, repeat_length, Hh. replace (Z.to_nat 44) with 44%nat by reflexivity. lia.
Qed.

Lemma le_bytes (w : Z) :
  0 <= w < 4294967296 ->
  w mod 256 + 256 * (w / 256 mod 256) + 65536 * (w / 65536 mod 256)
    + 16777216 * (w / 16777216 mod 256) = w.
Proof.
  intros H. Z.to_euclidean_division_equations. lia.
Qed.

Lemma byteOf_sum (v : Z) :
  byteOf 0 v + 256 * byteOf 1 v + 65536 * byteOf 2 v + 16777216 * byteOf 3 v
  = v mod 4294967296.
Proof.
  unfold byteOf.
  change (256 ^ 0) with 1. change (256 ^ 1) with 256.
  change (256 ^ 2) with 65536. change (256 ^ 3) with 16777216.
  rewrite Z.div_1_r. apply le_bytes. apply Z.mod_pos_bound. lia.
Qed.

(** The three 32-bit fields of the header that depend on the input. *)
Lemma wav_fields (pcmBytes : Uint8Array) (sampleRate : Z) :
  let wav := createWavBlob pcmBytes sampleRate in
  getUint32 wav 4 = (36 + byteLength pcmBytes) mod 4294967296
  /\ getUint32 wav 24 = sampleRate mod 4294967296
  /\ getUint32 wav 40 = byteLength pcmBytes mod 4294967296.
Proof.
  cbv zeta. rewrite createWavBlob_layout, wavHeader_bytes.
  unfold getUint32, getUint8.
  repeat split; cbn [nth Z.to_nat Pos.to_nat Pos.iter_op Nat.add Z.add Pos.add
                     Pos.succ app]; apply byteOf_sum.
Qed.

Lemma wav_payload (pcmBytes : Uint8Array) (sampleRate : Z) :
  skipn 44 (createWavBlob pcmBytes sampleRate) = pcmBytes.
Proof.
  rewrite createWavBlob_layout.
  rewrite skipn_app, wavHeader_length, skipn_all2 by (rewrite wavHeader_length; lia).
  reflexivity.
Qed.

Lemma sumLengths_concat (frags : list Uint8Array) :
  byteLength (List.concat frags) = sumLengths frags.
Proof.
  unfold sumLengths. induction frags as [|f r IH]; simpl.
  - reflexivity.
  - rewrite byteLength_app, IH. reflexivity.
Qed.

(** Turn completion with fragments buffered and no suppression: the clip
    is built from the fragments and the remembered tag, registered under a
    new URL and handed to the queue. *)
Lemma turn_complete_clip (JSON_parse : string -> option Json) (s : State)
  (c : Uint8Array) (r : list Uint8Array) :
  pendingAudioChunks s = c :: r -> navSuppressRealtime s = false ->
  let s' := handleLiveMessage JSON_parse MsgTurnComplete s in
  lookupBlob (nextUrl s) s'
  = Some (createWavBlob (concatUint8Arrays (c :: r))
            (rate_or_default (getSampleRateFromMime (pendingAudioMimeType s))))
  /\ (In (nextUrl s) (audioQueue s') \/ activeAudio s' = Some (nextUrl s))
  /\ pendingAudioChunks s' = [] /\ pendingAudioMimeType s' = None.
Proof.
  intros Hc Hs s'. subst s'. unfold lookupBlob.
  destruct_state s. subst.
  destruct s_timeout as [[|?]|], s_indicator, s_isPlaying, s_queue,
    s_browser as [[] ? ?]; handlers.
  all: cbn; rewrite ?Nat.eqb_refl; cbn; repeat split; auto.
  all: left; try right; apply in_or_app; right; left; reflexivity.
Qed.

Lemma Some_eq (A : Type) (a b : A) : Some a = Some b -> a = b.
Proof. intros H. inversion H. reflexivity. Qed.

(** C2, as amended: when a turn completes without suppression, the payload
    of the assembled clip (the bytes after the 44-byte header) is the
    concatenation of the buffered fragments in arrival order, its length is
    the sum of their lengths, and the data-size field (offset 40) and the
    RIFF-size field (offset 4) hold that length and 36 plus that length
    modulo 2^32: the very values whenever 36 plus the length is below
    2^32. *)
Theorem C2_fragment_conservation (JSON_parse : string -> option Json) (s : State)
  (frags : list Uint8Array) :
  pendingAudioChunks s = frags -> frags <> [] ->
  navSuppressRealtime s = false ->
  let s' := handleLiveMessage JSON_parse MsgTurnComplete s in
  let n := sumLengths frags in
  exists wav,
    clipOf JSON_parse s = Some wav
    /\ (In (nextUrl s) (audioQueue s') \/ activeAudio s' = Some (nextUrl s))
    /\ skipn 44 wav = List.concat frags
    /\ byteLength (skipn 44 wav) = n
    /\ getUint32 wav 40 = n mod 4294967296
    /\ getUint32 wav 4 = (36 + n) mod 4294967296
    /\ (36 + n < 4294967296 -> conserved frags wav).
Proof.
  intros Hc Hne Hs s' n. destruct frags as [|c r]; [congruence|].
  destruct (turn_complete_clip JSON_parse s Hc Hs) as (Hb & Hq & _).
  unfold clipOf. subst s'. rewrite Hb. eexists. split; [reflexivity|].
  split; [exact Hq|].
  rewrite wav_payload, concatUint8Arrays_concat.
  pose proof (wav_fields (List.concat (c :: r))
                (rate_or_default (getSampleRateFromMime (pendingAudioMimeType s))))
    as (H4 & _ & H40).
  rewrite sumLengths_concat in H4, H40. fold n in H4, H40.
  assert (Hn : 0 <= n)
    by (subst n; rewrite <- sumLengths_concat; apply byteLength_nonneg).
  assert (Hl : byteLength (List.concat (c :: r)) = n) by apply sumLengths_concat.
  repeat split; auto.
  - apply wav_payload.
  - rewrite wav_payload. exact Hl.
  - rewrite H40. apply Z.mod_small. lia.
  - rewrite H4. apply Z.mod_small. lia.
Qed.

Lemma C2_fragment_conservation_witness :
  pendingAudioChunks smallTurn = [[1; 2; 3]; [4; 5]]
  /\ [[1; 2; 3]; [4; 5]] <> []
  /\ navSuppressRealtime smallTurn = false
  /\ exists wav,
       clipOf noJSON smallTurn = Some wav
       /\ (In (nextUrl smallTurn)
             (audioQueue (handleLiveMessage noJSON MsgTurnComplete smallTurn))
           \/ activeAudio (handleLiveMessage noJSON MsgTurnComplete smallTurn)
              = Some (nextUrl smallTurn))
       /\ skipn 44 wav = [1; 2; 3; 4; 5]
       /\ byteLength (skipn 44 wav) = 5
       /\ getUint32 wav 40 = 5
       /\ getUint32 wav 4 = 41
       /\ (36 + 5 < 4294967296 -> conserved [[1; 2; 3]; [4; 5]] wav).
Proof.
  split; [reflexivity|]. split; [discriminate|]. split; [reflexivity|].
  apply (@C2_fragment_conservation noJSON smallTurn [[1; 2; 3]; [4; 5]]);
    [reflexivity | discriminate | reflexivity].
Defined.

(** The fragment of [hugeTurn]: 2^32 - 36 bytes, and what the header of its
    clip holds at offset 4. *)
Lemma huge_length : byteLength (newUint8Array 4294967260) = 4294967260.
Proof. apply byteLength_newUint8Array; lia. Qed.

Lemma huge_nonempty : newUint8Array 4294967260 <> [].
Proof.
  intros E. pose proof huge_length as Hlen. rewrite E in Hlen. discriminate Hlen.
Qed.

Lemma huge_clip :
  clipOf noJSON hugeTurn
  = Some (createWavBlob (concatUint8Arrays [newUint8Array 4294967260])
            (rate_or_default (getSampleRateFromMime (pendingAudioMimeType hugeTurn)))).
Proof.
  assert (Hc : pendingAudioChunks hugeTurn = [newUint8Array 4294967260])
    by reflexivity.
  assert (Hs : navSuppressRealtime hugeTurn = false) by reflexivity.
  destruct (turn_complete_clip noJSON hugeTurn Hc Hs) as (Hb & _). exact Hb.
Qed.

Lemma huge_riff_field :
  getUint32 (createWavBlob (concatUint8Arrays [newUint8Array 4294967260])
               (rate_or_default (getSampleRateFromMime (pendingAudioMimeType hugeTurn))))
    4 = 0.
Proof.
  pose proof (wav_fields (concatUint8Arrays [newUint8Array 4294967260])
     (rate_or_default (getSampleRateFromMime (pendingAudioMimeType hugeTurn))))
    as (F4 & _).
  rewrite F4, concatUint8Arrays_concat, sumLengths_concat.
  unfold sumLengths. cbn [map fold_right]. rewrite huge_length. reflexivity.
Qed.

Lemma huge_sum : sumLengths (pendingAudioChunks hugeTurn) = 4294967260.
Proof.
  change (pendingAudioChunks hugeTurn) with [newUint8Array 4294967260].
  unfold sumLengths. cbn [map fold_right]. rewrite huge_length. reflexivity.
Qed.

(** C2 as stated fails for a turn that buffered 2^32 - 36 bytes: the
    RIFF-size field of its clip holds 0, not 2^32. *)
Lemma C2_counterexample :
  pendingAudioChunks hugeTurn = [newUint8Array 4294967260]
  /\ Forall (fun f => f <> []) (pendingAudioChunks hugeTurn)
  /\ navSuppressRealtime hugeTurn = false
  /\ ~ (exists wav, clipOf noJSON hugeTurn = Some wav
                    /\ conserved (pendingAudioChunks hugeTurn) wav).
Proof.
  split; [reflexivity|].
  split; [repeat constructor; exact huge_nonempty|].
  split; [reflexivity|].
  intros (wav & Hb & _ & _ & _ & H4).
  rewrite huge_clip in Hb. apply Some_eq in Hb. subst wav.
  rewrite huge_riff_field, huge_sum in H4. discriminate H4.
Qed.

(** ** The tag that governs a turn *)











(** ** The capture encoder *)

Lemma Qle_bool_false (a b : Q) : Qle_bool a b = false -> (b < a)%Q.
Proof.
  intros H. apply Qnot_le_lt. intros L. apply Qle_bool_iff in L. congruence.
Qed.

Lemma clampSample_clamped (q : Q) :
  exists c, clampSample (SNum q) = SNum c /\ clamped q c.
Proof.
  unfold clampSample, clamped.
  destruct (Qle_bool q 1) eqn:H1.
  - apply Qle_bool_iff in H1. destruct (Qle_bool (-1) q) eqn:H2.
    + apply Qle_bool_iff in H2. eexists. split; [reflexivity|].
      repeat split; auto; intros L.
      * exfalso. apply (Qlt_not_le _ _ L H1).
      * exfalso. apply (Qlt_not_le _ _ L H2).
    + apply Qle_bool_false in H2. eexists. split; [reflexivity|].
      repeat split; try (intros; reflexivity); try discriminate.
      * intros [L _]. exfalso. apply (Qlt_not_le _ _ H2 L).
      * intros L. exfalso. apply (Qlt_irrefl q).
        apply Qlt_trans with (-1)%Q; [exact H2|].
        apply Qlt_trans with 1%Q; [reflexivity | exact L].
  - apply Qle_bool_false in H1. change (Qle_bool (-1) 1) with true. cbv iota.
    eexists. split; [reflexivity|].
    repeat split; try (intros; reflexivity); try discriminate.
    + intros [_ L]. exfalso. apply (Qlt_not_le _ _ H1 L).
    + intros L. exfalso. apply (Qlt_irrefl q).
      apply Qlt_trans with (-1)%Q; [exact L|].
      apply Qlt_trans with 1%Q; [reflexivity | exact H1].
Qed.

Lemma truncate_scaled (c : Q) (k : Z) :
  0 < k -> (-1 <= c <= 1)%Q ->
  -k <= truncate (c * inject_Z k) <= k
  /\ ((0 <= c)%Q -> 0 <= truncate (c * inject_Z k))
  /\ ((c < 0)%Q -> truncate (c * inject_Z k) <= 0).
Proof.
  intros Hk [Hl Hu]. destruct c as [n d]. unfold truncate, Qle, Qlt in *.
  cbn [Qnum Qden Qmult inject_Z] in *.
  rewrite Pos.mul_1_r.
  assert (Hd : 0 < Z.pos d) by lia.
  assert (Hn : -Z.pos d <= n <= Z.pos d) by lia.
  clear Hl Hu.
  assert (Hq : forall m, 0 <= m <= Z.pos d -> 0 <= Z.quot (m * k) (Z.pos d) <= k).
  { intros m Hm. rewrite Z.quot_div_nonneg by nia. split.
    - apply Z.div_pos; nia.
    - apply Z.div_le_upper_bound; nia. }
  destruct (Z_lt_le_dec n 0) as [Hneg|Hpos].
  - replace (n * k) with (- ((- n) * k)) by lia. rewrite Z.quot_opp_l by lia.
    specialize (Hq (- n)). repeat split; intros; lia.
  - specialize (Hq n). repeat split; intros; lia.
Qed.

Lemma pcmSample_converted (x : Sample) : converted x (pcmSample x).
Proof.
  destruct x as [|q]; [reflexivity|]. unfold converted.
  destruct (clampSample_clamped q) as (c & Hc & Hcl).
  exists c. split; [exact Hc|]. split; [exact Hcl|].
  unfold pcmSample. rewrite Hc. destruct Hcl as (Hr & _).
  unfold scaleSample, toInt16. fold (truncate (c * 32768)) (truncate (c * 32767)).
  pose proof (truncate_scaled (k := 32768) eq_refl Hr) as (B1 & _ & N1).
  pose proof (truncate_scaled (k := 32767) eq_refl Hr) as (B2 & P2 & _).
  change (inject_Z 32768) with 32768%Q in *. change (inject_Z 32767) with 32767%Q in *.
  destruct (Qle_bool 0 c) eqn:H0; cbn [negb].
  - apply Qle_bool_iff in H0. specialize (P2 H0).
    fold (truncate (c * 32767)).
    rewrite Z.mod_small by lia.
    repeat split; try lia.
    intros L. exfalso. apply (Qlt_not_le _ _ L H0).
  - apply Qle_bool_false in H0. specialize (N1 H0).
    fold (truncate (c * 32768)).
    rewrite Z.mod_small by lia.
    repeat split; try lia.
    intros L. exfalso. apply (Qlt_not_le _ _ H0 L).
Qed.

(** C8, as amended: for a buffer delivered while recording is active and
    the socket is open, the callback sends one audio envelope tagged
    audio/pcm;rate=16000 whose payload is the base64 text of the samples'
    bytes, each sample clamped to [-1, 1], scaled by 32768 when negative and
    by 32767 otherwise, and stored as a 16-bit signed value. *)
Theorem C8_capture_encoding (JSON_parse : string -> option Json) (s : State)
  (inputData : list Sample) :
  isRecording s = true -> wsOpen s = true ->
  log (step JSON_parse (EvAudioProcess inputData) s)
  = log s ++ [captureEnvelope inputData]
  /\ Forall (fun x => converted x (pcmSample x)) inputData.
Proof.
  intros Hr Ho. split.
  - cbn [step]. unfold onaudioprocess. rewrite Hr, Ho. reflexivity.
  - apply Forall_forall. intros x _. apply pcmSample_converted.
Qed.

Lemma C8_capture_encoding_witness :
  isRecording recordingOnline = true /\ wsOpen recordingOnline = true
  /\ log (step noJSON (EvAudioProcess [SNum (1 # 2); SNum (-3); SNaN]) recordingOnline)
     = log recordingOnline ++ [captureEnvelope [SNum (1 # 2); SNum (-3); SNaN]]
  /\ Forall (fun x => converted x (pcmSample x)) [SNum (1 # 2); SNum (-3); SNaN].
Proof.
  split; [reflexivity|]. split; [reflexivity|].
  apply (@C8_capture_encoding noJSON recordingOnline [SNum (1 # 2); SNum (-3); SNaN]);
    reflexivity.
Defined.

(** C8 as stated fails while the socket is not open: the buffer is dropped
    although recording is active. *)
Lemma C8_counterexample :
  isRecording recordingOffline = true
  /\ log (step noJSON (EvAudioProcess [SNum (1 # 2)]) recordingOffline)
     = log recordingOffline.
Proof. split; reflexivity. Qed.

Example capture_bytes :
  captureEnvelope [SNum (1 # 2); SNum (-3); SNaN]
  = WsSend (OutAudio "/z8AgAAA" "audio/pcm;rate=16000").
Proof. reflexivity. Qed.

(** ** The capture path: stop and start *)

(** C5, as amended: [stopRecording] has no guard of its own (its callers
    invoke it only while recording).  Whatever the state, one call releases
    the capture nodes it finds, sends an audio_stream_end envelope when the
    socket is open, marks the answer as awaited and shows Processing...; a
    second call in a row changes no variable of the page, yet releases the
    capture nodes again, sends a second audio_stream_end when the socket is
    open and repeats the status update. *)
Theorem C5_stop_unguarded (s : State) :
  let s1 := stopRecording s in
  let s2 := stopRecording s1 in
  log s1 = log s ++ stopEffects s
  /\ awaitingRealtimeResponse s1 = true
  /\ set_log (log s1) s2 = s1
  /\ log s2 = log s1 ++ stopEffects s1
  /\ stopEffects s1
     = (if mediaRecorder s then [CaptureReleased] else [])
       ++ (if wsOpen s then [WsSend OutAudioStreamEnd] else [])
       ++ [UpdateConnectionStatus Connected "Processing..."].
Proof.
  destruct_state s. unfold stopEffects.
  destruct s_mediaRecorder, s_audioContext, s_wsOpen, s_target as [[]|],
    s_mode as [[]|]; handlers; cbn [app]; rewrite <- ?app_assoc; cbn [app];
    repeat split; reflexivity.
Qed.

(** C5 as stated fails on an idle page whose socket is open: the call is
    not a no-op, it sends an audio_stream_end envelope, and a second call
    sends another. *)
Lemma C5_counterexample :
  isRecording idleOnline = false
  /\ stopRecording idleOnline <> idleOnline
  /\ streamEnds idleOnline = 0%nat
  /\ streamEnds (stopRecording idleOnline) = 1%nat
  /\ streamEnds (stopRecording (stopRecording idleOnline)) = 2%nat.
Proof.
  split; [reflexivity|]. split; [|repeat split; reflexivity].
  intros E. apply (f_equal awaitingRealtimeResponse) in E. discriminate E.
Qed.



(** ** Exclusivity *)

(** Whatever the state and the answer: once a handled answer has been
    processed, a text envelope that is not a navigation payload is rendered
    and an audio envelope is dropped. *)
Lemma after_handled (J : string -> option Json) (s : State) (data : AssistData)
  (content : string) (a m : option string) :
  a_handled data = true -> isNavigationPayload J content = false ->
  let s1 := handleNavAssist_resume (AssistResp true data) s in
  navSuppressRealtime s1 = true /\ navAwaitingResponse s1 = false
  /\ awaitingRealtimeResponse s1 = false
  /\ (exists l, log (handleLiveMessage J (MsgText content) s1)
                = log s1 ++ AddMessage content Bot None false :: l)
  /\ handleLiveMessage J (MsgAudio a m) s1 = s1.
Proof.
  intros Hh Hn. unfold handleNavAssist_resume. rewrite Hh. cbv zeta.
  match goal with
  | |- context [set_navSuppressRealtime true ?x] => generalize x
  end.
  clear s. intros s. destruct_state s.
  destruct s_timeout as [[|?]|], s_lastText as [[|? ?]|], s_browser as [[] ? []];
    handlers; rewrite ?Hn; handlers; repeat split; try reflexivity.
  all: try (eexists; reflexivity).
  all: exists [NavRespondingClass false]; symmetry; apply (app_assoc _ [_] [_]).
Qed.

(** C1 at a failing run: the assist lookup answers a nav command with
    handled = true, its message is rendered and spoken; the text envelope
    of the agent that arrives next, before the turn completes, is rendered
    as a bot message all the same (the audio envelope is dropped). *)
Theorem C1_text_after_handled_is_rendered :
  navAwaitingResponse assistPending = true
  /\ navSuppressRealtime claimedTurn = true
  /\ existsb (isBotMessage "Opening the chat.") (log claimedTurn) = true
  /\ existsb (isBotMessage "Sure, the chat is open now.") (log claimedTurn) = false
  /\ existsb (isBotMessage "Sure, the chat is open now.")
       (log (step noJSON (EvMessage (MsgText "Sure, the chat is open now.")) claimedTurn))
     = true
  /\ pendingAudioChunks
       (step noJSON (EvMessage (MsgAudio (Some "AAAA") None)) claimedTurn) = [].
Proof. repeat split; reflexivity. Qed.

(** ** Frames *)

Lemma frame_refl (s : State) : frame s s.
Proof. split; [reflexivity|]. exists []. rewrite app_nil_r. auto. Qed.

Lemma frame_trans (a b c : State) : frame a b -> frame b c -> frame a c.
Proof.
  intros [V1 (l1 & L1 & Q1)] [V2 (l2 & L2 & Q2)]. split; [congruence|].
  exists (l1 ++ l2). rewrite L2, L1, app_assoc, forallb_app, Q1, Q2. auto.
Qed.

Lemma idle_frame (J : string -> option Json) (e : Event) (s : State) :
  idleEvent e = true ->
  frame s (step J e s) /\ lastResponseText (step J e s) = lastResponseText s.
Proof.
  intros He. unfold frame, turnView. destruct_state s.
  destruct s_browser as [b1 b2 b3].
  destruct e as [ | | |m|id|mode| | |d|r|v| |r|f|r|a|a|a| |p]; try discriminate He.
  all: try (destruct m; try discriminate He).
  all: try (destruct r as [|[] ?]; try discriminate He).
  all: crunch.
  all: (split; [|reflexivity]); (split; [reflexivity|]).
  all: try (exists []; rewrite app_nil_r; split; reflexivity).
  all: rewrite <- ?app_assoc; cbn [app]; eexists; (split; [reflexivity | reflexivity]).
Qed.

Lemma action_frame (action : AssistAction) (s : State) :
  frame s (executeAssistAction action s)
  /\ lastResponseText (executeAssistAction action s) = lastResponseText s.
Proof.
  unfold frame, turnView. destruct_state s. destruct s_browser as [b1 b2 b3].
  destruct action; crunch.
  all: (split; [|reflexivity]); (split; [reflexivity|]).
  all: try (exists []; rewrite app_nil_r; split; reflexivity).
  all: rewrite <- ?app_assoc; cbn [app]; eexists; (split; [reflexivity | reflexivity]).
Qed.

Lemma actions_frame (actions : list AssistAction) (s : State) :
  frame s (executeAssistActions actions s)
  /\ lastResponseText (executeAssistActions actions s) = lastResponseText s.
Proof.
  revert s. unfold executeAssistActions.
  induction actions as [|a r IH]; intros s; cbn [fold_left].
  - split; [apply frame_refl | reflexivity].
  - destruct (action_frame a s) as [F1 T1]. destruct (IH (executeAssistAction a s)) as [F2 T2].
    split; [exact (frame_trans F1 F2) | congruence].
Qed.

(** An answer of the assist endpoint that does not claim the turn. *)
Lemma unhandled_frame (J : string -> option Json) (data : AssistData) (s : State) :
  a_handled data = false ->
  let s' := step J (EvAssistResponse (AssistResp true data)) s in
  frame s s'
  /\ lastResponseText s'
     = (match assistInFlight s with
        | O => lastResponseText s
        | S _ => if truthy (a_message data) then a_message data else lastResponseText s
        end).
Proof.
  intros Hh. cbn [step]. destruct (assistInFlight s) as [|n] eqn:En.
  - cbv zeta. split; [apply frame_refl | reflexivity].
  - cbv beta iota zeta. unfold handleNavAssist_resume. rewrite Hh.
    set (s0 := set_assistInFlight n s).
    assert (F0 : frame s s0 /\ lastResponseText s0 = lastResponseText s).
    { subst s0. split; [|reflexivity]. split; [reflexivity|].
      exists []. rewrite app_nil_r. auto. }
    destruct F0 as [F0 T0]. clearbody s0.
    set (s1 := match a_message data with
               | Some (String _ _ as m) =>
                   set_lastResponseText (Some m) (addMessage m Bot (Some "navigation") false s0)
               | _ => s0
               end).
    assert (F1 : frame s0 s1
                 /\ lastResponseText s1
                    = if truthy (a_message data) then a_message data else lastResponseText s0).
    { subst s1. destruct (a_message data) as [[|c m]|]; cbn [truthy].
      - split; [apply frame_refl | reflexivity].
      - split; [|reflexivity]. split; [reflexivity|].
        eexists. split; [reflexivity | reflexivity].
      - split; [apply frame_refl | reflexivity]. }
    destruct F1 as [F1 T1]. clearbody s1. cbv zeta.
    destruct (a_actions data) as [actions|].
    + destruct (actions_frame actions s1) as [F2 T2].
      split; [exact (frame_trans F0 (frame_trans F1 F2)) | ].
      rewrite T2, T1, T0. reflexivity.
    + split; [exact (frame_trans F0 F1) | ]. rewrite T1, T0. reflexivity.
Qed.


Lemma frame_wf (s s' : State) : frame s s' -> timers_wf s -> timers_wf s'.
Proof.
  intros [V _] W. unfold turnView in V. injection V as; intros.
  unfold timers_wf in *. destruct W as [W | (id & t & W & T)].
  - left. congruence.
  - right. exists id, t. split; congruence.
Qed.

Lemma handled_step (J : string -> option Json) (data : AssistData) (s : State) (n : nat) :
  a_handled data = true -> assistInFlight s = S n ->
  exists s0, frame s s0
    /\ lastResponseText s0
       = (if truthy (a_message data) then a_message data else lastResponseText s)
    /\ step J (EvAssistResponse (AssistResp true data)) s = claimTurn s0.
Proof.
  intros Hh En.
  pose proof (@unhandled_frame J (mkAssistData (a_message data) (a_actions data) false) s
                eq_refl) as U.
  cbv zeta in U. rewrite En in U. cbn [step] in *. rewrite En in *.
  unfold handleNavAssist_resume in *. rewrite Hh. cbn [a_message a_actions a_handled] in U.
  eexists. split; [exact (proj1 U)|]. split; [exact (proj2 U)|]. reflexivity.
Qed.

(** ** The speech fallback *)

Lemma spoken_app (l l' : list Effect) :
  flat_map isSpeech l' = [] -> flat_map isSpeech (l ++ l') = flat_map isSpeech l.
Proof. intros E. rewrite flat_map_app, E. apply app_nil_r. Qed.

Lemma spoken_quiet (l l' : list Effect) :
  forallb quiet l' = true -> flat_map isSpeech (l ++ l') = flat_map isSpeech l.
Proof.
  intros Q. rewrite flat_map_app.
  replace (flat_map isSpeech l') with (@nil string); [apply app_nil_r|].
  induction l' as [|e r IH]; [reflexivity|].
  cbn [forallb] in Q. apply andb_prop in Q. destruct Q as [Q1 Q2].
  cbn [flat_map]. rewrite <- (IH Q2). destruct e; try discriminate Q1; reflexivity.
Qed.

Lemma frame_spoken (s s' : State) : frame s s' -> spoken s' = spoken s.
Proof.
  intros [_ (l & L & Q)]. unfold spoken. rewrite L. apply spoken_quiet, Q.
Qed.










(** ** Timer preemption *)

Lemma frame_buffered (said : list string) (s s' : State) :
  frame s s' -> buffered said s -> buffered said s'.
Proof.
  intros F (B1 & B2 & B3). pose proof (frame_spoken F) as Sp.
  destruct F as [V _]. unfold turnView in V. injection V as; intros.
  unfold buffered. repeat split; congruence.
Qed.

Ltac silent :=
  repeat split; try discriminate; try reflexivity;
  rewrite <- ?app_assoc; cbn [app]; apply spoken_app; reflexivity.

Lemma inTurn_buffered (J : string -> option Json) (e : Event) (said : list string)
  (s : State) :
  inTurn e = true -> buffered said s -> buffered said (step J e s).
Proof.
  intros I B. destruct (idleEvent e) eqn:Ie.
  { exact (frame_buffered (proj1 (idle_frame J e s Ie)) B). }
  destruct e as [ | | |m|id|mode| | |d|r|v| |r|f|r|a|a|a| |p];
    try discriminate Ie; try discriminate I.
  - (* messages *)
    destruct m as [ |content|a m| |message route| | | ];
      try discriminate Ie; try discriminate I.
    + (* text *)
      buffered_cases B.
      destruct (isNavigationPayload J content) eqn:N, s_navAwaiting,
        content as [|c0 content], s_timeout as [[|?]|];
        destruct b_nav;
        handlers; rewrite ?N; handlers; silent.
    + (* audio *)
      buffered_cases B.
      destruct a as [[|c0 a]|]; [| destruct (atob (String c0 a)) as [[|b l]|] eqn:E |];
        destruct s_navAwaiting, s_awaiting, s_timeout as [[|?]|];
        destruct b_nav;
        handlers; rewrite ?E; handlers; try silent.
      all: repeat split; try reflexivity; try (destruct s_chunks; discriminate).
    + (* navigate *)
      buffered_cases B.
      destruct message as [[|c0 message]|], route as [[|c1 route]|], s_navAwaiting,
        s_timeout as [[|?]|];
        destruct b_nav;
        handlers; silent.
  - (* timer *)
    buffered_cases B. destruct s_navAwaiting; handlers; stuck; silent.
  - (* microphone granted *)
    buffered_cases B.
    destruct s_starts as [|[mode b] ?];
      destruct b_nav; handlers; silent.
  - (* answer of the assist endpoint *)
    destruct r as [|[] data]; try discriminate Ie.
    cbn [inTurn] in I. apply negb_true_iff in I.
    exact (frame_buffered (proj1 (unhandled_frame J data s I)) B).
  - (* audio ended *)
    buffered_cases B.
    destruct s_queue, s_activeAudio as [x|]; handlers; stuck; silent.
  - (* audio failed *)
    buffered_cases B.
    destruct s_queue, s_activeAudio as [x|]; handlers; stuck; silent.
Qed.

Lemma run_buffered (J : string -> option Json) (evs : list Event)
  (said : list string) (s : State) :
  forallb inTurn evs = true -> buffered said s -> buffered said (run J evs s).
Proof.
  revert s. induction evs as [|e evs IH]; intros s I B; [exact B|].
  cbn [forallb] in I. apply andb_prop in I. destruct I as [I1 I2].
  unfold run. cbn [fold_left]. apply IH; [exact I2|].
  apply inTurn_buffered; assumption.
Qed.

Lemma turn_complete_buffered (J : string -> option Json) (said : list string)
  (s : State) :
  buffered said s -> spoken (step J (EvMessage MsgTurnComplete) s) = said.
Proof.
  intros B. buffered_cases B.
  destruct s_timeout as [[|?]|], s_indicator, s_isPlaying, s_queue, b_nav;
    handlers; cbn [app]; handlers; silent.
Qed.

Lemma audio_accepted (J : string -> option Json) (s : State) (a m : option string) :
  awaitingRealtimeResponse s = true -> navSuppressRealtime s = false ->
  buffers a = true -> timers_wf s ->
  let s1 := step J (EvMessage (MsgAudio a m)) s in
  buffered (spoken s) s1 /\ timers s1 = [].
Proof.
  intros H1 H2 H3 W. cbv zeta. unfold buffered, spoken, buffers in *.
  unfold timers_wf in W. destruct_state s. destruct s_browser as [b1 b2 b3]. subst.
  destruct a as [[|c0 a]|]; try discriminate H3.
  destruct (atob (String c0 a)) as [[|b l]|] eqn:E; try discriminate H3.
  destruct W as [W | (id & t & W & T)]; subst; try destruct s_timeout as [[|?]|];
    destruct b1; handlers; rewrite ?E; handlers; cbn [filter fst negb];
    rewrite ?Nat.eqb_refl; cbn [negb filter];
    repeat split; try reflexivity; try (destruct s_chunks; discriminate);
    rewrite <- ?app_assoc; cbn [app]; apply spoken_app; reflexivity.
Qed.

(** C4, as amended: an audio envelope that is accepted (the answer is
    awaited, the turn is not suppressed) and whose payload decodes to at
    least one byte cancels the pending fallback timer, and nothing is
    synthesized for the rest of the turn: not by a timer armed again by a
    later text, not by the completion of the turn, whatever events come in
    between, a microphone click and an answer that claims the turn apart. *)
Theorem C4_buffered_audio_preempts (JSON_parse : string -> option Json) (s : State)
  (a m : option string) (evs : list Event) :
  awaitingRealtimeResponse s = true -> navSuppressRealtime s = false ->
  buffers a = true -> timers_wf s -> forallb inTurn evs = true ->
  let s1 := step JSON_parse (EvMessage (MsgAudio a m)) s in
  let s2 := run JSON_parse evs s1 in
  timers s1 = []
  /\ spoken s2 = spoken s
  /\ spoken (step JSON_parse (EvMessage MsgTurnComplete) s2) = spoken s.
Proof.
  intros H1 H2 H3 W I s1 s2.
  destruct (@audio_accepted JSON_parse s a m H1 H2 H3 W) as [B T]. fold s1 in B, T.
  pose proof (@run_buffered JSON_parse evs _ _ I B) as B2. fold s2 in B2.
  split; [exact T|]. split; [exact (proj2 (proj2 B2))|].
  exact (@turn_complete_buffered JSON_parse _ _ B2).
Qed.




Lemma C4_buffered_audio_preempts_witness :
  awaitingRealtimeResponse timerArmed = true /\ navSuppressRealtime timerArmed = false
  /\ buffers (Some "AAAA") = true /\ timers_wf timerArmed
  /\ timers timerArmed = [(1%nat, 2500)]
  /\ forallb inTurn [EvMessage (MsgText "Here you go."); EvTimer 2%nat] = true
  /\ let s1 := step noJSON (EvMessage (MsgAudio (Some "AAAA") None)) timerArmed in
     let s2 := run noJSON [EvMessage (MsgText "Here you go."); EvTimer 2%nat] s1 in
     timers s1 = []
     /\ spoken s2 = spoken timerArmed
     /\ spoken (step noJSON (EvMessage MsgTurnComplete) s2) = spoken timerArmed.
Proof.
  assert (W : timers_wf timerArmed).
  { right. exists 0%nat, 2500. split; reflexivity. }
  split; [reflexivity|]. split; [reflexivity|]. split; [reflexivity|].
  split; [exact W|]. split; [reflexivity|]. split; [reflexivity|].
  apply (@C4_buffered_audio_preempts noJSON timerArmed (Some "AAAA") None
           [EvMessage (MsgText "Here you go."); EvTimer 2%nat]);
    [reflexivity | reflexivity | reflexivity | exact W | reflexivity].
Defined.

(** C4 as stated fails for an audio envelope with an empty payload: it is
    accepted (the answer is awaited, the turn is not suppressed) and
    cancels the armed timer, yet the completion of the turn speaks the
    remembered text. *)
Lemma C4_counterexample :
  timers timerArmed = [(1%nat, 2500)]
  /\ awaitingRealtimeResponse timerArmed = true
  /\ navSuppressRealtime timerArmed = false
  /\ let s1 := step noJSON (EvMessage (MsgAudio (Some "") None)) timerArmed in
     timers s1 = []
     /\ spoken s1 = []
     /\ spoken (step noJSON (EvMessage MsgTurnComplete) s1) = ["One moment."].
Proof. repeat split; reflexivity. Qed.

(** ** The playback queue *)

Lemma playStep_neutral (l : list Effect) (st : option (option nat)) :
  forallb neutral l = true -> fold_left (playStep true) l st = st.
Proof.
  revert st. induction l as [|e r IH]; intros st N; [reflexivity|].
  cbn [forallb] in N. apply andb_prop in N. destruct N as [N1 N2].
  cbn [fold_left]. rewrite (IH _ N2).
  destruct st as [cur|]; [|reflexivity]. destruct e; try discriminate N1; reflexivity.
Qed.

Lemma isPlay_neutral (l : list Effect) :
  forallb neutral l = true -> flat_map isPlay l = [].
Proof.
  induction l as [|e r IH]; intros N; [reflexivity|].
  cbn [forallb] in N. apply andb_prop in N. destruct N as [N1 N2].
  cbn [flat_map]. rewrite (IH N2). destruct e; try discriminate N1; reflexivity.
Qed.

Lemma quiet_neutral (l : list Effect) :
  forallb quiet l = true -> forallb neutral l = true.
Proof.
  induction l as [|e r IH]; intros Q; [reflexivity|].
  cbn [forallb] in *. apply andb_prop in Q. destruct Q as [Q1 Q2].
  rewrite (IH Q2). destruct e; try discriminate Q1; reflexivity.
Qed.

Lemma frame_pframe (s s' : State) : frame s s' -> pframe s s'.
Proof.
  intros [V (l & L & Q)]. unfold turnView in V. injection V as; intros.
  split; [unfold playbackView; congruence|].
  exists l. split; [exact L | exact (quiet_neutral _ Q)].
Qed.

Lemma pframe_inv (s s' : State) : pframe s s' -> queueInv s -> queueInv s'.
Proof.
  intros [V (l & L & N)] (I1 & I2 & I3).
  unfold playbackView in V. injection V as Vq Vp Va Vl Vn.
  assert (P : played s' = played s).
  { unfold played. rewrite L, flat_map_app, (isPlay_neutral _ N). apply app_nil_r. }
  unfold queueInv, playTrace. rewrite P, L, fold_left_app.
  fold (playTrace true (log s)). rewrite I2, (playStep_neutral _ _ N).
  rewrite Vq, Vp, Va, Vl, Vn. split; [exact I1|]. split; [reflexivity | exact I3].
Qed.

Lemma claimTurn_pframe (s : State) : pframe s (claimTurn s).
Proof.
  pframe_start s. unfold claimTurn.
  destruct s_timeout as [[|id]|], s_lastText as [[|c t]|], b_speech; handlers; cbn [app].
  all: pframe_done.
Qed.

Lemma pframe_refl (s : State) : pframe s s.
Proof. split; [reflexivity|]. exists []. rewrite app_nil_r. auto. Qed.

Lemma pframe_trans (a b c : State) : pframe a b -> pframe b c -> pframe a c.
Proof.
  intros [V1 (l1 & L1 & Q1)] [V2 (l2 & L2 & Q2)]. split; [congruence|].
  exists (l1 ++ l2). rewrite L2, L1, app_assoc, forallb_app, Q1, Q2. auto.
Qed.

Lemma assist_pframe (J : string -> option Json) (r : AssistResult) (s : State) :
  pframe s (step J (EvAssistResponse r) s).
Proof.
  destruct r as [|[|] data].
  - apply frame_pframe, (@idle_frame J (EvAssistResponse AssistFailed) s eq_refl).
  - destruct (a_handled data) eqn:Hh.
    + destruct (assistInFlight s) as [|n] eqn:En.
      * cbn [step]. rewrite En. apply pframe_refl.
      * destruct (@handled_step J data s n Hh En) as (s0 & F & _ & E).
        rewrite E. exact (pframe_trans (frame_pframe F) (claimTurn_pframe s0)).
    + apply frame_pframe, (@unhandled_frame J data s Hh).
  - apply frame_pframe, (@idle_frame J (EvAssistResponse (AssistResp false data)) s eq_refl).
Qed.

Lemma text_pframe (J : string -> option Json) (content : string) (s : State) :
  pframe s (step J (EvMessage (MsgText content)) s).
Proof.
  pframe_start s. destruct content as [|c t].
  all: match goal with
       | |- context [MsgText ?x] => destruct (isNavigationPayload J x) eqn:En
       end.
  all: destruct s_suppress, s_navAwaiting, b_nav,
    s_timeout as [[|id]|]; handlers; rewrite ?En; handlers; cbn [app].
  all: pframe_done.
Qed.

Lemma audio_pframe (J : string -> option Json) (audio mime : option string) (s : State) :
  pframe s (step J (EvMessage (MsgAudio audio mime)) s).
Proof.
  pframe_start s.
  destruct audio as [[|c t]|].
  2: destruct (atob (String c t)) as [[|x r]|] eqn:Ea.
  all: destruct s_suppress, s_navAwaiting, s_awaiting, b_nav, s_timeout as [[|id]|];
    handlers; rewrite ?Ea; handlers; cbn [app].
  all: pframe_done.
Qed.

Lemma navigate_pframe (J : string -> option Json) (message route : option string)
  (s : State) :
  pframe s (step J (EvMessage (MsgNavigate message route)) s).
Proof.
  pframe_start s.
  destruct message as [[|c t]|], route as [[|c' t']|].
  all: destruct s_suppress, s_navAwaiting, b_nav, s_timeout as [[|id]|];
    handlers; cbn [app]; handlers; stuck; cbn [app].
  all: pframe_done.
Qed.

Lemma timer_pframe (J : string -> option Json) (id : nat) (s : State) :
  pframe s (step J (EvTimer id) s).
Proof.
  pframe_start s.
  destruct s_navAwaiting, s_chunks, s_lastText as [[|c t]|], b_speech;
    handlers; stuck; cbn [app].
  all: pframe_done.
Qed.

Lemma granted_pframe (J : string -> option Json) (s : State) :
  pframe s (step J EvMediaGranted s).
Proof.
  pframe_start s.
  destruct s_starts as [|[mode b] r], b_nav; handlers; cbn [app].
  all: pframe_done.
Qed.

Lemma stop_pframe (s : State) : pframe s (stopRecording s).
Proof.
  pframe_start s.
  destruct s_mediaRecorder, s_audioContext, s_wsOpen, s_target, s_mode as [[|]|];
    handlers; cbn [app].
  all: pframe_done.
Qed.

Lemma ordered_snoc (n : nat) (l l' : list nat) :
  ordered n l -> l' = l ++ [n] -> ordered (S n) l'.
Proof.
  intros [So Bo] ->. split.
  - clear -So Bo. induction l as [|a r IH]; cbn [app].
    + repeat constructor.
    + inversion So as [|? ? So' Lt]; subst. inversion Bo as [|? ? Ba Bo']; subst.
      constructor; [exact (IH So' Bo')|].
      apply Forall_app. split; [exact Lt | constructor; [exact Ba | constructor]].
  - apply Forall_app. split.
    + eapply Forall_impl; [|exact Bo]. cbn. intros a Ha. apply Nat.lt_lt_succ_r, Ha.
    + constructor; [apply Nat.lt_succ_diag_r | constructor].
Qed.

Lemma ordered_prefix (n : nat) (l r : list nat) : ordered n (l ++ r) -> ordered n l.
Proof.
  intros [So Bo]. split.
  - clear -So. induction l as [|a l IH]; cbn [app] in *; [constructor|].
    inversion So as [|? ? So' Lt]; subst. constructor; [exact (IH So')|].
    apply Forall_app in Lt. apply Lt.
  - apply Forall_app in Bo. apply Bo.
Qed.

Lemma reset_inv (s : State) : queueInv s -> queueInv (resetAudioPlaybackState s).
Proof.
  intros I. inv_start s I.
  - destruct s_activeAudio as [a|]; handlers; cbn [filter].
    + split; [left; split; reflexivity|]. split; [trace I2|].
      lists. lists. exact (ordered_prefix _ _ I3).
    + split; [left; split; reflexivity|]. split; [exact I2|].
      lists. exact (ordered_prefix _ _ I3).
  - handlers. cbn [filter]. rewrite Nat.eqb_refl. cbn [negb].
    split; [left; split; reflexivity|]. split; [trace I2|].
    lists. lists. exact (ordered_prefix _ _ I3).
Qed.

Lemma finalize_inv (s : State) : queueInv s -> queueInv (finalizeAudioResponse s).
Proof.
  intros I. inv_start s I.
  - destruct s_chunks as [|c r]; [handlers; split; [left; split; reflexivity|]; split; assumption|].
    destruct s_indicator, s_queue as [|q qs]; handlers; cbn [app]; handlers.
    all: split; [right; eexists; repeat split|].
    all: split; [trace I2|].
    all: lists; eapply ordered_snoc; [exact I3 | lists; reflexivity].
  - destruct s_chunks as [|c r];
      [handlers; split; [right; eexists; repeat split|]; split; assumption|].
    destruct s_indicator; handlers.
    all: split; [right; eexists; repeat split|].
    all: split; [trace I2|].
    all: lists; eapply ordered_snoc; [exact I3 | lists; reflexivity].
Qed.

Lemma existsb_single (a b : nat) : existsb (Nat.eqb a) [b] = true -> a = b.
Proof. cbn. rewrite orb_false_r. apply Nat.eqb_eq. Qed.

Lemma audioFinished_inv (audio : nat) (s : State) :
  queueInv s -> existsb (Nat.eqb audio) (liveAudio s) = true ->
  queueInv (audioFinished audio s).
Proof.
  intros I Ex. inv_start s I; [discriminate Ex|].
  apply existsb_single in Ex. subst audio.
  destruct s_queue as [|q qs]; handlers; cbn [filter]; rewrite !Nat.eqb_refl; handlers;
    cbn [filter app].
  - split; [left; split; reflexivity|]. split; [trace I2|]. lists. lists.
    rewrite app_nil_r in I3. exact I3.
  - split; [right; eexists; repeat split|]. split; [trace I2|]. lists. exact I3.
Qed.

Lemma clearNav_pframe (s : State) : pframe s (clearNavSpeechFallback s).
Proof.
  pframe_start s. destruct s_timeout as [[|id]|]; handlers. all: pframe_done.
Qed.

Lemma speak_pframe (text : option string) (s : State) :
  pframe s (speakTextResponse text s).
Proof.
  pframe_start s. destruct text as [[|c t]|], b_speech; handlers; cbn [app].
  all: pframe_done.
Qed.

Lemma turn_end_pframe (suppressed : bool) (s : State) :
  pframe s
    (setNavResponding false
       (set_awaitingRealtimeResponse false
          (set_navAwaitingResponse false
             (set_lastResponseText None
                (if suppressed
                 then set_navSuppressRealtime false (set_pendingAudioChunks [] s)
                 else s))))).
Proof.
  pframe_start s. destruct suppressed, b_nav; handlers. all: pframe_done.
Qed.

Lemma turn_complete_inv (J : string -> option Json) (s : State) :
  queueInv s -> queueInv (step J (EvMessage MsgTurnComplete) s).
Proof.
  intros I. cbv beta iota zeta delta [step handleLiveMessage].
  pose proof (pframe_inv (clearNav_pframe s) I) as I0.
  set (s0 := clearNavSpeechFallback s) in *. clearbody s0.
  destruct (navSuppressRealtime s0).
  - exact (pframe_inv (turn_end_pframe true s0) I0).
  - apply (pframe_inv (turn_end_pframe false _)).
    destruct (negb (is_nil (pendingAudioChunks s0))).
    + exact (finalize_inv I0).
    + destruct (navAwaitingResponse s0 && truthy (lastResponseText s0)).
      * exact (pframe_inv (speak_pframe _ s0) I0).
      * exact I0.
Qed.

Lemma start_inv (mode : RecordingMode) (buttonEl : Button) (s : State) :
  queueInv s -> queueInv (startRecording mode buttonEl s).
Proof.
  intros I. unfold startRecording. destruct (isRecording s); [exact I|].
  assert (P0 : pframe s (resetNavAssistState s)).
  { pframe_start s. destruct s_timeout as [[|id]|]; handlers. all: pframe_done. }
  pose proof (reset_inv (pframe_inv P0 I)) as I1.
  set (s1 := resetAudioPlaybackState (resetNavAssistState s)) in *. clearbody s1.
  refine (pframe_inv _ I1). split; [reflexivity|].
  eexists. split; [reflexivity | reflexivity].
Qed.

Lemma click_inv (J : string -> option Json) (mode : RecordingMode) (s : State) :
  queueInv s -> queueInv (step J (EvMicClick mode) s).
Proof.
  intros I.
  assert (T : forall b, queueInv (toggleRecording mode b s)).
  { intros b. unfold toggleRecording. destruct (isRecording s).
    - exact (pframe_inv (stop_pframe s) I).
    - exact (start_inv mode b I). }
  destruct mode; cbn [step]; [apply T|].
  destruct (hasNavMicButton (browser s)); [apply T | exact I].
Qed.

Lemma step_inv (J : string -> option Json) (e : Event) (s : State) :
  queueInv s -> queueInv (step J e s).
Proof.
  intros I.
  destruct (idleEvent e) eqn:Ie.
  { exact (pframe_inv (frame_pframe (proj1 (@idle_frame J e s Ie))) I). }
  destruct e as [ | | |m|id|mode| | |d|r|v| |r|f|r|a|a|a| |p]; try discriminate Ie.
  - destruct m; try discriminate Ie.
    + exact (pframe_inv (text_pframe J _ s) I).
    + exact (pframe_inv (audio_pframe J _ _ s) I).
    + exact (pframe_inv (navigate_pframe J _ _ s) I).
    + exact (turn_complete_inv J I).
  - exact (pframe_inv (timer_pframe J id s) I).
  - exact (click_inv J mode I).
  - exact (pframe_inv (granted_pframe J s) I).
  - exact (pframe_inv (assist_pframe J r s) I).
  - cbn [step]. destruct (existsb (Nat.eqb a) (liveAudio s)) eqn:Ex;
      [exact (audioFinished_inv a I Ex) | exact I].
  - cbn [step]. destruct (existsb (Nat.eqb a) (liveAudio s)) eqn:Ex;
      [exact (audioFinished_inv a I Ex) | exact I].
Qed.

Lemma initial_inv (b : Browser) : queueInv (initialState b).
Proof.
  split; [left; split; reflexivity|]. split; [reflexivity|].
  split; constructor.
Qed.





Lemma sorted_apart (x y z : list nat) (a b : nat) :
  StronglySorted lt (x ++ a :: y ++ b :: z) -> (a < b)%nat.
Proof.
  induction x as [|c x IH]; cbn [app]; intros So.
  - inversion So as [|? ? _ Lt]; subst. rewrite Forall_forall in Lt.
    apply Lt, in_or_app. right. left. reflexivity.
  - inversion So; subst. auto.
Qed.


Lemma two_clips_in_turn :
  activeAudio twoClips = Some 0%nat /\ audioQueue twoClips = [1%nat]
  /\ playbackEffects (run noJSON [EvAudioEnded 0; EvAudioError 1] twoClips)
     = [AudioPlay 0; RevokeObjectURL 0; AudioPlay 1; RevokeObjectURL 1]
  /\ isPlayingAudio (run noJSON [EvAudioEnded 0; EvAudioError 1] twoClips) = false.
Proof. repeat split; reflexivity. Qed.




(** ** HTTP failures *)

(** C9, amended.  A failing query shows an error message in the conversation
    and a failing upload shows the error in the upload status; the guards
    ([isProcessing] and the send button, the upload button) are released
    whatever the answer.  A failing assist lookup is only written to the
    console: the page shows nothing, and no guard was set for it. *)
Theorem C9_http_failures (rq : QueryResult) (ru : UploadResult) (ra : AssistResult)
  (name transcript : string) (s : State) :
  (isProcessing (handleSendMessage_resume rq s) = false
   /\ sendButtonDisabled (handleSendMessage_resume rq s) = false
   /\ (queryFails rq = true ->
       log (handleSendMessage_resume rq s)
       = log s ++ [ConsoleError "Error:"; RemoveLoadingMessage;
                   AddMessage
                     "Sorry, I encountered an error processing your request. Please try again."
                     Bot None true;
                   FocusMessageInput]))
  /\ (uploadButtonDisabled (handleFileUpload_resume name ru s) = false
      /\ (uploadFails ru = true ->
          log (handleFileUpload_resume name ru s)
          = log s ++ [ConsoleError "Upload error:";
                      UploadStatus ("✗ Error: " ++ uploadErrorMessage ru)
                        "upload-status error"]))
  /\ (assistFails ra = true ->
      handleNavAssist_resume ra s = emit (ConsoleError "Nav assist error:") s)
  /\ pageOf (handleNavAssist transcript s) = pageOf s.
Proof.
  split; [|split; [|split]].
  - destruct_state s.
    destruct rq as [|[|] [[content tool route session]|]]; handlers.
    2: destruct session as [[|c0 t0]|], content as [c|], route as [[|c1 t1]|]; handlers.
    all: rewrite <- ?app_assoc; cbn [app].
    all: repeat split; try reflexivity; try discriminate.
  - destruct_state s.
    destruct ru as [m|[|] [[|c d]|]]; handlers.
    all: rewrite <- ?app_assoc; cbn [app].
    all: repeat split; try reflexivity; try discriminate.
  - intros F. destruct ra as [|[|] data]; [reflexivity | discriminate F | reflexivity].
  - destruct_state s. unfold pageOf.
    destruct s_navAwaiting, transcript; handlers; reflexivity.
Qed.

Lemma C9_http_failures_witness :
  queryFails (QueryResp false None) = true
  /\ uploadFails (UploadResp false (Some "Unsupported file type")) = true
  /\ assistFails AssistFailed = true
  /\ isProcessing queryPending = true
  /\ isProcessing (handleSendMessage_resume (QueryResp false None) queryPending) = false
  /\ log (handleSendMessage_resume (QueryResp false None) queryPending)
     = log queryPending
       ++ [ConsoleError "Error:"; RemoveLoadingMessage;
           AddMessage
             "Sorry, I encountered an error processing your request. Please try again."
             Bot None true;
           FocusMessageInput]
  /\ log (handleFileUpload_resume "rules.pdf"
            (UploadResp false (Some "Unsupported file type")) uploadPending)
     = log uploadPending
       ++ [ConsoleError "Upload error:";
           UploadStatus "✗ Error: Unsupported file type" "upload-status error"]
  /\ handleNavAssist_resume AssistFailed assistPending
     = emit (ConsoleError "Nav assist error:") assistPending.
Proof.
  pose proof (C9_http_failures (QueryResp false None)
                (UploadResp false (Some "Unsupported file type")) AssistFailed
                "rules.pdf" "open the chat" queryPending) as Hq.
  pose proof (C9_http_failures (QueryResp false None)
                (UploadResp false (Some "Unsupported file type")) AssistFailed
                "rules.pdf" "open the chat" uploadPending) as Hu.
  pose proof (C9_http_failures (QueryResp false None)
                (UploadResp false (Some "Unsupported file type")) AssistFailed
                "rules.pdf" "open the chat" assistPending) as Ha.
  destruct Hq as ((Hp & _ & Hq) & _). destruct Hu as (_ & (_ & Hu) & _).
  destruct Ha as (_ & _ & Ha & _).
  split; [reflexivity|]. split; [reflexivity|]. split; [reflexivity|].
  split; [reflexivity|]. split; [exact Hp|].
  split; [exact (Hq eq_refl)|].
  split; [exact (Hu eq_refl)|].
  exact (Ha eq_refl).
Defined.

(** C9 as it is worded fails on the assist path: the failure of the lookup
    reaches the console only, nothing on the page shows it. *)
Lemma C9_counterexample :
  assistInFlight assistPending = 1%nat
  /\ existsb visibleError (log assistPending) = false
  /\ log (step noJSON (EvAssistResponse AssistFailed) assistPending)
     = log assistPending ++ [ConsoleError "Nav assist error:"]
  /\ existsb visibleError (log (step noJSON (EvAssistResponse AssistFailed) assistPending))
     = false
  /\ log (step noJSON
            (EvAssistResponse (AssistResp false (mkAssistData None None false)))
            assistPending)
     = log assistPending ++ [ConsoleError "Nav assist error:"].
Proof. repeat (match goal with |- _ /\ _ => split end); vm_compute; reflexivity. Qed.

(** ** The pending timers *)

Lemma clearNav_wf (s : State) : timers_wf s -> timers_wf (clearNavSpeechFallback s).
Proof.
  intros W. wf_cases W; [destruct s_timeout as [[|id]|]|]; handlers; wf_done.
Qed.

Lemma claimTurn_wf (s : State) : timers_wf s -> timers_wf (claimTurn s).
Proof.
  intros W. unfold claimTurn.
  wf_cases W; [destruct s_timeout as [[|id]|]|]; destruct s_lastText as [[|c0 t0]|], b_speech;
    handlers; wf_done.
Qed.

Lemma text_wf (J : string -> option Json) (content : string) (s : State) :
  timers_wf s -> timers_wf (step J (EvMessage (MsgText content)) s).
Proof.
  intros W. wf_cases W; [destruct s_timeout as [[|id]|]|]; destruct content as [|c0 t0].
  all: match goal with
       | |- context [MsgText ?x] => destruct (isNavigationPayload J x) eqn:En
       end.
  all: destruct s_suppress, s_navAwaiting, b_nav; handlers; rewrite ?En; handlers.
  all: wf_done.
Qed.

Lemma audio_wf (J : string -> option Json) (audio mime : option string) (s : State) :
  timers_wf s -> timers_wf (step J (EvMessage (MsgAudio audio mime)) s).
Proof.
  intros W. wf_cases W; [destruct s_timeout as [[|id]|]|]; destruct audio as [[|c0 t0]|].
  all: try destruct (atob (String c0 t0)) as [[|x r]|] eqn:Ea.
  all: destruct s_suppress, s_navAwaiting, s_awaiting, b_nav;
    handlers; rewrite ?Ea; handlers.
  all: wf_done.
Qed.

Lemma navigate_wf (J : string -> option Json) (message route : option string)
  (s : State) :
  timers_wf s -> timers_wf (step J (EvMessage (MsgNavigate message route)) s).
Proof.
  intros W. wf_cases W; [destruct s_timeout as [[|id]|]|];
    destruct message as [[|c0 t0]|], route as [[|c1 t1]|].
  all: destruct s_suppress, s_navAwaiting, b_nav; handlers; cbn [app]; handlers; stuck.
  all: wf_done.
Qed.

Lemma timerView_wf (s s' : State) :
  timerView s' = timerView s -> timers_wf s -> timers_wf s'.
Proof.
  unfold timerView, timers_wf. intros [= T N] W. rewrite T, N. exact W.
Qed.

Lemma finalize_timerView (s : State) :
  timerView (finalizeAudioResponse s) = timerView s.
Proof.
  unfold timerView. destruct_state s.
  destruct s_chunks, s_indicator, s_isPlaying, s_queue; handlers; cbn [app]; handlers;
    reflexivity.
Qed.

Lemma speak_timerView (text : option string) (s : State) :
  timerView (speakTextResponse text s) = timerView s.
Proof.
  unfold timerView. destruct_state s. destruct s_browser as [b_nav b_upload b_speech].
  destruct text as [[|c0 t0]|], b_speech; handlers; reflexivity.
Qed.

Lemma turn_end_timerView (suppressed : bool) (s : State) :
  timerView
    (setNavResponding false
       (set_awaitingRealtimeResponse false
          (set_navAwaitingResponse false
             (set_lastResponseText None
                (if suppressed
                 then set_navSuppressRealtime false (set_pendingAudioChunks [] s)
                 else s)))))
  = timerView s.
Proof.
  unfold timerView. destruct_state s. destruct s_browser as [b_nav b_upload b_speech].
  destruct suppressed, b_nav; handlers; reflexivity.
Qed.

Lemma turn_complete_wf (J : string -> option Json) (s : State) :
  timers_wf s -> timers_wf (step J (EvMessage MsgTurnComplete) s).
Proof.
  intros W. cbv beta iota zeta delta [step handleLiveMessage].
  pose proof (clearNav_wf W) as W0.
  set (s0 := clearNavSpeechFallback s) in *. clearbody s0.
  destruct (navSuppressRealtime s0).
  - exact (timerView_wf (turn_end_timerView true s0) W0).
  - apply (timerView_wf (turn_end_timerView false _)).
    destruct (negb (is_nil (pendingAudioChunks s0))).
    + exact (timerView_wf (finalize_timerView s0) W0).
    + destruct (navAwaitingResponse s0 && truthy (lastResponseText s0)).
      * exact (timerView_wf (speak_timerView _ s0) W0).
      * exact W0.
Qed.

Lemma timer_wf (J : string -> option Json) (id : nat) (s : State) :
  timers_wf s -> timers_wf (step J (EvTimer id) s).
Proof.
  intros W. wf_cases W.
  - handlers. wf_done.
  - destruct s_navAwaiting, s_chunks, s_lastText as [[|c0 t0]|], b_speech;
      handlers; stuck.
    all: cbn [filter fst snd negb]; stuck; cbn [filter negb app].
    all: wf_done.
Qed.

Lemma start_wf (mode : RecordingMode) (buttonEl : Button) (s : State) :
  timers_wf s -> timers_wf (startRecording mode buttonEl s).
Proof.
  intros W. wf_cases W; [destruct s_timeout as [[|id]|]|];
    destruct s_isRecording, s_activeAudio; handlers; wf_done.
Qed.

Lemma stop_timerView (s : State) : timerView (stopRecording s) = timerView s.
Proof.
  unfold timerView. destruct_state s.
  destruct s_mediaRecorder, s_audioContext, s_wsOpen, s_target, s_mode as [[|]|];
    handlers; reflexivity.
Qed.

Lemma click_wf (J : string -> option Json) (mode : RecordingMode) (s : State) :
  timers_wf s -> timers_wf (step J (EvMicClick mode) s).
Proof.
  intros W.
  assert (T : forall b, timers_wf (toggleRecording mode b s)).
  { intros b. unfold toggleRecording. destruct (isRecording s).
    - exact (timerView_wf (stop_timerView s) W).
    - exact (start_wf mode b W). }
  destruct mode; cbn [step]; [apply T|].
  destruct (hasNavMicButton (browser s)); [apply T | exact W].
Qed.

Lemma granted_wf (J : string -> option Json) (s : State) :
  timers_wf s -> timers_wf (step J EvMediaGranted s).
Proof.
  apply timerView_wf. unfold timerView. destruct_state s.
  destruct s_browser as [b_nav b_upload b_speech].
  destruct s_starts as [|[mode b] r], b_nav; handlers; reflexivity.
Qed.

Lemma audio_end_wf (audio : nat) (s : State) :
  timers_wf s -> timers_wf (audioFinished audio s).
Proof.
  apply timerView_wf. unfold timerView. destruct_state s.
  destruct s_activeAudio as [a0|], s_queue; handlers; stuck; reflexivity.
Qed.

Lemma assist_wf (J : string -> option Json) (r : AssistResult) (s : State) :
  timers_wf s -> timers_wf (step J (EvAssistResponse r) s).
Proof.
  intros W. destruct r as [|[|] data].
  - exact (frame_wf (proj1 (@idle_frame J (EvAssistResponse AssistFailed) s eq_refl)) W).
  - destruct (a_handled data) eqn:Hh.
    + destruct (assistInFlight s) as [|n] eqn:En.
      * cbn [step]. rewrite En. exact W.
      * destruct (@handled_step J data s n Hh En) as (s0 & F & _ & E).
        rewrite E. exact (claimTurn_wf (frame_wf F W)).
    + exact (frame_wf (proj1 (@unhandled_frame J data s Hh)) W).
  - exact (frame_wf
             (proj1 (@idle_frame J (EvAssistResponse (AssistResp false data)) s eq_refl)) W).
Qed.

(** Every event keeps the pending timers well formed. *)
Lemma step_wf (J : string -> option Json) (e : Event) (s : State) :
  timers_wf s -> timers_wf (step J e s).
Proof.
  intros W.
  destruct (idleEvent e) eqn:Ie.
  { exact (frame_wf (proj1 (@idle_frame J e s Ie)) W). }
  destruct e as [ | | |m|id|mode| | |d|r|v| |r|f|r|a|a|a| |p]; try discriminate Ie.
  - destruct m; try discriminate Ie.
    + exact (text_wf J _ W).
    + exact (audio_wf J _ _ W).
    + exact (navigate_wf J _ _ W).
    + exact (turn_complete_wf J W).
  - exact (timer_wf J id W).
  - exact (click_wf J mode W).
  - exact (granted_wf J W).
  - exact (assist_wf J r W).
  - cbn [step]. destruct (existsb (Nat.eqb a) (liveAudio s));
      [exact (audio_end_wf a W) | exact W].
  - cbn [step]. destruct (existsb (Nat.eqb a) (liveAudio s));
      [exact (audio_end_wf a W) | exact W].
Qed.

Lemma run_wf (J : string -> option Json) (events : list Event) (s : State) :
  timers_wf s -> timers_wf (run J events s).
Proof.
  revert s. induction events as [|e r IH]; intros s W; [exact W|].
  exact (IH _ (step_wf J e W)).
Qed.

(** In every state that the page reaches no timer is pending, or one, the
    fallback timer whose identifier [navResponseTimeout] holds. *)
Lemma reachable_wf (J : string -> option Json) (events : list Event) (b : Browser) :
  timers_wf (run J events (initialState b)).
Proof. apply run_wf. left. reflexivity. Qed.




(** ** The WAV header, whole *)
(** X1.  Whatever the payload and the rate, [createWavBlob] returns 44 bytes
    of header followed by the payload: the tags RIFF, WAVE, fmt and data at
    offsets 0, 8, 12 and 36, a 16-byte format chunk of PCM (format 1) with
    one channel, 16 bits per sample, block alignment 2 and a byte rate of
    twice the sample rate (modulo 2^32). *)
Theorem wav_header_canonical (pcmBytes : Uint8Array) (sampleRate : Z) :
  byteLength (createWavBlob pcmBytes sampleRate) = 44 + byteLength pcmBytes
  /\ firstn 4 (createWavBlob pcmBytes sampleRate) = codes "RIFF"
  /\ firstn 4 (skipn 8 (createWavBlob pcmBytes sampleRate)) = codes "WAVE"
  /\ firstn 4 (skipn 12 (createWavBlob pcmBytes sampleRate)) = codes "fmt "
  /\ getUint32 (createWavBlob pcmBytes sampleRate) 16 = 16
  /\ getUint16 (createWavBlob pcmBytes sampleRate) 20 = 1
  /\ getUint16 (createWavBlob pcmBytes sampleRate) 22 = 1
  /\ getUint32 (createWavBlob pcmBytes sampleRate) 28 = (sampleRate * 2) mod 4294967296
  /\ getUint16 (createWavBlob pcmBytes sampleRate) 32 = 2
  /\ getUint16 (createWavBlob pcmBytes sampleRate) 34 = 16
  /\ firstn 4 (skipn 36 (createWavBlob pcmBytes sampleRate)) = codes "data"
  /\ skipn 44 (createWavBlob pcmBytes sampleRate) = pcmBytes.
Proof.
  split.
  { rewrite createWavBlob_layout, byteLength_app. unfold byteLength at 1.
    rewrite wavHeader_length. reflexivity. }
  rewrite wav_payload. rewrite createWavBlob_layout, wavHeader_bytes.
  unfold getUint32, getUint16, getUint8.
  cbn [nth Z.to_nat Pos.to_nat Pos.iter_op Nat.add Z.add Pos.add Pos.succ app firstn skipn].
  repeat (match goal with |- _ /\ _ => split end); try reflexivity.
  apply byteOf_sum.
Qed.

Lemma strip_prefix_app (p s : string) : strip_prefix p (p ++ s)%string = Some s.
Proof.
  induction p as [|a p IH]; [reflexivity|].
  cbn [strip_prefix String.append]. rewrite Ascii.eqb_refl. exact IH.
Qed.

Lemma strip_prefix_some (p s r : string) :
  strip_prefix p s = Some r -> s = (p ++ r)%string.
Proof.
  revert s. induction p as [|a p IH]; intros s; cbn [strip_prefix].
  - intros [= ->]. reflexivity.
  - destruct s as [|b s]; [discriminate|].
    destruct (Ascii.eqb a b) eqn:E; [|discriminate].
    apply Ascii.eqb_eq in E. subst b. intros H. cbn [String.append].
    f_equal. exact (IH _ H).
Qed.

Lemma rate_match_eq (s : string) :
  rate_match s
  = match strip_prefix "rate=" s with
    | Some (String d _ as after) =>
        if is_digit d then Some (take_digits after)
        else match s with String _ r => rate_match r | EmptyString => None end
    | _ => match s with String _ r => rate_match r | EmptyString => None end
    end.
Proof. destruct s; reflexivity. Qed.

Lemma rate_match_none (m : string) : rate_match m = None <-> ~ hasRate m.
Proof.
  induction m as [|c m IH].
  - split; [|reflexivity]. intros _ (pre & d & post & E & _).
    destruct pre; discriminate E.
  - rewrite rate_match_eq.
    destruct (strip_prefix "rate=" (String c m)) as [[|d after]|] eqn:Es.
    + rewrite IH. split; intros N (pre & d & post & E & D); apply N.
      * destruct pre as [|c' pre].
        -- cbn [String.append] in E. rewrite E in Es.
           change (String "r" (String "a" (String "t" (String "e" (String "=" (String d post))))))
             with ("rate=" ++ String d post)%string in Es.
           rewrite strip_prefix_app in Es. discriminate Es.
        -- injection E as -> ->. exists pre, d, post. split; [reflexivity | exact D].
      * exists (String c pre), d, post. split; [cbn [String.append]; rewrite E; reflexivity | exact D].
    + destruct (is_digit d) eqn:Ed.
      * split; [discriminate|]. intros N. exfalso. apply N.
        apply strip_prefix_some in Es. exists "", d, after.
        split; [exact Es | exact Ed].
      * rewrite IH. split; intros N (pre & d' & post & E & D); apply N.
        -- destruct pre as [|c' pre].
           ++ cbn [String.append] in E. rewrite E in Es.
              change (String "r" (String "a" (String "t" (String "e" (String "=" (String d' post))))))
                with ("rate=" ++ String d' post)%string in Es.
              rewrite strip_prefix_app in Es. injection Es as -> ->. congruence.
           ++ injection E as -> ->. exists pre, d', post. split; [reflexivity | exact D].
        -- exists (String c pre), d', post.
           split; [cbn [String.append]; rewrite E; reflexivity | exact D].
    + rewrite IH. split; intros N (pre & d & post & E & D); apply N.
      * destruct pre as [|c' pre].
        -- cbn [String.append] in E. rewrite E in Es.
           change (String "r" (String "a" (String "t" (String "e" (String "=" (String d post))))))
             with ("rate=" ++ String d post)%string in Es.
           rewrite strip_prefix_app in Es. discriminate Es.
        -- injection E as -> ->. exists pre, d, post. split; [reflexivity | exact D].
      * exists (String c pre), d, post. split; [cbn [String.append]; rewrite E; reflexivity | exact D].
Qed.

(** X2.  [getSampleRateFromMime] gives no rate exactly when the tag is null,
    empty, or holds no [rate=] followed by a digit. *)
Theorem rate_absent (mimeType : option string) :
  getSampleRateFromMime mimeType = None
  <-> (forall m, mimeType = Some m -> ~ hasRate m).
Proof.
  unfold getSampleRateFromMime. destruct mimeType as [[|c m]|].
  - split; [|reflexivity]. intros _ m [= <-] (pre & d & post & E & _).
    destruct pre; discriminate E.
  - destruct (rate_match (String c m)) as [d|] eqn:Er.
    + split; [discriminate|]. intros N. exfalso.
      pose proof (proj2 (rate_match_none _) (N _ eq_refl)) as H. congruence.
    + split; [|reflexivity]. intros _ m' [= <-]. apply rate_match_none, Er.
  - split; [|reflexivity]. intros _ m [=].
Qed.

Lemma code_chr (z : Z) : 0 <= z < 256 -> code (chr z) = z.
Proof.
  intros H. unfold code, chr. rewrite Z.mod_small by exact H.
  rewrite N_ascii_embedding.
  - apply Z2N.id. lia.
  - apply N2Z.inj_lt. rewrite Z2N.id by lia. exact (proj2 H).
Qed.

Lemma is_digit_chr (d : Z) : 0 <= d <= 9 -> is_digit (chr (48 + d)) = true.
Proof.
  intros H. unfold is_digit. rewrite code_chr by lia.
  apply andb_true_intro. split; apply Z.leb_le; lia.
Qed.

Lemma take_digits_digitString (ds : list Z) (post : string) :
  Forall (fun x => 0 <= x <= 9) ds -> startsWithDigit post = false ->
  take_digits (digitString ds ++ post)%string = digitString ds.
Proof.
  intros F P. induction F as [|d ds Hd F IH].
  - destruct post as [|c r]; [reflexivity|]. cbn in *. rewrite P. reflexivity.
  - unfold digitString in *. cbn [map of_codes String.append take_digits].
    rewrite is_digit_chr by exact Hd. f_equal. exact IH.
Qed.

Lemma parseInt_digitString (ds : list Z) :
  Forall (fun x => 0 <= x <= 9) ds -> parseInt (digitString ds) = decimalValue ds.
Proof.
  intros F. unfold parseInt, decimalValue, digitString.
  assert (G : forall acc,
             fold_left (fun a d => 10 * a + (d - 48))
               (codes (of_codes (map (fun d => 48 + d) ds))) acc
             = fold_left (fun a d => 10 * a + d) ds acc).
  { induction F as [|d ds Hd F IH]; intros acc; [reflexivity|].
    cbn [map of_codes codes fold_left]. rewrite code_chr by lia.
    replace (48 + d - 48) with d by lia. apply IH. }
  apply G.
Qed.

Lemma rate_match_skip (pre rest : string) :
  existsb (fun c => c =? 114) (codes pre) = false ->
  rate_match (pre ++ rest)%string = rate_match rest.
Proof.
  induction pre as [|c pre IH]; intros H; [reflexivity|].
  cbn [codes existsb] in H. apply orb_false_elim in H. destruct H as [Hc H].
  cbn [String.append]. rewrite rate_match_eq.
  assert (E : Ascii.eqb "r" c = false).
  { destruct (Ascii.eqb "r" c) eqn:E; [|reflexivity].
    apply Ascii.eqb_eq in E. subst c. discriminate Hc. }
  cbn [strip_prefix]. rewrite E. exact (IH H).
Qed.

(** X3.  For a tag that holds [rate=] followed by a decimal numeral, with no
    letter r before it and no digit after it, [getSampleRateFromMime] gives
    the value of the whole numeral (as long as it is at most 2^53, where
    [parseInt] is exact). *)
Theorem rate_of_tag (pre post : string) (d : Z) (ds : list Z) :
  existsb (fun c => c =? 114) (codes pre) = false ->
  Forall (fun x => 0 <= x <= 9) (d :: ds) ->
  startsWithDigit post = false ->
  decimalValue (d :: ds) <= 9007199254740992 ->
  getSampleRateFromMime (Some (pre ++ "rate=" ++ digitString (d :: ds) ++ post)%string)
  = Some (decimalValue (d :: ds)).
Proof.
  intros Hr F P _.
  assert (M : rate_match (pre ++ "rate=" ++ digitString (d :: ds) ++ post)%string
              = Some (digitString (d :: ds))).
  { rewrite (@rate_match_skip pre _ Hr), rate_match_eq.
    change ("rate=" ++ digitString (d :: ds) ++ post)%string
      with ("rate=" ++ (digitString (d :: ds) ++ post))%string.
    rewrite strip_prefix_app.
    pose proof (@take_digits_digitString (d :: ds) post F P) as T.
    unfold digitString in *. cbn [map of_codes String.append] in *.
    rewrite is_digit_chr by (inversion F; assumption). rewrite T. reflexivity. }
  unfold getSampleRateFromMime.
  destruct (pre ++ "rate=" ++ digitString (d :: ds) ++ post)%string as [|c m] eqn:E.
  - destruct pre; discriminate E.
  - rewrite M, (@parseInt_digitString (d :: ds) F). reflexivity.
Qed.

Lemma rate_of_tag_witness :
  getSampleRateFromMime (Some "audio/pcm;rate=24000") = Some 24000
  /\ getSampleRateFromMime (Some "audio/L16;rate=16000;channels=1") = Some 16000.
Proof.
  split.
  - exact (@rate_of_tag "audio/pcm;" "" 2 [4; 0; 0; 0] eq_refl
             ltac:(repeat constructor; lia) eq_refl ltac:(cbv; discriminate)).
  - exact (@rate_of_tag "audio/L16;" ";channels=1" 1 [6; 0; 0; 0] eq_refl
             ltac:(repeat constructor; lia) eq_refl ltac:(cbv; discriminate)).
Defined.

Lemma list_ind3 (A : Type) (P : list A -> Prop) :
  P [] -> (forall a, P [a]) -> (forall a b, P [a; b]) ->
  (forall a b c r, P r -> P (a :: b :: c :: r)) ->
  forall l, P l.
Proof.
  intros H0 H1 H2 H3 l.
  assert (G : P l /\ (forall a, P (a :: l)) /\ (forall a b, P (a :: b :: l))).
  { induction l as [|x l (G0 & G1 & G2)]; repeat split; auto. }
  apply G.
Qed.

Lemma b64_index_char (n : Z) : 0 <= n < 64 -> b64_index (code (b64_char n)) = Some n.
Proof.
  intros H. unfold b64_char.
  destruct (n <? 26) eqn:E1; [|destruct (n <? 52) eqn:E2; [|destruct (n <? 62) eqn:E3;
    [|destruct (n =? 62) eqn:E4]]];
    rewrite code_chr by lia; unfold b64_index;
    repeat match goal with
           | |- context [?a <=? ?b] =>
               let E := fresh in destruct (Z.leb_spec a b) as [E|E]; cbn [andb]; try lia
           | |- context [?a =? ?b] =>
               let E := fresh in destruct (Z.eqb_spec a b) as [E|E]; try lia
           end; try (f_equal; lia).
Qed.

Lemma b64_char_plain (n : Z) :
  0 <= n < 64 ->
  is_ascii_whitespace (code (b64_char n)) = false /\ code (b64_char n) <> 61.
Proof.
  intros H. unfold b64_char.
  destruct (n <? 26) eqn:E1; [|destruct (n <? 52) eqn:E2; [|destruct (n <? 62) eqn:E3;
    [|destruct (n =? 62) eqn:E4]]];
    rewrite code_chr by lia; unfold is_ascii_whitespace;
    (split; [|lia]);
    repeat match goal with
           | |- context [?a =? ?b] =>
               let E := fresh in destruct (Z.eqb_spec a b) as [E|E]; try lia
           end; reflexivity.
Qed.

Lemma drop_padding_eq (l : list Z) :
  drop_padding l
  = match l with
    | a :: r =>
        if a =? 61
        then match r with
             | b :: r' => if b =? 61 then r' else r
             | [] => r
             end
        else l
    | [] => []
    end.
Proof.
  assert (D : forall a, a <> 61 -> forall r, drop_padding (a :: r) = a :: r).
  { intros a Ha r. destruct a as [|p|p]; try reflexivity.
    do 7 (try (destruct p as [p|p|]; try reflexivity)). congruence. }
  destruct l as [|a r]; [reflexivity|].
  destruct (Z.eqb_spec a 61) as [->|Ha]; [|exact (D a Ha r)].
  destruct r as [|b r']; [reflexivity|].
  destruct (Z.eqb_spec b 61) as [->|Hb]; [reflexivity|].
  destruct b as [|p|p]; try reflexivity.
  do 7 (try (destruct p as [p|p|]; try reflexivity)). congruence.
Qed.

Lemma sextetsOf_range (bytes : Uint8Array) :
  Forall isByte bytes -> Forall (fun n => 0 <= n < 64) (sextetsOf bytes).
Proof.
  unfold isByte. induction bytes as [| a | a b | a b c r IH] using list_ind3; intros F.
  - constructor.
  - inversion F; subst. cbn [sextetsOf].
    repeat constructor; Z.to_euclidean_division_equations; lia.
  - inversion F as [|? ? Ha F1]; subst. inversion F1; subst. cbn [sextetsOf].
    repeat constructor; Z.to_euclidean_division_equations; lia.
  - inversion F as [|? ? Ha F1]; subst. inversion F1 as [|? ? Hb F2]; subst.
    inversion F2 as [|? ? Hc F3]; subst. cbn [sextetsOf].
    repeat (constructor; [Z.to_euclidean_division_equations; lia|]). exact (IH F3).
Qed.

Lemma decode_sextetsOf (bytes : Uint8Array) :
  Forall isByte bytes -> decode_sextets (sextetsOf bytes) = bytes.
Proof.
  unfold isByte. induction bytes as [| a | a b | a b c r IH] using list_ind3; intros F.
  - reflexivity.
  - inversion F; subst. cbn [sextetsOf decode_sextets]. f_equal.
    Z.to_euclidean_division_equations; lia.
  - inversion F as [|? ? Ha F1]; subst. inversion F1; subst.
    cbn [sextetsOf decode_sextets].
    f_equal; [|f_equal]; Z.to_euclidean_division_equations; lia.
  - inversion F as [|? ? Ha F1]; subst. inversion F1 as [|? ? Hb F2]; subst.
    inversion F2 as [|? ? Hc F3]; subst. cbn [sextetsOf decode_sextets].
    rewrite (IH F3).
    f_equal; [|f_equal; [|f_equal]]; Z.to_euclidean_division_equations; lia.
Qed.

Lemma codes_btoa (bytes : Uint8Array) :
  codes (btoa bytes) = map b64_code (sextetsOf bytes) ++ paddingOf bytes.
Proof.
  induction bytes as [| a | a b | a b c r IH] using list_ind3; try reflexivity.
  cbn [btoa codes sextetsOf map app]. rewrite IH.
  replace (paddingOf (a :: b :: c :: r)) with (paddingOf r); [reflexivity|].
  unfold paddingOf. cbn [List.length].
  replace (S (S (S (List.length r)))) with (List.length r + 1 * 3)%nat by lia.
  rewrite Nat.Div0.mod_add. reflexivity.
Qed.

(** The shape of a base64 text: its padding and the number of its sextets. *)
Lemma btoa_shape (bytes : Uint8Array) :
  (paddingOf bytes = [] /\ exists k, List.length (sextetsOf bytes) = (4 * k)%nat)
  \/ (paddingOf bytes = [61; 61]
      /\ exists k, List.length (sextetsOf bytes) = (4 * k + 2)%nat)
  \/ (paddingOf bytes = [61]
      /\ exists k, List.length (sextetsOf bytes) = (4 * k + 3)%nat).
Proof.
  induction bytes as [| a | a b | a b c r IH] using list_ind3.
  - left. split; [reflexivity | exists 0%nat; reflexivity].
  - right. left. split; [reflexivity | exists 0%nat; reflexivity].
  - right. right. split; [reflexivity | exists 0%nat; reflexivity].
  - replace (paddingOf (a :: b :: c :: r)) with (paddingOf r).
    + cbn [sextetsOf List.length].
      destruct IH as [[P (k & L)] | [[P (k & L)] | [P (k & L)]]]; rewrite P, L;
        [left | right; left | right; right]; (split; [reflexivity|]);
        exists (S k); lia.
    + unfold paddingOf. cbn [List.length].
      replace (S (S (S (List.length r)))) with (List.length r + 1 * 3)%nat by lia.
      rewrite Nat.Div0.mod_add. reflexivity.
Qed.

Lemma sextets_codes (l : list Z) :
  Forall (fun n => 0 <= n < 64) l -> sextets (map b64_code l) = Some l.
Proof.
  induction 1 as [|n l Hn F IH]; [reflexivity|].
  cbn [map sextets]. unfold b64_code at 1. rewrite (b64_index_char Hn), IH. reflexivity.
Qed.

Lemma plain_codes (l : list Z) :
  Forall (fun n => 0 <= n < 64) l ->
  filter (fun c => negb (is_ascii_whitespace c)) (map b64_code l) = map b64_code l
  /\ Forall (fun c => c <> 61) (map b64_code l).
Proof.
  induction 1 as [|n l Hn F [IH1 IH2]]; [split; [reflexivity | constructor]|].
  destruct (b64_char_plain Hn) as [W E].
  cbn [map filter]. unfold b64_code at 1. rewrite W. cbn [negb].
  split; [f_equal; exact IH1 | constructor; [exact E | exact IH2]].
Qed.

Lemma mod4_of_nat (k j : nat) :
  (j < 4)%nat -> Z.of_nat (4 * k + j) mod 4 = Z.of_nat j.
Proof.
  intros H. replace (Z.of_nat (4 * k + j)) with (Z.of_nat j + Z.of_nat k * 4) by lia.
  rewrite Z.mod_add by lia. apply Z.mod_small. lia.
Qed.

(** [atob] undoes [btoa]. *)
Lemma atob_btoa (bytes : Uint8Array) :
  Forall isByte bytes -> atob (btoa bytes) = Some bytes.
Proof.
  intros F. pose proof (sextetsOf_range F) as R.
  destruct (plain_codes R) as [Pl Ne].
  unfold atob. rewrite codes_btoa, filter_app, Pl.
  set (X := map b64_code (sextetsOf bytes)) in *.
  assert (LX : List.length X = List.length (sextetsOf bytes)) by apply length_map.
  assert (Fin : forall data, data = X ->
            (if Z.of_nat (List.length data) mod 4 =? 1 then None
             else option_map decode_sextets (sextets data)) = Some bytes
            \/ exists k, List.length X = (4 * k + 1)%nat).
  { intros data ->. destruct (Z.of_nat (List.length X) mod 4 =? 1) eqn:E.
    - left. exfalso. apply Z.eqb_eq in E. rewrite LX in E.
      destruct (btoa_shape bytes) as [[_ (k & L)] | [[_ (k & L)] | [_ (k & L)]]];
        rewrite L in E.
      + rewrite <- (Nat.add_0_r (4 * k)), mod4_of_nat in E by lia. discriminate E.
      + rewrite mod4_of_nat in E by lia. discriminate E.
      + rewrite mod4_of_nat in E by lia. discriminate E.
    - left. subst X. rewrite (sextets_codes R). cbn [option_map].
      rewrite (decode_sextetsOf F). reflexivity. }
  destruct (btoa_shape bytes) as [[P (k & L)] | [[P (k & L)] | [P (k & L)]]]; rewrite P.
  - cbn [filter]. rewrite app_nil_r.
    replace (Z.of_nat (List.length X) mod 4 =? 0) with true
      by (rewrite LX, L, <- (Nat.add_0_r (4 * k)), mod4_of_nat by lia; reflexivity).
    assert (D : rev (drop_padding (rev X)) = X).
    { rewrite drop_padding_eq. destruct (rev X) as [|y r] eqn:Er.
      - rewrite <- (rev_involutive X), Er. reflexivity.
      - assert (Hy : y <> 61).
        { rewrite Forall_forall in Ne. apply Ne, in_rev. rewrite Er. left. reflexivity. }
        apply Z.eqb_neq in Hy. rewrite Hy, <- Er. apply rev_involutive. }
    rewrite D. destruct (Fin X eq_refl) as [H | (k' & H)]; [exact H|]. lia.
  - replace (filter (fun c => negb (is_ascii_whitespace c)) [61; 61]) with [61; 61]
      by reflexivity.
    replace (Z.of_nat (List.length (X ++ [61; 61])) mod 4 =? 0) with true.
    2:{ rewrite length_app, LX, L. cbn [List.length].
        replace (4 * k + 2 + 2)%nat with (4 * (S k) + 0)%nat by lia.
        rewrite mod4_of_nat by lia. reflexivity. }
    rewrite rev_app_distr. cbn [rev app]. rewrite drop_padding_eq.
    change (61 =? 61) with true. cbv beta iota. rewrite rev_involutive.
    destruct (Fin X eq_refl) as [H | (k' & H)]; [exact H|]. lia.
  - replace (filter (fun c => negb (is_ascii_whitespace c)) [61]) with [61]
      by reflexivity.
    replace (Z.of_nat (List.length (X ++ [61])) mod 4 =? 0) with true.
    2:{ rewrite length_app, LX, L. cbn [List.length].
        replace (4 * k + 3 + 1)%nat with (4 * (S k) + 0)%nat by lia.
        rewrite mod4_of_nat by lia. reflexivity. }
    rewrite rev_app_distr. cbn [rev app]. rewrite drop_padding_eq.
    change (61 =? 61) with true. cbv beta iota.
    destruct (rev X) as [|y r] eqn:Er.
    { apply (f_equal (@List.length Z)) in Er. rewrite length_rev, LX, L in Er.
      cbn in Er. lia. }
    assert (Hy : y <> 61).
    { rewrite Forall_forall in Ne. apply Ne, in_rev. rewrite Er. left. reflexivity. }
    apply Z.eqb_neq in Hy. rewrite Hy, <- Er, rev_involutive.
    destruct (Fin X eq_refl) as [H | (k' & H)]; [exact H|]. lia.
Qed.

(** X4.  [bufferAudioChunk] on the base64 text of one byte or more appends
    exactly those bytes as a new fragment, after the fragments it holds, and
    reports nothing; the tag it remembers is the envelope's, else the one it
    held, else audio/pcm;rate=24000. *)
Theorem buffer_decodes_base64 (bytes : Uint8Array) (mimeType : option string)
  (s : State) :
  Forall isByte bytes -> bytes <> [] ->
  pendingAudioChunks (bufferAudioChunk (Some (btoa bytes)) mimeType s)
  = pendingAudioChunks s ++ [bytes]
  /\ pendingAudioMimeType (bufferAudioChunk (Some (btoa bytes)) mimeType s)
     = js_or mimeType (js_or (pendingAudioMimeType s) (Some "audio/pcm;rate=24000"))
  /\ log (bufferAudioChunk (Some (btoa bytes)) mimeType s) = log s.
Proof.
  intros F N. unfold bufferAudioChunk.
  pose proof (atob_btoa F) as A.
  destruct (btoa bytes) as [|c r] eqn:B.
  - destruct bytes as [|a [|b [|x y]]]; [congruence | discriminate B ..].
  - rewrite A. destruct bytes as [|a rest]; [congruence|].
    destruct_state s. repeat split.
Qed.

Lemma buffer_decodes_base64_witness :
  btoa [82; 73; 70; 70] = "UklGRg=="
  /\ pendingAudioChunks
       (bufferAudioChunk (Some "UklGRg==") None smallTurn)
     = [[1; 2; 3]; [4; 5]; [82; 73; 70; 70]].
Proof.
  split; [reflexivity|].
  exact (proj1 (@buffer_decodes_base64 [82; 73; 70; 70] None smallTurn
                  ltac:(repeat constructor; unfold isByte; lia)
                  ltac:(discriminate))).
Defined.

Lemma pcmSample_range (x : Sample) : -32768 <= pcmSample x <= 32767.
Proof.
  unfold pcmSample, toInt16. destruct (scaleSample (clampSample x)) as [|q]; [lia|].
  cbv zeta. generalize (Z.quot (Qnum q) (Z.pos (Qden q))). intros t.
  pose proof (Z.mod_pos_bound (t + 32768) 65536 ltac:(lia)). lia.
Qed.

Lemma int16Bytes_bytes (pcm : list Z) : Forall isByte (int16Bytes pcm).
Proof.
  induction pcm as [|v r IH]; [constructor|]. cbn [int16Bytes].
  constructor; [apply Z.mod_pos_bound; lia|].
  constructor; [apply Z.mod_pos_bound; lia | exact IH].
Qed.

Lemma readInt16s_int16Bytes (pcm : list Z) :
  Forall (fun v => -32768 <= v <= 32767) pcm -> readInt16s (int16Bytes pcm) = pcm.
Proof.
  induction 1 as [|v r Hv F IH]; [reflexivity|].
  cbn [int16Bytes readInt16s]. rewrite IH. f_equal.
  unfold readInt16. cbv zeta.
  destruct (Z.ltb_spec (v mod 256 + 256 * (v / 256 mod 256)) 32768);
    Z.to_euclidean_division_equations; lia.
Qed.

(** X5.  The payload that the capture callback encodes decodes ([atob]) to
    two bytes per sample, and reading them as 16-bit signed values, low byte
    first, gives back the converted samples, each within -32768..32767. *)
Theorem capture_payload_round_trip (inputData : list Sample) :
  atob (encodeCapture inputData) = Some (int16Bytes (map pcmSample inputData))
  /\ byteLength (int16Bytes (map pcmSample inputData))
     = 2 * Z.of_nat (List.length inputData)
  /\ readInt16s (int16Bytes (map pcmSample inputData)) = map pcmSample inputData
  /\ Forall (fun v => -32768 <= v <= 32767) (map pcmSample inputData).
Proof.
  assert (R : Forall (fun v => -32768 <= v <= 32767) (map pcmSample inputData)).
  { apply Forall_map, Forall_forall. intros x _. apply pcmSample_range. }
  split; [exact (atob_btoa (int16Bytes_bytes _))|].
  split; [|split; [exact (readInt16s_int16Bytes R) | exact R]].
  unfold byteLength. induction inputData as [|x r IH]; [reflexivity|].
  cbn [map int16Bytes List.length].
  inversion R as [|? ? _ R']; subst. specialize (IH R'). lia.
Qed.




(** ** The end of a turn *)
(** X8.  Whatever the state, once a turn_complete envelope is processed the
    turn is over: nothing is buffered, the suppression flag, the two
    awaiting flags and the remembered text are cleared, and no fallback
    timer is left pending. *)
Theorem turn_complete_ends_turn (J : string -> option Json) (s : State) :
  timers_wf s ->
  pendingAudioChunks (step J (EvMessage MsgTurnComplete) s) = []
  /\ navSuppressRealtime (step J (EvMessage MsgTurnComplete) s) = false
  /\ navAwaitingResponse (step J (EvMessage MsgTurnComplete) s) = false
  /\ awaitingRealtimeResponse (step J (EvMessage MsgTurnComplete) s) = false
  /\ lastResponseText (step J (EvMessage MsgTurnComplete) s) = None
  /\ timers (step J (EvMessage MsgTurnComplete) s) = [].
Proof.
  intros W. cbv beta iota zeta delta [step handleLiveMessage].
  assert (T0 : timers (clearNavSpeechFallback s) = []).
  { clear -W. wf_cases W; [destruct s_timeout as [[|id]|]|]; handlers;
      cbn [filter fst snd negb Nat.eqb]; rewrite ?Nat.eqb_refl; reflexivity. }
  set (s0 := clearNavSpeechFallback s) in *. clearbody s0. clear W.
  destruct_state s0. destruct s_browser as [b_nav b_upload b_speech]. subst.
  destruct s_suppress.
  - destruct b_nav; handlers; repeat split.
  - destruct s_chunks as [|c r].
    + destruct s_navAwaiting, s_lastText as [[|c0 t0]|], b_speech, b_nav; handlers;
        repeat split.
    + destruct s_indicator, s_isPlaying, s_queue, b_nav; handlers; cbn [app]; handlers;
        repeat split.
Qed.

Lemma turn_complete_ends_turn_witness :
  timers_wf timerArmed
  /\ timers timerArmed = [(1%nat, 2500)]
  /\ timers (step noJSON (EvMessage MsgTurnComplete) timerArmed) = []
  /\ navAwaitingResponse (step noJSON (EvMessage MsgTurnComplete) timerArmed) = false.
Proof.
  assert (W : timers_wf timerArmed).
  { right. exists 0%nat, 2500. split; reflexivity. }
  pose proof (@turn_complete_ends_turn noJSON timerArmed W) as H.
  split; [exact W|]. split; [reflexivity|].
  split; [exact (proj2 (proj2 (proj2 (proj2 (proj2 H))))) | exact (proj1 (proj2 (proj2 H)))].
Defined.


Lemma clearNav_controls (s : State) :
  controls (clearNavSpeechFallback s) = controls s.
Proof. controls_start s. destruct s_timeout as [[|id]|]; handlers; reflexivity. Qed.

Lemma speak_controls (text : option string) (s : State) :
  controls (speakTextResponse text s) = controls s.
Proof.
  controls_start s. destruct text as [[|c0 t0]|], b_speech; handlers; reflexivity.
Qed.

Lemma finalize_controls (s : State) :
  controls (finalizeAudioResponse s) = controls s.
Proof.
  controls_start s.
  destruct s_chunks, s_indicator, s_isPlaying, s_queue; handlers; cbn [app]; handlers;
    reflexivity.
Qed.

Lemma turn_end_controls (suppressed : bool) (s : State) :
  controls
    (setNavResponding false
       (set_awaitingRealtimeResponse false
          (set_navAwaitingResponse false
             (set_lastResponseText None
                (if suppressed
                 then set_navSuppressRealtime false (set_pendingAudioChunks [] s)
                 else s)))))
  = controls s.
Proof. controls_start s. destruct suppressed, b_nav; handlers; reflexivity. Qed.

Lemma turn_complete_controls (J : string -> option Json) (s : State) :
  controls (step J (EvMessage MsgTurnComplete) s) = controls s.
Proof.
  cbv beta iota zeta delta [step handleLiveMessage].
  rewrite <- (clearNav_controls s).
  set (s0 := clearNavSpeechFallback s). clearbody s0.
  destruct (navSuppressRealtime s0).
  - exact (turn_end_controls true s0).
  - rewrite (turn_end_controls false).
    destruct (negb (is_nil (pendingAudioChunks s0))).
    + apply finalize_controls.
    + destruct (navAwaitingResponse s0 && truthy (lastResponseText s0));
        [apply speak_controls | reflexivity].
Qed.

Lemma text_controls (J : string -> option Json) (content : string) (s : State) :
  controls (step J (EvMessage (MsgText content)) s) = controls s.
Proof.
  controls_start s. destruct content as [|c0 t0].
  all: match goal with
       | |- context [MsgText ?x] => destruct (isNavigationPayload J x) eqn:En
       end.
  all: destruct s_suppress, s_navAwaiting, b_nav, s_timeout as [[|id]|];
    handlers; rewrite ?En; handlers; reflexivity.
Qed.

Lemma audio_controls (J : string -> option Json) (audio mime : option string)
  (s : State) :
  controls (step J (EvMessage (MsgAudio audio mime)) s) = controls s.
Proof.
  controls_start s. destruct audio as [[|c0 t0]|].
  2: destruct (atob (String c0 t0)) as [[|x r]|] eqn:Ea.
  all: destruct s_suppress, s_navAwaiting, s_awaiting, b_nav, s_timeout as [[|id]|];
    handlers; rewrite ?Ea; handlers; reflexivity.
Qed.

Lemma navigate_controls (J : string -> option Json) (message route : option string)
  (s : State) :
  controls (step J (EvMessage (MsgNavigate message route)) s) = controls s.
Proof.
  controls_start s.
  destruct message as [[|c0 t0]|], route as [[|c1 t1]|].
  all: destruct s_suppress, s_navAwaiting, b_nav, s_timeout as [[|id]|];
    handlers; cbn [app]; handlers; stuck; reflexivity.
Qed.

Lemma timer_controls (J : string -> option Json) (id : nat) (s : State) :
  controls (step J (EvTimer id) s) = controls s.
Proof.
  controls_start s.
  destruct s_navAwaiting, s_chunks, s_lastText as [[|c0 t0]|], b_speech;
    handlers; stuck; reflexivity.
Qed.

Lemma audio_end_controls (audio : nat) (s : State) :
  controls (audioFinished audio s) = controls s.
Proof.
  controls_start s. destruct s_activeAudio as [a0|], s_queue; handlers; stuck; reflexivity.
Qed.

(** No event from outside the controls changes them. *)
Lemma inbound_controls (J : string -> option Json) (e : Event) (s : State) :
  inbound e = true -> controls (step J e s) = controls s.
Proof.
  intros I.
  destruct e as [ | | |m|id|mode| | |d|r|v| |r|f|r|a|a|a| |p]; try discriminate I.
  - reflexivity.
  - reflexivity.
  - reflexivity.
  - destruct m.
    + reflexivity.
    + apply text_controls.
    + apply audio_controls.
    + controls_start s. destruct s_navAwaiting, content; handlers; reflexivity.
    + apply navigate_controls.
    + apply turn_complete_controls.
    + reflexivity.
    + reflexivity.
  - apply timer_controls.
  - controls_start s. destruct s_starts; handlers; reflexivity.
  - controls_start s. destruct s_isRecording, s_wsOpen; handlers; reflexivity.
  - destruct r as [|[|] data]; try discriminate I; cbn [step];
      destruct (assistInFlight s); reflexivity.
  - reflexivity.
  - destruct f; reflexivity.
  - controls_start s. destruct s_uploads, r as [m|[|] [[|c0 t0]|]]; handlers; reflexivity.
  - cbn [step]. destruct (existsb (Nat.eqb a) (liveAudio s));
      [apply audio_end_controls | reflexivity].
  - cbn [step]. destruct (existsb (Nat.eqb a) (liveAudio s));
      [apply audio_end_controls | reflexivity].
  - cbn [step]. destruct (existsb (Nat.eqb a) (liveAudio s)); reflexivity.
  - reflexivity.
  - reflexivity.
Qed.

Lemma controls_inv (s s' : State) :
  controls s' = controls s -> controlsInv s -> controlsInv s'.
Proof.
  unfold controls, controlsInv. intros [= E1 E2 E3 E4 E5 E6 E7].
  rewrite E1, E2, E3, E4, E5, E6, E7. exact (fun H => H).
Qed.

Lemma send_inv (s : State) : controlsInv s -> controlsInv (handleSendMessage s).
Proof.
  unfold controlsInv. destruct_state s. intros (I1 & I2 & I3 & I4 & I5). subst.
  unfold handleSendMessage. cbn [messageInput isProcessing].
  destruct (is_empty (trim s_input) || s_isProcessing); handlers; repeat split; assumption.
Qed.

Lemma query_resume_inv (r : QueryResult) (s : State) :
  controlsInv s -> controlsInv (handleSendMessage_resume r s).
Proof.
  unfold controlsInv. destruct_state s. intros (I1 & I2 & I3 & I4 & I5). subst.
  destruct r as [|[|] [[content tool route session]|]]; handlers.
  2: destruct session as [[|c0 t0]|], content as [c|], route as [[|c1 t1]|]; handlers.
  all: repeat split; assumption.
Qed.

Lemma action_inv (action : AssistAction) (s : State) :
  controlsInv s -> controlsInv (executeAssistAction action s).
Proof.
  intros I. destruct action; try exact (send_inv I).
  all: refine (controls_inv _ I); controls_start s.
  - destruct value; handlers; stuck; reflexivity.
  - unfold openChatView. handlers. stuck; reflexivity.
  - destruct b_upload; handlers; reflexivity.
  - reflexivity.
  - destruct value; reflexivity.
  - reflexivity.
  - destruct target as [[|c0 t0]|]; reflexivity.
  - reflexivity.
Qed.

Lemma actions_inv (actions : list AssistAction) (s : State) :
  controlsInv s -> controlsInv (executeAssistActions actions s).
Proof.
  revert s. unfold executeAssistActions.
  induction actions as [|a r IH]; intros s I; [exact I|].
  exact (IH _ (action_inv a I)).
Qed.

Lemma assist_inv (J : string -> option Json) (data : AssistData) (s : State) :
  controlsInv s -> controlsInv (step J (EvAssistResponse (AssistResp true data)) s).
Proof.
  intros I. cbn [step]. destruct (assistInFlight s) as [|n]; [exact I|].
  unfold handleNavAssist_resume.
  assert (I0 : controlsInv (set_assistInFlight n s)) by exact I.
  set (s0 := set_assistInFlight n s) in *. clearbody s0.
  assert (I1 : controlsInv
                 (match a_message data with
                  | Some (String _ _ as m) =>
                      set_lastResponseText (Some m)
                        (addMessage m Bot (Some "navigation") false s0)
                  | _ => s0
                  end)).
  { destruct (a_message data) as [[|c0 t0]|]; exact I0. }
  match type of I1 with controlsInv ?x => set (s1 := x) in * end. clearbody s1.
  cbv zeta.
  assert (I2 : controlsInv
                 (match a_actions data with
                  | Some actions => executeAssistActions actions s1
                  | None => s1
                  end)).
  { destruct (a_actions data); [apply actions_inv|]; exact I1. }
  match type of I2 with controlsInv ?x => set (s2 := x) in * end. clearbody s2.
  destruct (a_handled data); [|exact I2].
  refine (controls_inv _ I2). clear. controls_start s2.
  destruct s_timeout as [[|id]|], s_lastText as [[|c0 t0]|], b_speech; handlers; reflexivity.
Qed.

Lemma click_controls_inv (J : string -> option Json) (mode : RecordingMode) (s : State) :
  controlsInv s -> controlsInv (step J (EvMicClick mode) s).
Proof.
  intros I.
  assert (T : forall b, controlsInv (toggleRecording mode b s)).
  { intros b. unfold toggleRecording. destruct (isRecording s) eqn:R.
    - clear -I. unfold controlsInv in *. destruct_state s.
      destruct I as (I1 & I2 & I3 & I4 & I5).
      destruct s_mediaRecorder, s_audioContext, s_wsOpen, s_target, s_mode as [[|]|];
        handlers; cbn [isSome] in *;
        repeat (match goal with |- _ /\ _ => split end); congruence.
    - refine (controls_inv _ I). clear. controls_start s.
      destruct s_isRecording, s_timeout as [[|id]|], s_activeAudio; handlers; reflexivity. }
  destruct mode; cbn [step]; [apply T|].
  destruct (hasNavMicButton (browser s)); [apply T | exact I].
Qed.

Lemma granted_controls_inv (J : string -> option Json) (s : State) :
  controlsInv s -> controlsInv (step J EvMediaGranted s).
Proof.
  unfold controlsInv. destruct_state s. destruct s_browser as [b_nav b_upload b_speech].
  intros (I1 & I2 & I3 & I4 & I5). subst.
  destruct s_starts as [|[mode b] r], b_nav; handlers; repeat split; assumption.
Qed.

Lemma step_controls_inv (J : string -> option Json) (e : Event) (s : State) :
  controlsInv s -> controlsInv (step J e s).
Proof.
  intros I. destruct (inbound e) eqn:Ie.
  { exact (controls_inv (inbound_controls J e s Ie) I). }
  destruct e as [ | | |m|id|mode| | |d|r|v| |r|f|r|a|a|a| |p]; try discriminate Ie.
  - exact (click_controls_inv J mode I).
  - exact (granted_controls_inv J I).
  - destruct r as [|[|] data]; try discriminate Ie. exact (assist_inv J data I).
  - exact (send_inv I).
  - cbn [step]. destruct (isProcessing s); [exact (query_resume_inv r I) | exact I].
Qed.

Lemma run_controls_inv (J : string -> option Json) (events : list Event) (s : State) :
  controlsInv s -> controlsInv (run J events s).
Proof.
  revert s. induction events as [|e r IH]; intros s I; [exact I|].
  exact (IH _ (step_controls_inv J e I)).
Qed.

(** X9.  In every state the page reaches, the send button is disabled
    exactly while a query is in flight ([isProcessing]); and pressing send
    twice in a row issues one query only: the second call finds the guard
    set and does nothing. *)
Theorem query_guard (J : string -> option Json) (events : list Event) (b : Browser) :
  sendButtonDisabled (run J events (initialState b))
  = isProcessing (run J events (initialState b))
  /\ handleSendMessage (handleSendMessage (run J events (initialState b)))
     = handleSendMessage (run J events (initialState b)).
Proof.
  pose proof (run_controls_inv J events (s := initialState b)) as I.
  split.
  - apply I. repeat split. discriminate.
  - generalize (run J events (initialState b)). clear. intros s.
    destruct_state s. unfold handleSendMessage at 2 3. cbn [messageInput isProcessing].
    destruct (is_empty (trim s_input) || s_isProcessing) eqn:G.
    + unfold handleSendMessage. cbn [messageInput isProcessing]. rewrite G. reflexivity.
    + handlers. reflexivity.
Qed.


Lemma revoked_neutral (l : list Effect) :
  forallb neutral l = true -> flat_map isRevokeOf l = [].
Proof.
  induction l as [|e r IH]; intros N; [reflexivity|].
  cbn [forallb] in N. apply andb_prop in N. destruct N as [N1 N2].
  cbn [flat_map]. rewrite (IH N2). destruct e; try discriminate N1; reflexivity.
Qed.

Lemma startsLive_snoc (l : list Effect) (e : Effect) :
  startsLive l ->
  match e with
  | AudioPlay a => ~ In a (flat_map isRevokeOf l)
  | _ => True
  end ->
  startsLive (l ++ [e]).
Proof.
  intros S H l0 a l1 E.
  destruct l1 as [|x l1 _] using rev_ind.
  - change (l0 ++ [AudioPlay a]) with (l0 ++ [AudioPlay a]) in E.
    apply app_inj_tail in E. destruct E as [-> ->]. exact H.
  - rewrite app_comm_cons, app_assoc in E. apply app_inj_tail in E.
    destruct E as [-> _]. exact (S _ _ _ eq_refl).
Qed.

Lemma startsLive_neutral (l l' : list Effect) :
  startsLive l -> forallb neutral l' = true -> startsLive (l ++ l').
Proof.
  intros S. induction l' as [|e r IH] using rev_ind; intros N.
  - rewrite app_nil_r. exact S.
  - rewrite forallb_app in N. apply andb_prop in N. destruct N as [N1 N2].
    rewrite app_assoc. apply startsLive_snoc; [exact (IH N1)|].
    cbn in N2. destruct e; try exact I. discriminate N2.
Qed.

Lemma pframe_urlInv (s s' : State) : pframe s s' -> urlInv s -> urlInv s'.
Proof.
  intros [V (l & L & N)] (U1 & U2 & U3 & U4).
  unfold playbackView in V. injection V as Vq Vp Va Vl Vn.
  assert (P : played s' = played s).
  { unfold played. rewrite L, flat_map_app, (isPlay_neutral _ N). apply app_nil_r. }
  assert (R : revoked s' = revoked s).
  { unfold revoked. rewrite L, flat_map_app, (revoked_neutral _ N). apply app_nil_r. }
  unfold urlInv. rewrite P, R, Vl, L.
  split; [exact U1|]. split; [exact U2|]. split; [exact U3|].
  exact (@startsLive_neutral _ _ U4 N).
Qed.

Lemma sorted_not_before (p r : list nat) (q : nat) :
  StronglySorted lt (p ++ q :: r) -> ~ In q p.
Proof.
  induction p as [|x p IH]; cbn [app]; intros So; [intros []|].
  inversion So as [|? ? So' Lt]; subst. intros [-> | H].
  - rewrite Forall_forall in Lt.
    assert (H : In q (p ++ q :: r)) by (apply in_or_app; right; left; reflexivity).
    specialize (Lt q H). lia.
  - exact (IH So' H).
Qed.

(** A queued URL, and the next URL to come, belong to no clip that started. *)
Lemma ordered_fresh (n : nat) (p q : list nat) :
  ordered n (p ++ q) -> (forall a, In a q -> ~ In a p) /\ ~ In n p.
Proof.
  intros [So Bo]. split.
  - intros a Ha. apply in_split in Ha. destruct Ha as (q1 & q2 & ->).
    rewrite app_assoc in So. intros Hp.
    apply (@sorted_not_before _ _ _ So). apply in_or_app. left. exact Hp.
  - intros Hn. rewrite Forall_forall in Bo.
    assert (H : In n (p ++ q)) by (apply in_or_app; left; exact Hn).
    specialize (Bo n H). lia.
Qed.

Lemma reset_urlInv (s : State) :
  queueInv s -> urlInv s -> urlInv (resetAudioPlaybackState s).
Proof.
  intros I U. url_start s I U.
  - destruct s_activeAudio as [a|]; handlers; cbn [filter]; url_lists.
    + split; [exact U1|]. split; [exact U2|].
      split; [intros ? []|]. apply startsLive_snoc; [exact U4 | exact I].
    + split; [exact U1|]. split; [exact U2|]. split; [intros ? [] | exact U4].
  - handlers. cbn [filter]. rewrite Nat.eqb_refl. cbn [negb]. url_lists.
    split; [exact U1|]. split; [exact U2|].
    split; [intros ? []|]. apply startsLive_snoc; [exact U4 | exact I].
Qed.

Lemma finalize_urlInv (s : State) :
  queueInv s -> urlInv s -> urlInv (finalizeAudioResponse s).
Proof.
  intros I U. url_start s I U.
  - destruct s_chunks as [|c r];
      [handlers; split; [exact U1|]; split; [exact U2|]; split; assumption|].
    destruct (ordered_fresh _ _ I3) as [Fq Fn].
    assert (Fresh : forall q, q = s_nextUrl \/ In q s_queue ->
                      ~ In q (flat_map isRevokeOf s_log)).
    { intros q [-> | Hq] Hr; [exact (Fn (U1 _ Hr)) | exact (Fq _ Hq (U1 _ Hr))]. }
    destruct s_indicator, s_queue as [|q qs]; handlers; cbn [app]; handlers; url_lists.
    all: split; [apply incl_appl; exact U1|].
    all: split; [exact U2|].
    all: split;
      [intros x [<- | []]; split;
         [apply in_or_app; right; left; reflexivity
         | apply Fresh; first [left; reflexivity | right; left; reflexivity]]|].
    all: snocs; apply startsLive_snoc;
      [| rewrite ?flat_map_app; cbn [flat_map isRevokeOf]; rewrite ?app_nil_r;
         apply Fresh; first [left; reflexivity | right; left; reflexivity]].
    all: first [exact U4 | apply startsLive_snoc; [exact U4 | exact I]].
  - destruct s_chunks as [|c r];
      [handlers; split; [exact U1|]; split; [exact U2|]; split; assumption|].
    destruct s_indicator; handlers; url_lists.
    all: split; [exact U1|]. all: split; [exact U2|]. all: split; [exact U3|].
    all: first [exact U4 | apply startsLive_snoc; [exact U4 | exact I]].
Qed.

Lemma audioFinished_urlInv (audio : nat) (s : State) :
  queueInv s -> urlInv s -> existsb (Nat.eqb audio) (liveAudio s) = true ->
  urlInv (audioFinished audio s).
Proof.
  intros I U Ex. url_start s I U; [discriminate Ex|].
  apply existsb_single in Ex. subst audio.
  destruct (U3 a (or_introl eq_refl)) as [Pa Ra].
  destruct (ordered_fresh _ _ I3) as [Fq _].
  assert (N2 : NoDup (flat_map isRevokeOf s_log ++ [a])).
  { apply NoDup_app; [exact U2 | repeat constructor; intros [] |].
    intros x Hx [<- | []]. exact (Ra Hx). }
  assert (I1 : incl (flat_map isRevokeOf s_log ++ [a]) (flat_map isPlay s_log)).
  { intros x Hx. apply in_app_or in Hx. destruct Hx as [Hx | [<- | []]];
      [exact (U1 _ Hx) | exact Pa]. }
  destruct s_queue as [|q qs]; handlers; cbn [filter]; rewrite !Nat.eqb_refl; handlers;
    cbn [filter app]; url_lists.
  - split; [exact I1|]. split; [exact N2|]. split; [intros ? []|].
    snocs. apply startsLive_snoc; [|exact I].
    apply startsLive_snoc; [exact U4 | exact I].
  - assert (Hq : ~ In q (flat_map isRevokeOf s_log ++ [a])).
    { intros Hx. apply (Fq q (or_introl eq_refl)). exact (I1 _ Hx). }
    split; [apply incl_appl; exact I1|]. split; [exact N2|].
    split; [intros x [<- | []]; split;
              [apply in_or_app; right; left; reflexivity | exact Hq]|].
    snocs. apply startsLive_snoc.
    + apply startsLive_snoc; [exact U4 | exact I].
    + rewrite flat_map_app. cbn [flat_map isRevokeOf app]. exact Hq.
Qed.

Lemma turn_complete_urlInv (J : string -> option Json) (s : State) :
  queueInv s -> urlInv s -> urlInv (step J (EvMessage MsgTurnComplete) s).
Proof.
  intros I U. cbv beta iota zeta delta [step handleLiveMessage].
  pose proof (pframe_urlInv (clearNav_pframe s) U) as U0.
  pose proof (pframe_inv (clearNav_pframe s) I) as I0.
  set (s0 := clearNavSpeechFallback s) in *. clearbody s0.
  destruct (navSuppressRealtime s0).
  - exact (pframe_urlInv (turn_end_pframe true s0) U0).
  - apply (pframe_urlInv (turn_end_pframe false _)).
    destruct (negb (is_nil (pendingAudioChunks s0))).
    + exact (finalize_urlInv I0 U0).
    + destruct (navAwaitingResponse s0 && truthy (lastResponseText s0)).
      * exact (pframe_urlInv (speak_pframe _ s0) U0).
      * exact U0.
Qed.

Lemma start_urlInv (mode : RecordingMode) (buttonEl : Button) (s : State) :
  queueInv s -> urlInv s -> urlInv (startRecording mode buttonEl s).
Proof.
  intros I U. unfold startRecording. destruct (isRecording s); [exact U|].
  assert (P0 : pframe s (resetNavAssistState s)).
  { pframe_start s. destruct s_timeout as [[|id]|]; handlers. all: pframe_done. }
  pose proof (reset_urlInv (pframe_inv P0 I) (pframe_urlInv P0 U)) as U1.
  set (s1 := resetAudioPlaybackState (resetNavAssistState s)) in *. clearbody s1.
  refine (pframe_urlInv _ U1). split; [reflexivity|].
  eexists. split; [reflexivity | reflexivity].
Qed.

Lemma click_urlInv (J : string -> option Json) (mode : RecordingMode) (s : State) :
  queueInv s -> urlInv s -> urlInv (step J (EvMicClick mode) s).
Proof.
  intros I U.
  assert (T : forall b, urlInv (toggleRecording mode b s)).
  { intros b. unfold toggleRecording. destruct (isRecording s).
    - exact (pframe_urlInv (stop_pframe s) U).
    - exact (start_urlInv mode b I U). }
  destruct mode; cbn [step]; [apply T|].
  destruct (hasNavMicButton (browser s)); [apply T | exact U].
Qed.

Lemma step_urlInv (J : string -> option Json) (e : Event) (s : State) :
  queueInv s -> urlInv s -> urlInv (step J e s).
Proof.
  intros I U.
  destruct (idleEvent e) eqn:Ie.
  { exact (pframe_urlInv (frame_pframe (proj1 (@idle_frame J e s Ie))) U). }
  destruct e as [ | | |m|id|mode| | |d|r|v| |r|f|r|a|a|a| |p]; try discriminate Ie.
  - destruct m; try discriminate Ie.
    + exact (pframe_urlInv (text_pframe J _ s) U).
    + exact (pframe_urlInv (audio_pframe J _ _ s) U).
    + exact (pframe_urlInv (navigate_pframe J _ _ s) U).
    + exact (turn_complete_urlInv J I U).
  - exact (pframe_urlInv (timer_pframe J id s) U).
  - exact (click_urlInv J mode I U).
  - exact (pframe_urlInv (granted_pframe J s) U).
  - exact (pframe_urlInv (assist_pframe J r s) U).
  - cbn [step]. destruct (existsb (Nat.eqb a) (liveAudio s)) eqn:Ex;
      [exact (audioFinished_urlInv a I U Ex) | exact U].
  - cbn [step]. destruct (existsb (Nat.eqb a) (liveAudio s)) eqn:Ex;
      [exact (audioFinished_urlInv a I U Ex) | exact U].
Qed.

Lemma run_urlInv (J : string -> option Json) (events : list Event) (s : State) :
  queueInv s -> urlInv s -> urlInv (run J events s).
Proof.
  revert s. induction events as [|e r IH]; intros s I U; [exact U|].
  exact (IH _ (step_inv J e I) (step_urlInv J e I U)).
Qed.

(** X11.  In every run of the page an object URL is revoked once at most,
    and only after its clip started; no clip ever starts on a URL that was
    revoked before; and the URL of the element that plays is not revoked. *)
Theorem url_life (J : string -> option Json) (events : list Event) (b : Browser) :
  NoDup (revoked (run J events (initialState b)))
  /\ incl (revoked (run J events (initialState b)))
       (played (run J events (initialState b)))
  /\ (forall l0 a l1,
        log (run J events (initialState b)) = l0 ++ AudioPlay a :: l1 ->
        ~ In (RevokeObjectURL a) l0)
  /\ (forall a, In a (liveAudio (run J events (initialState b))) ->
        ~ In (RevokeObjectURL a) (log (run J events (initialState b)))).
Proof.
  assert (R : forall l a, In (RevokeObjectURL a) l -> In a (flat_map isRevokeOf l)).
  { intros l a H. apply in_flat_map. exists (RevokeObjectURL a).
    split; [exact H | left; reflexivity]. }
  destruct (@run_urlInv J events (initialState b) (initial_inv b)) as (U1 & U2 & U3 & U4).
  { split; [intros ? []|]. split; [constructor|]. split; [intros ? []|].
    intros l0 a l1 E. destruct l0; discriminate E. }
  split; [exact U2|]. split; [exact U1|]. split.
  - intros l0 a l1 E H. exact (U4 _ _ _ E (R _ _ H)).
  - intros a Ha H. exact (proj2 (U3 a Ha) (R _ _ H)).
Qed.

(** X12.  The session id that a successful answer brings is stored even
    when the rest of the answer cannot be shown, an answer without one and
    a failed request keep the id held before, and the next query that is
    sent carries the stored id together with the trimmed message and the
    current page. *)
Theorem session_id_carried (J : string -> option Json) (r : QueryResult)
  (message : string) (s : State) :
  isProcessing s = true -> trim message <> "" ->
  sessionId (step J (EvQueryResponse r) s) = sessionAfter r s
  /\ log (run J [EvQueryResponse r; EvInput message; EvSend] s)
     = log (step J (EvQueryResponse r) s)
       ++ [AddMessage (trim message) User None false; AddLoadingMessage;
           Fetch (FetchQuery (trim message) (sessionAfter r s)
                    (currentPage (locationHash (step J (EvQueryResponse r) s))))].
Proof.
  intros P T. unfold run. cbn [fold_left]. cbn [step]. rewrite P.
  assert (Q : forall s1, isProcessing s1 = false ->
            log (handleSendMessage (set_messageInput message s1))
            = log s1 ++ [AddMessage (trim message) User None false; AddLoadingMessage;
                         Fetch (FetchQuery (trim message) (sessionId s1)
                                  (currentPage (locationHash s1)))]).
  { intros s1 P1. destruct_state s1. subst. unfold handleSendMessage.
    cbn [messageInput isProcessing set_messageInput].
    destruct (trim message) as [|c0 t0] eqn:E; [congruence|].
    handlers. rewrite <- !app_assoc. reflexivity. }
  assert (R : sessionId (handleSendMessage_resume r s) = sessionAfter r s
              /\ isProcessing (handleSendMessage_resume r s) = false).
  { clear. unfold sessionAfter. destruct_state s.
    destruct r as [|[|] [[content tool route session]|]]; handlers.
    2: destruct session as [[|c0 t0]|], content as [c|], route as [[|c1 t1]|]; handlers.
    all: split; reflexivity. }
  destruct R as [R1 R2]. split; [exact R1|].
  rewrite (Q _ R2), R1. reflexivity.
Qed.

Lemma session_id_carried_witness :
  isProcessing queryPending = true
  /\ sessionId queryPending = None
  /\ sessionId
       (step noJSON
          (EvQueryResponse
             (QueryResp true (Some (mkQueryData None None None (Some "s-1")))))
          queryPending)
     = Some "s-1".
Proof.
  split; [reflexivity|]. split; [reflexivity|].
  exact (proj1 (@session_id_carried noJSON
                  (QueryResp true (Some (mkQueryData None None None (Some "s-1"))))
                  "next" queryPending eq_refl ltac:(discriminate))).
Defined.

Lemma live_finalize_inv (s : LiveChat.State) :
  liveQueueInv s -> liveQueueInv (LiveChat.finalizeAudioResponse s).
Proof.
  intros I. live_inv_start s I.
  - destruct l_chunks as [|c r]; [live_handlers; live_same I2 I3|].
    destruct l_indicator, l_queue as [|q qs]; live_handlers; cbn [app]; live_handlers.
    all: split; [right; eexists; split; reflexivity|].
    all: split; [live_trace I2|].
    all: live_lists; eapply ordered_snoc; [exact I3 | live_lists; reflexivity].
  - destruct l_chunks as [|c r]; [live_handlers; live_same I2 I3|].
    destruct l_indicator; live_handlers.
    all: split; [right; eexists; split; reflexivity|].
    all: split; [live_trace I2|].
    all: live_lists; eapply ordered_snoc; [exact I3 | live_lists; reflexivity].
Qed.

Lemma live_ended_inv (a : nat) (s : LiveChat.State) (failed : bool) :
  liveQueueInv s -> existsb (Nat.eqb a) (LiveChat.liveAudio s) = true ->
  liveQueueInv
    ((if failed then LiveChat.onaudioerror a else LiveChat.onended a)
       (LiveChat.set_loading (LiveChat.remove a (LiveChat.loading s))
          (LiveChat.set_liveAudio (LiveChat.remove a (LiveChat.liveAudio s)) s))).
Proof.
  intros I Ex. live_inv_start s I; [discriminate Ex|].
  apply existsb_single in Ex. subst a0.
  destruct failed, l_queue as [|q qs]; live_handlers; cbn [filter];
    rewrite !Nat.eqb_refl; live_handlers; cbn [filter app].
  all: first
         [ split; [left; split; reflexivity|]
         | split; [right; eexists; split; reflexivity|] ].
  all: split; [live_trace I2|].
  all: live_lists; rewrite ?app_nil_r in I3; exact I3.
Qed.

Lemma liveFrame_inv (s s' : LiveChat.State) :
  liveFrame s s' -> liveQueueInv s -> liveQueueInv s'.
Proof.
  intros [V (l & L & N)] (I1 & I2 & I3). injection V as Vq Vp Vl Vn.
  assert (P : flat_map liveIsPlay l = []).
  { clear -N. induction l as [|e r IH]; [reflexivity|].
    cbn [forallb] in N. apply andb_prop in N. destruct N as [N1 N2].
    cbn [flat_map]. rewrite (IH N2). destruct e; try discriminate N1; reflexivity. }
  assert (T : forall st, fold_left livePlayStep l st = st).
  { clear -N. induction l as [|e r IH]; intros st; [reflexivity|].
    cbn [forallb] in N. apply andb_prop in N. destruct N as [N1 N2].
    cbn [fold_left]. rewrite (IH N2).
    destruct st as [cur|]; [|reflexivity]. destruct e; try discriminate N1; reflexivity. }
  unfold liveQueueInv, livePlayed, livePlayTrace in *.
  rewrite L, fold_left_app, flat_map_app, P, app_nil_r, I2, T, Vq, Vp, Vl, Vn.
  split; [exact I1|]. split; [reflexivity | exact I3].
Qed.

Lemma live_step_frame (e : LiveChat.Event) (s : LiveChat.State) :
  match e with
  | LiveChat.EvMessage LiveChat.STurnComplete
  | LiveChat.EvAudioEnded _ | LiveChat.EvAudioError _ => True
  | LiveChat.EvLoadedMetadata _ valid => valid = true -> liveFrame s (LiveChat.step e s)
  | _ => liveFrame s (LiveChat.step e s)
  end.
Proof.
  unfold liveFrame.
  destruct e as [ | | | |m| | | |d|mode|v| |a|a|a valid|a| ]; try exact I.
  all: live_state s.
  - live_handlers. live_frame_done.
  - live_handlers. live_frame_done.
  - live_handlers. live_frame_done.
  - live_handlers. live_frame_done.
  - destruct m; try exact I; live_handlers; try live_frame_done.
    destruct audio as [[|c0 t0]|]; [live_frame_done | | live_frame_done].
    destruct (atob (String c0 t0)) as [[|x r]|]; live_frame_done.
  - destruct l_recording, l_recorder, l_context, l_open; live_handlers; live_frame_done.
  - destruct l_starts, l_recording; live_handlers; live_frame_done.
  - destruct l_starts; live_handlers; live_frame_done.
  - destruct l_recording, l_open; live_handlers; live_frame_done.
  - destruct mode; live_handlers; live_frame_done.
  - live_handlers. live_frame_done.
  - unfold LiveChat.step, LiveChat.sendTextMessage. cbn [LiveChat.textInput LiveChat.websocketOpen].
    destruct (is_empty (trim l_input) || negb l_open); [live_frame_done|].
    destruct l_mode; live_handlers; live_frame_done.
  - intros ->. unfold LiveChat.step. cbn [LiveChat.loading].
    destruct (existsb (Nat.eqb a) l_loading); live_handlers; live_frame_done.
  - unfold LiveChat.step. cbn [LiveChat.liveAudio].
    destruct (existsb (Nat.eqb a) l_live); live_handlers; live_frame_done.
  - destruct l_recording, l_recorder, l_context; live_handlers; live_frame_done.
Qed.

Lemma live_step_inv (e : LiveChat.Event) (s : LiveChat.State) :
  validMetadata e = true -> liveQueueInv s -> liveQueueInv (LiveChat.step e s).
Proof.
  intros V I. pose proof (live_step_frame e s) as F.
  destruct e as [ | | | |m| | | |d|mode|v| |a|a|a valid|a| ];
    try exact (liveFrame_inv F I).
  - destruct m; try exact (liveFrame_inv F I).
    cbn [LiveChat.step LiveChat.handleServerMessage].
    apply live_finalize_inv. refine (liveFrame_inv _ I).
    split; [reflexivity|]. exists []. rewrite app_nil_r. split; reflexivity.
  - cbn [LiveChat.step]. destruct (existsb (Nat.eqb a) (LiveChat.liveAudio s)) eqn:Ex;
      [exact (live_ended_inv a false I Ex) | exact I].
  - cbn [LiveChat.step]. destruct (existsb (Nat.eqb a) (LiveChat.liveAudio s)) eqn:Ex;
      [exact (live_ended_inv a true I Ex) | exact I].
  - exact (liveFrame_inv (F V) I).
Qed.

Lemma live_run_inv (events : list LiveChat.Event) (s : LiveChat.State) :
  forallb validMetadata events = true -> liveQueueInv s ->
  liveQueueInv (LiveChat.run events s).
Proof.
  revert s. induction events as [|e r IH]; intros s V I; [exact I|].
  cbn [forallb] in V. apply andb_prop in V. destruct V as [V1 V2].
  exact (IH _ V2 (live_step_inv e V1 I)).
Qed.

Lemma livePlayTrace_failed (l : list LiveChat.Effect) :
  fold_left livePlayStep l None = None.
Proof. induction l as [|e r IH]; [reflexivity | exact IH]. Qed.

(** A clip that has started is the current one, or its URL was revoked
    since. *)
Lemma livePlayTrace_ended (l0 l1 : list LiveChat.Effect) (a : nat)
  (st : option (option nat)) (cur : option nat) :
  fold_left livePlayStep (l0 ++ LiveChat.AudioPlay a :: l1) st = Some cur ->
  cur = Some a \/ In (LiveChat.RevokeObjectURL a) l1.
Proof.
  revert cur. induction l1 as [|e r IH] using rev_ind; intros cur.
  - rewrite fold_left_app. cbn [fold_left].
    destruct (fold_left livePlayStep l0 st) as [[c|]|]; cbn [livePlayStep];
      try discriminate. intros [= <-]. left. reflexivity.
  - rewrite app_comm_cons, app_assoc, fold_left_app. cbn [fold_left].
    destruct (fold_left livePlayStep (l0 ++ LiveChat.AudioPlay a :: r) st) as [c|] eqn:E;
      [|discriminate].
    destruct (IH c eq_refl) as [-> | H].
    + destruct e; cbn [livePlayStep]; try (intros [= <-]; left; reflexivity);
        try discriminate.
      destruct (Nat.eqb a url) eqn:Eu; [|intros [= <-]; left; reflexivity].
      apply Nat.eqb_eq in Eu. subst url. intros _. right.
      apply in_or_app. right. left. reflexivity.
    + intros _. right. apply in_or_app. left. exact H.
Qed.

(** X13.  On the live chat page, as long as every audio element reports a
    valid duration: at most one clip plays at a time, clips start in the
    order in which they were queued, and when a clip starts the URL of every
    clip that started before it has been revoked, at its end or at its
    failure. *)
Theorem live_queue_in_order (events : list LiveChat.Event) :
  forallb validMetadata events = true ->
  (List.length (LiveChat.liveAudio (LiveChat.run events LiveChat.initialState)) <= 1)%nat
  /\ livePlayTrace (LiveChat.log (LiveChat.run events LiveChat.initialState))
     = Some (hd_error (LiveChat.liveAudio (LiveChat.run events LiveChat.initialState)))
  /\ StronglySorted lt
       (livePlayed (LiveChat.run events LiveChat.initialState)
        ++ LiveChat.audioQueue (LiveChat.run events LiveChat.initialState))
  /\ (forall l0 a l1 c l2,
        LiveChat.log (LiveChat.run events LiveChat.initialState)
        = l0 ++ LiveChat.AudioPlay a :: l1 ++ LiveChat.AudioPlay c :: l2 ->
        (a < c)%nat /\ In (LiveChat.RevokeObjectURL a) l1).
Proof.
  intros V.
  assert (I0 : liveQueueInv LiveChat.initialState).
  { split; [left; split; reflexivity|]. split; [reflexivity|]. split; constructor. }
  pose proof (live_run_inv events V I0) as I.
  set (s := LiveChat.run events LiveChat.initialState) in *. clearbody s.
  destruct I as (I1 & I2 & I3 & _).
  split.
  { destruct I1 as [[_ ->] | (a & -> & _)]; cbn; auto. }
  split; [exact I2|]. split; [exact I3|].
  intros l0 a l1 c l2 L. split.
  - unfold livePlayed in I3. rewrite L in I3.
    rewrite flat_map_app in I3. cbn [flat_map liveIsPlay app] in I3.
    rewrite flat_map_app in I3. cbn [flat_map liveIsPlay app] in I3.
    rewrite <- !app_assoc in I3. cbn [app] in I3. rewrite <- !app_assoc in I3.
    cbn [app] in I3. exact (@sorted_apart _ _ _ _ _ I3).
  - unfold livePlayTrace in I2. rewrite L in I2.
    replace (l0 ++ LiveChat.AudioPlay a :: l1 ++ LiveChat.AudioPlay c :: l2)
      with ((l0 ++ LiveChat.AudioPlay a :: l1) ++ [LiveChat.AudioPlay c] ++ l2) in I2
      by (rewrite <- app_assoc; reflexivity).
    rewrite app_assoc, fold_left_app in I2.
    destruct (fold_left livePlayStep ((l0 ++ LiveChat.AudioPlay a :: l1)
                                        ++ [LiveChat.AudioPlay c]) (Some None))
      as [c1|] eqn:T1; [|rewrite livePlayTrace_failed in I2; discriminate I2].
    rewrite fold_left_app in T1. cbn [fold_left] in T1.
    destruct (fold_left livePlayStep (l0 ++ LiveChat.AudioPlay a :: l1) (Some None))
      as [cur|] eqn:T0; [|discriminate T1].
    destruct (@livePlayTrace_ended _ _ _ _ _ T0) as [-> | H]; [discriminate T1 | exact H].
Qed.

Lemma live_queue_in_order_witness :
  forallb validMetadata liveTwoTurns = true
  /\ livePlayed (LiveChat.run liveTwoTurns LiveChat.initialState) = [0%nat; 1%nat]
  /\ (List.length (LiveChat.liveAudio (LiveChat.run liveTwoTurns LiveChat.initialState))
      <= 1)%nat.
Proof.
  split; [reflexivity|]. split; [reflexivity|].
  exact (proj1 (live_queue_in_order liveTwoTurns eq_refl)).
Defined.

(** ** An element that reports an invalid duration *)
(** X14.  On the live chat page an element that reports an invalid duration
    is skipped but stays in place: when it then ends (or fails), the queue
    advances a second time.  With two clips waiting, both are started, the
    second while the first plays, and the URL of the skipped clip is revoked
    twice. *)
Theorem live_skip_advances_twice (s : LiveChat.State) (a q1 q2 : nat)
  (rest : list nat) (failed : bool) :
  existsb (Nat.eqb a) (LiveChat.loading s) = true ->
  existsb (Nat.eqb a) (LiveChat.liveAudio s) = true ->
  LiveChat.audioQueue s = q1 :: q2 :: rest ->
  LiveChat.log
    (LiveChat.run
       [LiveChat.EvLoadedMetadata a false;
        if failed then LiveChat.EvAudioError a else LiveChat.EvAudioEnded a] s)
  = LiveChat.log s
    ++ [LiveChat.ConsoleWarn "Invalid audio duration, skipping";
        LiveChat.RevokeObjectURL a; LiveChat.AudioPlay q1]
    ++ (if failed then [LiveChat.ConsoleError "Error playing audio:"] else [])
    ++ [LiveChat.RevokeObjectURL a; LiveChat.AudioPlay q2]
  /\ LiveChat.liveAudio
       (LiveChat.run
          [LiveChat.EvLoadedMetadata a false;
           if failed then LiveChat.EvAudioError a else LiveChat.EvAudioEnded a] s)
     = LiveChat.remove a (LiveChat.liveAudio s ++ [q1]) ++ [q2]
  /\ LiveChat.audioQueue
       (LiveChat.run
          [LiveChat.EvLoadedMetadata a false;
           if failed then LiveChat.EvAudioError a else LiveChat.EvAudioEnded a] s)
     = rest.
Proof.
  intros El Ev Q. live_state s. subst.
  assert (Ev' : existsb (Nat.eqb a) (l_live ++ [q1]) = true)
    by (rewrite existsb_app, Ev; reflexivity).
  destruct failed; unfold LiveChat.run; cbn [fold_left];
    live_handlers; rewrite El; live_handlers; rewrite Ev'; live_handlers;
    rewrite <- ?app_assoc; cbn [app]; repeat split.
Qed.

Lemma live_skip_advances_twice_witness :
  LiveChat.liveAudio liveThreeClips = [0%nat]
  /\ LiveChat.audioQueue liveThreeClips = [1%nat; 2%nat]
  /\ LiveChat.liveAudio
       (LiveChat.run [LiveChat.EvLoadedMetadata 0 false; LiveChat.EvAudioEnded 0]
          liveThreeClips)
     = LiveChat.remove 0 (LiveChat.liveAudio liveThreeClips ++ [1%nat]) ++ [2%nat].
Proof.
  split; [vm_compute; reflexivity|]. split; [vm_compute; reflexivity|].
  exact (proj1 (proj2
    (@live_skip_advances_twice liveThreeClips 0%nat 1%nat 2%nat [] false
       ltac:(vm_compute; reflexivity) ltac:(vm_compute; reflexivity)
       ltac:(vm_compute; reflexivity)))).
Defined.

(** X15.  On the live chat page, stopping a recording while the socket is
    open sends one audio_stream_end envelope; leaving the page never does,
    even in the middle of a recording with the socket open: the listener
    closes the socket before it stops the recording.  Either way no
    recording is active afterwards. *)
Theorem live_unload_sends_no_stream_end (s : LiveChat.State) :
  liveStreamEnds (LiveChat.beforeunload s) = liveStreamEnds s
  /\ LiveChat.isRecording (LiveChat.beforeunload s) = false
  /\ LiveChat.websocketOpen (LiveChat.beforeunload s) = false
  /\ liveStreamEnds (LiveChat.stopRecording s)
     = (liveStreamEnds s + if LiveChat.websocketOpen s then 1 else 0)%nat
  /\ LiveChat.isRecording (LiveChat.stopRecording s) = false.
Proof.
  unfold liveStreamEnds. live_state s.
  destruct l_recording, l_recorder, l_context, l_open; live_handlers;
    rewrite ?filter_app, ?length_app; cbn [filter isLiveStreamEnd List.length app];
    repeat (match goal with |- _ /\ _ => split end); try reflexivity; lia.
Qed.



Lemma visualizer_step (e : LiveChat.Event) (s : LiveChat.State) :
  match e with
  | LiveChat.EvRecordClick => LiveChat.pendingStarts s = 0%nat
  | _ => True
  end ->
  visualizerInv s -> visualizerInv (LiveChat.step e s).
Proof.
  unfold visualizerInv. intros C [V1 V2]. live_state s.
  destruct e as [ | | | |m| | | |d|mode|v| |a|a|a valid|a| ].
  - live_handlers. visualizer_done.
  - live_handlers. visualizer_done.
  - live_handlers. visualizer_done.
  - live_handlers. visualizer_done.
  - destruct m; live_handlers; try visualizer_done.
    + destruct audio as [[|c0 t0]|]; [visualizer_done | | visualizer_done].
      destruct (atob (String c0 t0)) as [[|x r]|]; visualizer_done.
    + destruct l_chunks, l_indicator, l_playing, l_queue; live_handlers; cbn [app];
        live_handlers; visualizer_done.
  - subst. destruct l_recording, l_recorder, l_context, l_open; live_handlers;
      visualizer_done.
  - destruct V2 as [-> | [-> ->]]; live_handlers; visualizer_done.
  - destruct V2 as [-> | [-> ->]]; live_handlers; visualizer_done.
  - destruct l_recording, l_open; live_handlers; visualizer_done.
  - destruct mode; live_handlers; visualizer_done.
  - live_handlers. visualizer_done.
  - unfold LiveChat.step, LiveChat.sendTextMessage.
    cbn [LiveChat.textInput LiveChat.websocketOpen].
    destruct (is_empty (trim l_input) || negb l_open); [visualizer_done|].
    destruct l_mode; live_handlers; visualizer_done.
  - unfold LiveChat.step. cbn [LiveChat.liveAudio].
    destruct (existsb (Nat.eqb a) l_live), l_queue; live_handlers; visualizer_done.
  - unfold LiveChat.step. cbn [LiveChat.liveAudio].
    destruct (existsb (Nat.eqb a) l_live), l_queue; live_handlers; visualizer_done.
  - unfold LiveChat.step. cbn [LiveChat.loading].
    destruct (existsb (Nat.eqb a) l_loading), valid, l_queue; live_handlers;
      visualizer_done.
  - unfold LiveChat.step. cbn [LiveChat.liveAudio].
    destruct (existsb (Nat.eqb a) l_live); live_handlers; visualizer_done.
  - destruct l_recording, l_recorder, l_context; live_handlers; visualizer_done.
Qed.

(** X17.  On the live chat page the visualizer is started before the
    recording flag is set, and its first frame gives up when the flag is
    not set: as long as the record button is not clicked again while a
    permission request is pending, no animation frame is ever requested. *)
Theorem live_visualizer_never_runs (events : list LiveChat.Event) :
  oneStartAtATime events LiveChat.initialState = true ->
  existsb isAnimationFrame (LiveChat.log (LiveChat.run events LiveChat.initialState))
  = false.
Proof.
  assert (G : forall s, visualizerInv s -> oneStartAtATime events s = true ->
                        visualizerInv (LiveChat.run events s)).
  { induction events as [|e r IH]; intros s I O; [exact I|].
    cbn [oneStartAtATime] in O. apply andb_prop in O. destruct O as [O1 O2].
    assert (C : match e with
                | LiveChat.EvRecordClick => LiveChat.pendingStarts s = 0%nat
                | _ => True
                end).
    { destruct e; try exact Logic.I. apply Nat.eqb_eq, O1. }
    exact (IH _ (@visualizer_step e s C I) O2). }
  intros O. apply (G LiveChat.initialState); [|exact O].
  split; [reflexivity | left; reflexivity].
Qed.

Lemma live_visualizer_never_runs_witness :
  oneStartAtATime
    [LiveChat.EvSocketOpen; LiveChat.EvRecordClick; LiveChat.EvMediaGranted;
     LiveChat.EvAudioProcess [SNum (1 # 2)]; LiveChat.EvRecordClick]
    LiveChat.initialState = true
  /\ existsb isAnimationFrame
       (LiveChat.log
          (LiveChat.run
             [LiveChat.EvSocketOpen; LiveChat.EvRecordClick; LiveChat.EvMediaGranted;
              LiveChat.EvAudioProcess [SNum (1 # 2)]; LiveChat.EvRecordClick]
             LiveChat.initialState)) = false.
Proof.
  split; [vm_compute; reflexivity|].
  exact (live_visualizer_never_runs
           [LiveChat.EvSocketOpen; LiveChat.EvRecordClick; LiveChat.EvMediaGranted;
            LiveChat.EvAudioProcess [SNum (1 # 2)]; LiveChat.EvRecordClick]
           ltac:(vm_compute; reflexivity)).
Defined.

(** ** The formatting of a message *)

Example formatMessage_examples :
  map formatMessage
    ["**Total:** 3 of *five*"; "a * b * c"; "***x***"; "2 * 3 ** 4"; "*a**b*"; "**";
     "*a*b*"]
  = ["<strong>Total:</strong> 3 of <em>five</em>"; "a <em> b </em> c";
     "<strong><em>x</strong></em>"; "2 * 3 ** 4"; "<em>a**b</em>"; "**";
     "<em>a</em>b*"].
Proof. vm_compute. reflexivity. Qed.

Lemma of_codes_codes (s : string) : of_codes (codes s) = s.
Proof.
  induction s as [|c r IH]; [reflexivity|]. cbn [codes of_codes]. rewrite IH. f_equal.
  unfold chr, code. rewrite Z.mod_small.
  - rewrite N2Z.id. apply ascii_N_embedding.
  - pose proof (N_ascii_bounded c). lia.
Qed.

Lemma codes_of_codes (l : list Z) :
  Forall (fun c => 0 <= c < 256) l -> codes (of_codes l) = l.
Proof.
  induction 1 as [|c r Hc F IH]; [reflexivity|].
  cbn [of_codes codes]. rewrite IH. f_equal.
  unfold code, chr. rewrite Z.mod_small by exact Hc.
  rewrite N_ascii_embedding; [apply Z2N.id; lia|].
  apply N2Z.inj_lt. rewrite Z2N.id by lia. exact (proj2 Hc).
Qed.

Lemma replaceBold_plain (fuel : nat) (l : list Z) :
  starFree l = true -> replaceBold fuel l = l.
Proof.
  revert l. induction fuel as [|k IH]; intros l S; [reflexivity|].
  destruct l as [|c r]; [reflexivity|].
  cbn [starFree forallb] in S. apply andb_prop in S. destruct S as [Sc Sr].
  cbn [replaceBold]. apply negb_true_iff in Sc. rewrite Sc. cbn [andb].
  rewrite (IH r Sr). reflexivity.
Qed.

Lemma replaceItalic_plain (fuel : nat) (prev : option Z) (l : list Z) :
  starFree l = true -> replaceItalic fuel prev l = l.
Proof.
  revert prev l. induction fuel as [|k IH]; intros prev l S; [reflexivity|].
  destruct l as [|c r]; [reflexivity|].
  cbn [starFree forallb] in S. apply andb_prop in S. destruct S as [Sc Sr].
  cbn [replaceItalic]. apply negb_true_iff in Sc. rewrite Sc. cbn [andb].
  rewrite (IH _ r Sr). reflexivity.
Qed.

Lemma replaceBreaks_starFree (l : list Z) :
  starFree l = true -> starFree (replaceBreaks l) = true.
Proof.
  induction l as [|c r IH]; intros S; [reflexivity|].
  cbn [starFree forallb] in S. apply andb_prop in S. destruct S as [Sc Sr].
  cbn [replaceBreaks]. destruct (c =? 10).
  - unfold starFree. rewrite forallb_app. exact (IH Sr).
  - cbn [starFree forallb]. rewrite Sc. exact (IH Sr).
Qed.

Lemma replaceBreaks_plain (l : list Z) :
  forallb (fun c => negb (c =? 10)) l = true -> replaceBreaks l = l.
Proof.
  induction l as [|c r IH]; intros S; [reflexivity|].
  cbn [forallb] in S. apply andb_prop in S. destruct S as [Sc Sr].
  cbn [replaceBreaks]. apply negb_true_iff in Sc. rewrite Sc, (IH Sr). reflexivity.
Qed.

(** X18.  A text without asterisk comes out of [formatMessage] with every
    line feed replaced by [<br>] and nothing else changed: in particular
    nothing is escaped, so markup in the text reaches [innerHTML] as it is;
    a text without asterisk and without line feed comes out unchanged. *)
Theorem formatMessage_without_stars (text : string) :
  starFree (codes text) = true ->
  formatMessage text = of_codes (replaceBreaks (codes text))
  /\ (forallb (fun c => negb (c =? 10)) (codes text) = true ->
      formatMessage text = text).
Proof.
  intros S.
  assert (E : formatMessage text = of_codes (replaceBreaks (codes text))).
  { unfold formatMessage, formatCodes. cbv zeta.
    rewrite (replaceBold_plain _ _ (replaceBreaks_starFree _ S)).
    rewrite (replaceItalic_plain _ _ _ (replaceBreaks_starFree _ S)). reflexivity. }
  split; [exact E|]. intros N. rewrite E, (replaceBreaks_plain _ N). apply of_codes_codes.
Qed.

Lemma formatMessage_without_stars_witness :
  formatMessage "<img src=x onerror=alert(1)>" = "<img src=x onerror=alert(1)>"
  /\ formatMessage (String (chr 97) (String (chr 10) (String (chr 98) EmptyString)))
     = "a<br>b".
Proof.
  split.
  - exact (proj2 (@formatMessage_without_stars "<img src=x onerror=alert(1)>" eq_refl)
             eq_refl).
  - exact (proj1 (@formatMessage_without_stars
                    (String (chr 97) (String (chr 10) (String (chr 98) EmptyString)))
                    eq_refl)).
Defined.

Lemma lineTerminatorAt_star (l rest : list Z) :
  starFree l = true -> l <> [] ->
  lineTerminatorAt (l ++ 42 :: rest) = lineTerminatorAt l.
Proof.
  intros S N. destruct l as [|a [|b [|c r]]]; [congruence | | |]; cbn [app lineTerminatorAt].
  - destruct rest as [|x y]; cbn; rewrite ?andb_false_r, ?orb_false_r; reflexivity.
  - cbn. rewrite ?andb_false_r, ?orb_false_r. reflexivity.
  - reflexivity.
Qed.

Lemma boldClose_plain (content after : list Z) :
  starFree content = true -> oneLine content = true ->
  boldClose (content ++ 42 :: 42 :: after) = Some (content, after).
Proof.
  induction content as [|c r IH]; intros S O.
  - reflexivity.
  - pose proof (@lineTerminatorAt_star (c :: r) (42 :: after) S ltac:(discriminate)) as T.
    cbn [starFree forallb] in S. apply andb_prop in S. destruct S as [Sc Sr].
    cbn [oneLine] in O. apply andb_prop in O. destruct O as [Oc Or].
    apply negb_true_iff in Sc, Oc.
    change ((c :: r) ++ 42 :: 42 :: after) with (c :: (r ++ 42 :: 42 :: after)) in *.
    cbn [boldClose]. rewrite Sc. cbn [andb]. rewrite T, Oc, (IH Sr Or). reflexivity.
Qed.

Lemma italicClose_plain (prev : Z) (content : list Z) :
  starFree content = true -> oneLine content = true ->
  content <> [] ->
  italicClose prev (content ++ [42]) = Some (content, []).
Proof.
  revert prev. induction content as [|c r IH]; intros prev S O N; [congruence|].
  pose proof (@lineTerminatorAt_star (c :: r) [] S ltac:(discriminate)) as T.
  cbn [starFree forallb] in S. apply andb_prop in S. destruct S as [Sc Sr].
  cbn [oneLine] in O. apply andb_prop in O. destruct O as [Oc Or].
  apply negb_true_iff in Oc.
  change ((c :: r) ++ [42]) with (c :: (r ++ [42])) in *.
  cbn [italicClose]. rewrite (proj1 (negb_true_iff _) Sc). cbn [andb]. rewrite T, Oc.
  destruct r as [|d r'].
  - cbn [app italicClose startsWithStar]. rewrite Sc. reflexivity.
  - rewrite (IH c Sr Or ltac:(discriminate)). reflexivity.
Qed.

Lemma starFree_app (a b : list Z) : starFree (a ++ b) = starFree a && starFree b.
Proof. apply forallb_app. Qed.

Lemma replaceBold_no_pair (fuel : nat) (l : list Z) :
  noStarPair l = true -> replaceBold fuel l = l.
Proof.
  revert l. induction fuel as [|k IH]; intros l P; [reflexivity|].
  destruct l as [|c r]; [reflexivity|].
  cbn [noStarPair] in P. apply andb_prop in P. destruct P as [Pc Pr].
  cbn [replaceBold]. apply negb_true_iff in Pc. rewrite Pc, (IH r Pr). reflexivity.
Qed.

Lemma noStarPair_run (l : list Z) : starFree l = true -> noStarPair (l ++ [42]) = true.
Proof.
  induction l as [|c r IH]; intros S; [reflexivity|].
  cbn [starFree forallb] in S. apply andb_prop in S. destruct S as [Sc Sr].
  cbn [app noStarPair]. apply negb_true_iff in Sc. rewrite Sc. exact (IH Sr).
Qed.

(** X19.  A run of text without asterisk and without line terminator,
    put between two pairs of stars, comes out of [formatMessage] between
    [<strong>] and [</strong>]; put between two single stars, and not
    empty, it comes out between [<em>] and [</em>]. *)
Theorem formatMessage_emphasis (run : string) :
  starFree (codes run) = true -> oneLine (codes run) = true ->
  formatMessage ("**" ++ run ++ "**") = ("<strong>" ++ run ++ "</strong>")%string
  /\ (run <> "" -> formatMessage ("*" ++ run ++ "*") = ("<em>" ++ run ++ "</em>")%string).
Proof.
  intros S O.
  assert (NB : forallb (fun c => negb (c =? 10)) (codes run) = true).
  { clear S. induction (codes run) as [|c r IH]; [reflexivity|].
    cbn [oneLine] in O. apply andb_prop in O. destruct O as [Oc Or].
    cbn [forallb]. rewrite (IH Or), andb_true_r.
    destruct (Z.eqb_spec c 10) as [->|]; [discriminate Oc | reflexivity]. }
  assert (CA : forall a b, codes (a ++ b)%string = codes a ++ codes b).
  { intros a b. induction a as [|c r IH]; [reflexivity|].
    cbn [String.append codes app]. rewrite IH. reflexivity. }
  assert (OA : forall a b, of_codes (a ++ b) = (of_codes a ++ of_codes b)%string).
  { intros a b. induction a as [|c r IH]; [reflexivity|].
    cbn [app of_codes String.append]. rewrite IH. reflexivity. }
  split.
  - unfold formatMessage, formatCodes. cbv zeta. rewrite !CA.
    change (codes "**") with [42; 42].
    rewrite replaceBreaks_plain
      by (rewrite !forallb_app, NB; reflexivity).
    cbn [app]. cbn [List.length replaceBold]. cbn [Z.eqb Pos.eqb andb startsWithStar tl].
    rewrite (@boldClose_plain (codes run) [] S O).
    destruct (List.length (codes run ++ [42; 42])); cbn [replaceBold]; rewrite app_nil_r.
    all: rewrite replaceItalic_plain
      by (rewrite !starFree_app, S; reflexivity).
    all: rewrite !OA, !of_codes_codes; reflexivity.
  - intros N. unfold formatMessage, formatCodes. cbv zeta. rewrite !CA.
    change (codes "*") with [42].
    rewrite replaceBreaks_plain
      by (rewrite !forallb_app, NB; reflexivity).
    destruct (codes run) as [|c r] eqn:Er.
    { destruct run; [congruence | discriminate Er]. }
    assert (Sc : (c =? 42) = false).
    { cbn [starFree forallb] in S. apply negb_true_iff.
      destruct (negb (c =? 42)); [reflexivity | discriminate S]. }
    rewrite replaceBold_no_pair.
    2:{ cbn [app noStarPair startsWithStar]. rewrite Sc, andb_false_r. cbn [negb andb].
        apply noStarPair_run. cbn [starFree forallb] in S.
        apply andb_prop in S. exact (proj2 S). }
    cbn [app List.length replaceItalic startsWithStar].
    rewrite Sc. cbn [Z.eqb Pos.eqb andb negb].
    change (c :: r ++ [42]) with ((c :: r) ++ [42]).
    rewrite (@italicClose_plain 42 (c :: r) S O ltac:(discriminate)).
    destruct (List.length (r ++ [42])); cbn [replaceItalic]; rewrite ?app_nil_r.
    all: rewrite !OA, <- Er, !of_codes_codes; reflexivity.
Qed.

Lemma formatMessage_emphasis_witness :
  formatMessage "**Total: 3**" = "<strong>Total: 3</strong>"
  /\ formatMessage "*five*" = "<em>five</em>".
Proof.
  split.
  - exact (proj1 (@formatMessage_emphasis "Total: 3" eq_refl eq_refl)).
  - exact (proj2 (@formatMessage_emphasis "five" eq_refl eq_refl) ltac:(discriminate)).
Defined.

Lemma boldClose_shorter (l content after : list Z) :
  boldClose l = Some (content, after) -> (List.length after < List.length l)%nat.
Proof.
  revert content. induction l as [|c r IH]; intros content E; [discriminate E|].
  cbn [boldClose] in E. destruct ((c =? 42) && startsWithStar r).
  - injection E as _ <-. destruct r; cbn [tl List.length]; lia.
  - destruct (lineTerminatorAt (c :: r)); [discriminate E|].
    destruct (boldClose r) as [[x y]|]; [|discriminate E].
    injection E as _ <-. specialize (IH x eq_refl). cbn [List.length]. lia.
Qed.

Lemma italicClose_shorter (prev : Z) (l content after : list Z) :
  italicClose prev l = Some (content, after) -> (List.length after < List.length l)%nat.
Proof.
  revert prev content. induction l as [|c r IH]; intros prev content E; [discriminate E|].
  cbn [italicClose] in E. destruct ((c =? 42) && negb (prev =? 42) && negb (startsWithStar r)).
  - injection E as _ <-. cbn [List.length]. lia.
  - destruct (lineTerminatorAt (c :: r)); [discriminate E|].
    destruct (italicClose c r) as [[x y]|] eqn:Ei; [|discriminate E].
    injection E as _ <-. specialize (IH _ _ Ei). cbn [List.length]. lia.
Qed.

(** The length of the text is fuel enough for the second replacement: with
    more it gives the same. *)
Lemma replaceBold_fuel (fuel fuel' : nat) (l : list Z) :
  (List.length l <= fuel)%nat -> (List.length l <= fuel')%nat ->
  replaceBold fuel l = replaceBold fuel' l.
Proof.
  revert fuel' l. induction fuel as [|k IH]; intros fuel' l L L'.
  - destruct l; [|cbn [List.length] in L; lia]. destruct fuel'; reflexivity.
  - destruct l as [|c r]; [destruct fuel'; reflexivity|].
    destruct fuel' as [|k']; [cbn [List.length] in L'; lia|].
    cbn [List.length] in L, L'. cbn [replaceBold].
    assert (R : replaceBold k r = replaceBold k' r) by (apply IH; lia).
    destruct ((c =? 42) && startsWithStar r); [|rewrite R; reflexivity].
    destruct (boldClose (tl r)) as [[x y]|] eqn:Eb; [|rewrite R; reflexivity].
    apply boldClose_shorter in Eb.
    assert (List.length (tl r) <= List.length r)%nat by (destruct r; cbn [tl List.length]; lia).
    rewrite (IH k' y) by lia. reflexivity.
Qed.

(** And for the third. *)
Lemma replaceItalic_fuel (fuel fuel' : nat) (prev : option Z) (l : list Z) :
  (List.length l <= fuel)%nat -> (List.length l <= fuel')%nat ->
  replaceItalic fuel prev l = replaceItalic fuel' prev l.
Proof.
  revert fuel' prev l. induction fuel as [|k IH]; intros fuel' prev l L L'.
  - destruct l; [|cbn [List.length] in L; lia]. destruct fuel'; reflexivity.
  - destruct l as [|c r]; [destruct fuel'; reflexivity|].
    destruct fuel' as [|k']; [cbn [List.length] in L'; lia|].
    cbn [List.length] in L, L'. cbn [replaceItalic].
    assert (R : replaceItalic k (Some c) r = replaceItalic k' (Some c) r) by (apply IH; lia).
    match goal with |- (if ?b then _ else _) = _ => destruct b end; [|rewrite R; reflexivity].
    destruct (italicClose c r) as [[x y]|] eqn:Eb; [|rewrite R; reflexivity].
    apply italicClose_shorter in Eb.
    rewrite (IH k' (Some 42) y) by lia. reflexivity.
Qed.

Section Kept.

Variable P : Z -> bool.
Hypothesis strongP : forallb P (codes "<strong>") = true.
Hypothesis strongEndP : forallb P (codes "</strong>") = true.
Hypothesis emP : forallb P (codes "<em>") = true.
Hypothesis emEndP : forallb P (codes "</em>") = true.

Lemma boldClose_kept (l content after : list Z) :
  boldClose l = Some (content, after) -> forallb P l = true ->
  forallb P content = true /\ forallb P after = true.
Proof.
  revert content. induction l as [|c r IH]; intros content E F; [discriminate E|].
  cbn [forallb] in F. apply andb_prop in F. destruct F as [Fc Fr].
  cbn [boldClose] in E. destruct ((c =? 42) && startsWithStar r).
  - injection E as <- <-. split; [reflexivity|].
    destruct r as [|d r']; [reflexivity|]. cbn [forallb] in Fr.
    apply andb_prop in Fr. exact (proj2 Fr).
  - destruct (lineTerminatorAt (c :: r)); [discriminate E|].
    destruct (boldClose r) as [[x y]|]; [|discriminate E].
    injection E as <- <-. destruct (IH x eq_refl Fr) as [Fx Fy].
    cbn [forallb]. rewrite Fc, Fx, Fy. split; reflexivity.
Qed.

Lemma italicClose_kept (prev : Z) (l content after : list Z) :
  italicClose prev l = Some (content, after) -> forallb P l = true ->
  forallb P content = true /\ forallb P after = true.
Proof.
  revert prev content. induction l as [|c r IH]; intros prev content E F; [discriminate E|].
  cbn [forallb] in F. apply andb_prop in F. destruct F as [Fc Fr].
  cbn [italicClose] in E.
  destruct ((c =? 42) && negb (prev =? 42) && negb (startsWithStar r)).
  - injection E as <- <-. split; [reflexivity | exact Fr].
  - destruct (lineTerminatorAt (c :: r)); [discriminate E|].
    destruct (italicClose c r) as [[x y]|] eqn:Ei; [|discriminate E].
    injection E as <- <-. destruct (IH _ _ Ei Fr) as [Fx Fy].
    cbn [forallb]. rewrite Fc, Fx, Fy. split; reflexivity.
Qed.

Lemma replaceBold_kept (fuel : nat) (l : list Z) :
  forallb P l = true -> forallb P (replaceBold fuel l) = true.
Proof.
  revert l. induction fuel as [|k IH]; intros l F; [exact F|].
  destruct l as [|c r]; [reflexivity|].
  pose proof F as F'. cbn [forallb] in F'. apply andb_prop in F'. destruct F' as [Fc Fr].
  assert (K : forallb P (c :: replaceBold k r) = true).
  { cbn [forallb]. rewrite Fc, (IH r Fr). reflexivity. }
  cbn [replaceBold]. destruct ((c =? 42) && startsWithStar r); [|exact K].
  destruct (boldClose (tl r)) as [[x y]|] eqn:Eb; [|exact K].
  assert (Ft : forallb P (tl r) = true).
  { destruct r as [|d r']; [reflexivity|]. cbn [forallb] in Fr.
    apply andb_prop in Fr. exact (proj2 Fr). }
  destruct (boldClose_kept _ Eb Ft) as [Fx Fy].
  rewrite !forallb_app, strongP, strongEndP, Fx, (IH y Fy). reflexivity.
Qed.

Lemma replaceItalic_kept (fuel : nat) (prev : option Z) (l : list Z) :
  forallb P l = true -> forallb P (replaceItalic fuel prev l) = true.
Proof.
  revert prev l. induction fuel as [|k IH]; intros prev l F; [exact F|].
  destruct l as [|c r]; [reflexivity|].
  pose proof F as F'. cbn [forallb] in F'. apply andb_prop in F'. destruct F' as [Fc Fr].
  assert (K : forallb P (c :: replaceItalic k (Some c) r) = true).
  { cbn [forallb]. rewrite Fc, (IH _ r Fr). reflexivity. }
  cbn [replaceItalic].
  match goal with |- forallb P (if ?b then _ else _) = _ => destruct b end; [|exact K].
  destruct (italicClose c r) as [[x y]|] eqn:Eb; [|exact K].
  destruct (italicClose_kept _ _ Eb Fr) as [Fx Fy].
  rewrite !forallb_app, emP, emEndP, Fx, (IH _ y Fy). reflexivity.
Qed.

End Kept.

Lemma replaceBreaks_noFeed (l : list Z) :
  Forall (fun c => 0 <= c < 256) l -> forallb noFeed (replaceBreaks l) = true.
Proof.
  induction 1 as [|c r Hc F IH]; [reflexivity|].
  cbn [replaceBreaks]. destruct (c =? 10) eqn:Ec.
  - rewrite forallb_app, IH. reflexivity.
  - cbn [forallb]. rewrite IH, andb_true_r. unfold noFeed. rewrite Ec.
    cbn [negb andb]. apply andb_true_intro. split; [apply Z.leb_le | apply Z.ltb_lt]; lia.
Qed.

Lemma codes_bytes (s : string) : Forall (fun c => 0 <= c < 256) (codes s).
Proof.
  induction s as [|c r IH]; [constructor|]. cbn [codes]. constructor; [|exact IH].
  unfold code. pose proof (N_ascii_bounded c). lia.
Qed.

(** X20.  The text that [formatMessage] returns holds no line feed, whatever
    the text it is given: each one has become [<br>], and the two later
    replacements bring none back. *)
Theorem formatMessage_no_line_feed (text : string) :
  forallb (fun c => negb (c =? 10)) (codes (formatMessage text)) = true.
Proof.
  assert (F : forallb noFeed (formatCodes (codes text)) = true).
  { unfold formatCodes. cbv zeta.
    apply replaceItalic_kept; [reflexivity | reflexivity |].
    apply replaceBold_kept; [reflexivity | reflexivity |].
    apply replaceBreaks_noFeed, codes_bytes. }
  unfold formatMessage. rewrite codes_of_codes.
  - rewrite forallb_forall in F |- *. intros c Hc. specialize (F c Hc).
    unfold noFeed in F. destruct (c =? 10); [discriminate F | reflexivity].
  - apply Forall_forall. intros c Hc. rewrite forallb_forall in F. specialize (F c Hc).
    unfold noFeed in F. apply andb_prop in F. destruct F as [F F2].
    apply andb_prop in F. destruct F as [_ F1].
    apply Z.leb_le in F1. apply Z.ltb_lt in F2. lia.
Qed.

(** ** Without the navigation microphone, and with the socket not open *)

Lemma step_chatOnly (J : string -> option Json) (e : Event) (s : State) :
  isNavMicClick e = false -> chatOnly s -> chatOnly (step J e s).
Proof.
  unfold chatOnly. destruct_state s. destruct s_browser as [b_nav b_upload b_speech].
  intros N I. cbn in I. destruct I as (I1 & I2 & I3 & I4 & I5).
  subst s_navAwaiting s_assist.
  destruct e as [ | | |m|id|mode| | |d|r|v| |r|f|r|a|a|a| |p].
  - handlers. chat_done.
  - handlers. chat_done.
  - handlers. chat_done.
  - destruct m as [|content|audio mime|content|message route| |content|].
    + handlers. chat_done.
    + handlers. stuck; chat_done.
    + destruct audio as [[|c0 t0]|], s_suppress, s_awaiting, s_timeout as [[|i]|];
        handlers;
        try (match goal with
             | |- context [atob ?x] => destruct (atob x) as [[|b0 bs]|]
             end; handlers);
        stuck; chat_done.
    + handlers. chat_done.
    + destruct message as [[|c0 t0]|], route as [[|c1 t1]|]; handlers; stuck; chat_done.
    + destruct s_timeout as [[|i]|], s_suppress.
      1, 3, 5: handlers; stuck; chat_done.
      all: destruct s_chunks; [|destruct s_indicator, s_isPlaying, s_queue];
        handlers; cbn [app]; handlers; stuck; chat_done.
    + handlers. chat_done.
    + handlers. chat_done.
  - handlers. stuck; chat_done.
  - destruct mode; [|discriminate N].
    destruct s_isRecording;
      [destruct s_mediaRecorder, s_audioContext, s_wsOpen, s_target, s_mode as [[|]|]
      |destruct s_timeout as [[|i]|], s_activeAudio];
      try congruence; handlers; chat_done.
    all: rewrite forallb_app; apply andb_true_intro; split; [exact I3 | reflexivity].
  - destruct s_starts as [|[[|] b] rest]; handlers; stuck; chat_done.
    all: try discriminate I3; try exact I3.
  - destruct s_starts as [|[[|] b] rest]; handlers; chat_done.
    all: try discriminate I3; try exact I3.
  - handlers. stuck; chat_done.
  - handlers. chat_done.
  - handlers. chat_done.
  - handlers. stuck; chat_done.
  - destruct s_isProcessing; [|handlers; chat_done].
    destruct r as [|[|] [[content tool route session]|]]; handlers.
    2: destruct session as [[|c0 t0]|], content as [c|], route as [[|c1 t1]|];
      cbv beta iota delta [q_content q_session_id q_tool_used q_target_route]; handlers.
    all: chat_done.
  - destruct f; handlers; chat_done.
  - destruct s_uploads; [handlers; chat_done|].
    destruct r as [m|[|] [[|c0 t0]|]]; handlers; chat_done.
  - destruct s_activeAudio, s_queue; handlers; stuck; chat_done.
  - destruct s_activeAudio, s_queue; handlers; stuck; chat_done.
  - handlers. stuck; chat_done.
  - handlers. chat_done.
  - handlers. chat_done.
Qed.

Lemma run_chatOnly (J : string -> option Json) (events : list Event) (s : State) :
  existsb isNavMicClick events = false -> chatOnly s -> chatOnly (run J events s).
Proof.
  revert s. induction events as [|e r IH]; intros s N I; [exact I|].
  cbn [existsb] in N. apply orb_false_elim in N. destruct N as [Ne Nr].
  exact (IH _ Nr (step_chatOnly J e Ne I)).
Qed.

(** X21.  As long as the navigation microphone is not clicked, the page
    never calls the assist endpoint and never gives the synthesiser an
    utterance, whatever the server sends, whatever the user does in the chat
    and whichever timers fire; and no answer is awaited for a navigation
    turn. *)
Theorem chat_never_assists (J : string -> option Json) (b : Browser)
  (events : list Event) :
  existsb isNavMicClick events = false ->
  existsb isAssistOrSpeech (log (run J events (initialState b))) = false
  /\ navAwaitingResponse (run J events (initialState b)) = false.
Proof.
  intros N.
  assert (I : chatOnly (initialState b)).
  { unfold chatOnly. cbn. repeat (match goal with |- _ /\ _ => split end);
      try reflexivity. discriminate. }
  destruct (run_chatOnly J events N I) as (I1 & _ & _ & _ & I5).
  split; [exact I5 | exact I1].
Qed.

Lemma chat_never_assists_witness :
  existsb isAssistOrSpeech
    (log (run (fun _ => None) chatTurn (initialState (mkBrowser true true true)))) = false
  /\ navAwaitingResponse
       (run (fun _ => None) chatTurn (initialState (mkBrowser true true true))) = false.
Proof.
  exact (@chat_never_assists (fun _ => None) (mkBrowser true true true) chatTurn eq_refl).
Defined.

Lemma action_sendView (action : AssistAction) (s : State) :
  sendView (executeAssistAction action s) = sendView s.
Proof.
  destruct_state s. destruct s_browser as [b_nav b_upload b_speech].
  destruct action as [value| | | |value| | |target|].
  - destruct value; handlers; stuck; send_done.
  - unfold openChatView. handlers. stuck; send_done.
  - destruct b_upload; send_done.
  - send_done.
  - destruct value; send_done.
  - handlers. stuck; send_done.
  - cbn [executeAssistAction]. unfold showNavGuide. send_done.
  - destruct target as [[|c0 t0]|]; send_done.
  - send_done.
Qed.

Lemma actions_sendView (actions : list AssistAction) (s : State) :
  sendView (executeAssistActions actions s) = sendView s.
Proof.
  revert s. unfold executeAssistActions.
  induction actions as [|a r IH]; intros s; [reflexivity|].
  cbn [fold_left]. rewrite IH. apply action_sendView.
Qed.

Lemma assist_sendView (J : string -> option Json) (r : AssistResult) (s : State) :
  sendView (step J (EvAssistResponse r) s) = sendView s.
Proof.
  cbn [step]. destruct (assistInFlight s) as [|n]; [reflexivity|].
  assert (E0 : sendView (set_assistInFlight n s) = sendView s) by reflexivity.
  set (s0 := set_assistInFlight n s) in *. clearbody s0. rewrite <- E0. clear E0 s.
  destruct r as [|[|] data]; unfold handleNavAssist_resume.
  1, 3: destruct_state s0; send_done.
  assert (E1 : sendView
                 (match a_message data with
                  | Some (String _ _ as m) =>
                      set_lastResponseText (Some m)
                        (addMessage m Bot (Some "navigation") false s0)
                  | _ => s0
                  end) = sendView s0).
  { destruct (a_message data) as [[|c0 t0]|]; try reflexivity.
    destruct_state s0; send_done. }
  match type of E1 with sendView ?x = _ => set (s1 := x) in * end. clearbody s1.
  rewrite <- E1. clear E1 s0. cbv zeta.
  assert (E2 : sendView
                 (match a_actions data with
                  | Some actions => executeAssistActions actions s1
                  | None => s1
                  end) = sendView s1).
  { destruct (a_actions data); [apply actions_sendView | reflexivity]. }
  match type of E2 with sendView ?x = _ => set (s2 := x) in * end. clearbody s2.
  rewrite <- E2. clear E2 s1.
  destruct (a_handled data); [|reflexivity].
  destruct_state s2. destruct s_browser as [b_nav b_upload b_speech].
  destruct s_timeout as [[|id]|], s_lastText as [[|c0 t0]|], b_speech; send_done.
Qed.

Lemma step_sendView (J : string -> option Json) (e : Event) (s : State) :
  wsOpen s = false -> isSocketOpen e = false -> sendView (step J e s) = sendView s.
Proof.
  intros W N.
  destruct e as [ | | |m|id|mode| | |d|r|v| |r|f|r|a|a|a| |p];
    try discriminate N; try apply assist_sendView.
  all: destruct_state s; destruct s_browser as [b_nav b_upload b_speech];
    cbn in W; subst s_wsOpen.
  - send_done.
  - send_done.
  - destruct m as [|content|audio mime|content|message route| |content|].
    + send_done.
    + destruct content as [|c0 t0], s_suppress, s_navAwaiting, s_timeout as [[|i]|];
        match goal with
        | |- context [MsgText ?x] => destruct (isNavigationPayload J x) eqn:En
        end; handlers; rewrite ?En; handlers; stuck; send_done.
    + destruct audio as [[|c0 t0]|], s_suppress, s_awaiting, s_timeout as [[|i]|], s_navAwaiting;
        handlers;
        try (match goal with
             | |- context [atob ?x] => destruct (atob x) as [[|b0 bs]|]
             end; handlers);
        stuck; send_done.
    + destruct content as [|c0 t0], s_navAwaiting; send_done.
    + destruct message as [[|c0 t0]|], route as [[|c1 t1]|], s_suppress, s_navAwaiting,
        s_timeout as [[|i]|]; handlers; stuck; send_done.
    + destruct s_timeout as [[|i]|], s_suppress.
      1, 3, 5: handlers; stuck; send_done.
      all: destruct s_chunks;
        [destruct s_navAwaiting, s_lastText as [[|c0 t0]|], b_speech
        |destruct s_indicator, s_isPlaying, s_queue];
        handlers; cbn [app]; handlers; stuck; send_done.
    + send_done.
    + send_done.
  - handlers. stuck.
    all: destruct s_navAwaiting, s_chunks, s_lastText as [[|c0 t0]|], b_speech; send_done.
  - destruct mode, b_nav.
    4: send_done.
    all: destruct s_isRecording;
      [destruct s_mediaRecorder, s_audioContext, s_target, s_mode as [[|]|]
      |destruct s_timeout as [[|i]|], s_activeAudio]; send_done.
  - destruct s_starts as [|[mode b] rest], b_nav; send_done.
  - destruct s_starts as [|[mode b] rest]; send_done.
  - handlers. stuck; send_done.
  - send_done.
  - handlers. stuck; send_done.
  - destruct s_isProcessing; [|send_done].
    destruct r as [|[|] [[content tool route session]|]]; handlers.
    2: destruct session as [[|c0 t0]|], content as [c|], route as [[|c1 t1]|];
      cbv beta iota delta [q_content q_session_id q_tool_used q_target_route]; handlers.
    all: send_done.
  - destruct f; send_done.
  - destruct s_uploads; [send_done|].
    destruct r as [m|[|] [[|c0 t0]|]]; send_done.
  - destruct s_activeAudio, s_queue; handlers; stuck; send_done.
  - destruct s_activeAudio, s_queue; handlers; stuck; send_done.
  - handlers. stuck; send_done.
  - send_done.
  - send_done.
Qed.

(** X22.  While the socket is not open, no handler of the page sends
    anything on it, whatever the event: a buffer captured then is dropped
    and a recording stopped then sends no audio_stream_end.  And no event
    but the opening of the socket makes it open. *)
Theorem closed_socket_sends_nothing (J : string -> option Json) (e : Event) (s : State) :
  wsOpen s = false ->
  filter isWsSend (log (step J e s)) = filter isWsSend (log s)
  /\ (isSocketOpen e = false -> wsOpen (step J e s) = false).
Proof.
  intros W. destruct (isSocketOpen e) eqn:N.
  - destruct e; try discriminate N. split; [|discriminate].
    destruct_state s. handlers. rewrite filter_app. cbn [filter isWsSend].
    apply app_nil_r.
  - pose proof (step_sendView J e s W N) as E. unfold sendView in E.
    injection E as E1 E2. split; [exact E2 | intros _; congruence].
Qed.

Lemma closed_socket_sends_nothing_witness :
  filter isWsSend (log (step noJSON (EvMicClick ModeChat) recordingOffline))
  = filter isWsSend (log recordingOffline)
  /\ wsOpen (step noJSON (EvMicClick ModeChat) recordingOffline) = false.
Proof.
  destruct (@closed_socket_sends_nothing noJSON (EvMicClick ModeChat) recordingOffline
              ltac:(vm_compute; reflexivity)) as [A B].
  split; [exact A | exact (B eq_refl)].
Defined.

Lemma step_liveSendView (e : LiveChat.Event) (s : LiveChat.State) :
  LiveChat.websocketOpen s = false -> isLiveSocketOpen e = false ->
  liveSendView (LiveChat.step e s) = liveSendView s.
Proof.
  intros W N. live_state s. subst l_open.
  destruct e as [ | | | |m| | | |d|mode|v| |a|a|a valid|a| ]; try discriminate N.
  - live_send_done.
  - live_send_done.
  - live_send_done.
  - destruct m as [| |content|audio mime| |content| |content|]; try live_send_done.
    + destruct audio as [[|c0 t0]|]; live_handlers;
        try (match goal with
             | |- context [atob ?x] => destruct (atob x) as [[|b0 bs]|]
             end);
        live_send_done.
    + destruct l_chunks, l_indicator, l_playing, l_queue; live_send_done.
  - destruct l_recording, l_recorder, l_context; live_send_done.
  - destruct l_starts, l_recording; live_send_done.
  - destruct l_starts; live_send_done.
  - live_send_done.
  - destruct mode; live_send_done.
  - live_send_done.
  - live_send_done.
  - destruct l_queue; live_send_done.
  - destruct l_queue; live_send_done.
  - destruct l_queue, valid; live_send_done.
  - live_send_done.
  - destruct l_recording, l_recorder, l_context; live_send_done.
Qed.

(** X23.  On the live chat page too, while the socket is not open no
    handler sends anything on it: not a captured buffer, not the
    audio_stream_end of a recording that is stopped, not the text the user
    submits, which stays in the input field.  And no event but the opening
    of the socket makes it open. *)
Theorem live_nothing_sent_unless_open (e : LiveChat.Event) (s : LiveChat.State) :
  LiveChat.websocketOpen s = false ->
  filter isLiveWsSend (LiveChat.log (LiveChat.step e s))
  = filter isLiveWsSend (LiveChat.log s)
  /\ (isLiveSocketOpen e = false -> LiveChat.websocketOpen (LiveChat.step e s) = false)
  /\ LiveChat.textInput (LiveChat.step LiveChat.EvSendText s) = LiveChat.textInput s.
Proof.
  intros W. split; [|split].
  - destruct (isLiveSocketOpen e) eqn:N.
    + destruct e; try discriminate N. live_state s. live_handlers.
      rewrite filter_app. cbn [filter isLiveWsSend]. apply app_nil_r.
    + pose proof (step_liveSendView e s W N) as E. unfold liveSendView in E.
      injection E as _ E2. exact E2.
  - intros N. pose proof (step_liveSendView e s W N) as E. unfold liveSendView in E.
    injection E as E1 _. congruence.
  - live_state s. subst l_open. unfold LiveChat.step, LiveChat.sendTextMessage.
    cbn [LiveChat.websocketOpen negb]. rewrite orb_true_r. reflexivity.
Qed.

Lemma live_nothing_sent_unless_open_witness :
  filter isLiveWsSend
    (LiveChat.log (LiveChat.step (LiveChat.EvAudioProcess [SNum (1 # 2)])
                     liveRecordingOffline))
  = filter isLiveWsSend (LiveChat.log liveRecordingOffline)
  /\ LiveChat.websocketOpen
       (LiveChat.step (LiveChat.EvAudioProcess [SNum (1 # 2)]) liveRecordingOffline)
     = false.
Proof.
  destruct (@live_nothing_sent_unless_open (LiveChat.EvAudioProcess [SNum (1 # 2)])
              liveRecordingOffline ltac:(vm_compute; reflexivity)) as (A & B & _).
  split; [exact A | exact (B eq_refl)].
Defined.

